(** * TalentFlow: the simulated backend and the optimistic mutation layer

    A shallow embedding of
      - [src/mocks/handlers.ts]  (the MSW request handlers over the Dexie store),
      - [src/lib/api.ts]         (the typed API client, which fixes the shape of
                                  every request the handlers receive),
      - the optimistic mutations of [src/pages/JobsPage.tsx],
        [src/pages/CandidateDetailPage.tsx] and
        [src/components/candidates/CandidateKanbanBoard.tsx],
      - the job form ([src/components/jobs/JobFormDialog.tsx]), the notes
        section ([src/components/candidates/NotesSection.tsx]) and the
        section list of [src/pages/AssessmentBuilderPage.tsx],
      - the seeding of the store ([src/lib/seed-data.ts], [src/lib/db.ts]),
    followed by the properties stated about them.

    Conventions of the embedding.
      - A JavaScript value is a [Value]; [undefined] is [None : option Value].
      - Numbers are integers ([Z]); the handlers only count, compare and
        add or subtract one. An integer is the program's number as long as
        a double holds it exactly ([safe_integer]); the page arithmetic of
        the jobs listing is stated within that range.
      - A string is the sequence of its bytes. On ASCII text
        ([ascii_text]) these are the program's UTF-16 code units and
        [trim], [toLowerCase], the length, [substring] and the character
        classes are the program's functions; properties that depend on
        them are stated for ASCII text.
      - A string produced by [new Date().toISOString()] is kept as [VTime ms],
        the instant it renders (milliseconds since the epoch): the rendering
        is injective and order preserving, and the code only stores these
        strings, compares them and parses them back. A timestamp is taken
        to differ from every other string and to sort before them.
      - [Math.random()] returns [k * 2^-53] for a natural number [k]; the
        random source, the UUID source and the clock are explicit parts of
        the [World] a handler runs in. Time passes in [delay] only: two
        readings of the clock with no delay between them are equal here,
        and in the program the second is not earlier than the first. *)

From Stdlib Require Import ZArith List String Ascii Lia.
From stdpp Require Import gmap strings list fin_maps pretty sorting.

Set Warnings "-register-all".
Local Open Scope Z_scope.

(** ** JavaScript values *)

Inductive Value : Type :=
  | VNull
  | VBool (b : bool)
  | VNum (n : Z)
  | VStr (s : string)
  | VTime (ms : Z)
  | VArr (l : list Value)
  | VObj (m : gmap string Value).

Abbreviation Obj := (gmap string Value).

(** [ToBoolean]. *)
Definition truthy (v : option Value) : bool :=
  match v with
  | None | Some VNull => false
  | Some (VBool b) => b
  | Some (VNum n) => negb (n =? 0)
  | Some (VStr s) => negb (String.eqb s "")
  | Some (VTime _) | Some (VArr _) | Some (VObj _) => true
  end.

(** [===] between two values that were obtained independently (a request
    body and a stored row): primitives compare by value, arrays and
    objects are never the same reference. *)
Definition strict_eq (a b : option Value) : bool :=
  match a, b with
  | None, None => true
  | Some VNull, Some VNull => true
  | Some (VBool x), Some (VBool y) => Bool.eqb x y
  | Some (VNum x), Some (VNum y) => x =? y
  | Some (VStr x), Some (VStr y) => String.eqb x y
  | Some (VTime x), Some (VTime y) => x =? y
  | _, _ => false
  end.

(** [ToNumber], [None] standing for [NaN]. Numeric strings are not
    converted: no row field that the handlers compare holds one. *)
Definition to_number (v : option Value) : option Z :=
  match v with
  | Some (VNum n) => Some n
  | Some VNull => Some 0
  | Some (VBool b) => Some (if b then 1 else 0)
  | _ => None
  end.

(** The relational operators: two strings (or two timestamps) compare as
    strings, everything else through [ToNumber]; a comparison with [NaN]
    is false. *)
Definition js_lt (a b : option Value) : bool :=
  match a, b with
  | Some (VStr x), Some (VStr y) => String.ltb x y
  | Some (VTime x), Some (VTime y) => x <? y
  | _, _ =>
      match to_number a, to_number b with
      | Some x, Some y => x <? y
      | _, _ => false
      end
  end.

Definition js_le (a b : option Value) : bool :=
  match a, b with
  | Some (VStr x), Some (VStr y) => String.leb x y
  | Some (VTime x), Some (VTime y) => x <=? y
  | _, _ =>
      match to_number a, to_number b with
      | Some x, Some y => x <=? y
      | _, _ => false
      end
  end.

Definition js_gt (a b : option Value) : bool := js_lt b a.
Definition js_ge (a b : option Value) : bool := js_le b a.

(** [a - b] and [a + b] on numbers; the handlers apply them to an order
    value that has just been compared with a number. *)
Definition js_add (a : option Value) (k : Z) : option Value :=
  match to_number a with
  | Some n => Some (VNum (n + k))
  | None => None
  end.

(** [{ ...o, k: v }] with [v] possibly [undefined]: the key is set when the
    value is there. Responses go through [JSON.stringify], which drops the
    keys whose value is [undefined]. *)
Definition set_opt (k : string) (v : option Value) (o : Obj) : Obj :=
  match v with
  | Some x => <[k := x]> o
  | None => o
  end.

(** *** Strings: [toLowerCase], [trim], [split(',')], [parseInt] *)

Definition lower_ascii (c : ascii) : ascii :=
  let n := nat_of_ascii c in
  if ((65 <=? n)%nat && (n <=? 90)%nat)%bool then ascii_of_nat (n + 32) else c.

(** [String.prototype.toLowerCase] on the ASCII letters. *)
Fixpoint toLowerCase (s : string) : string :=
  match s with
  | EmptyString => EmptyString
  | String c r => String (lower_ascii c) (toLowerCase r)
  end.

Definition is_space (c : ascii) : bool :=
  let n := nat_of_ascii c in
  ((n =? 32)%nat || ((9 <=? n)%nat && (n <=? 13)%nat))%bool.

Fixpoint trim_start (s : string) : string :=
  match s with
  | String c r => if is_space c then trim_start r else s
  | EmptyString => EmptyString
  end.

Fixpoint trim_end (s : string) : string :=
  match s with
  | EmptyString => EmptyString
  | String c r =>
      match trim_end r with
      | EmptyString => if is_space c then EmptyString else String c EmptyString
      | r' => String c r'
      end
  end.

(** [String.prototype.trim] on the ASCII white space. *)
Definition trim (s : string) : string := trim_end (trim_start s).

(** [s.split(sep)] for a one-character separator: always at least one
    piece. *)
Fixpoint split_char (sep : ascii) (s : string) : list string :=
  match s with
  | EmptyString => [EmptyString]
  | String c r =>
      if Ascii.eqb c sep then EmptyString :: split_char sep r
      else match split_char sep r with
           | p :: ps => String c p :: ps
           | [] => [String c EmptyString]
           end
  end.

Definition split_comma (s : string) : list string := split_char "," s.

Definition digit_of (radix : Z) (c : ascii) : option Z :=
  let n := Z.of_nat (nat_of_ascii c) in
  let d := if (48 <=? n) && (n <=? 57) then Some (n - 48)
           else if (97 <=? n) && (n <=? 122) then Some (n - 87)
           else if (65 <=? n) && (n <=? 90) then Some (n - 55)
           else None in
  match d with
  | Some k => if k <? radix then Some k else None
  | None => None
  end.

(** The longest prefix of digits, accumulated left to right; [None] when
    there is no digit at all. *)
Fixpoint parse_digits (radix : Z) (acc : option Z) (s : string) : option Z :=
  match s with
  | EmptyString => acc
  | String c r =>
      match digit_of radix c with
      | Some d => parse_digits radix (Some (default 0 acc * radix + d)) r
      | None => acc
      end
  end.

Definition strip_hex_prefix (s : string) : option string :=
  match s with
  | String "0" (String "x" r) | String "0" (String "X" r) => Some r
  | _ => None
  end.

(** [parseInt(s)] without a radix argument; [None] is [NaN]. The value
    is the exact integer, which is the program's double within
    [safe_integer]; leading white space is the ASCII one. *)
Definition parseInt (s : string) : option Z :=
  let s1 := trim_start s in
  let '(sign, s2) :=
    match s1 with
    | String "-" r => (-1, r)
    | String "+" r => (1, r)
    | _ => (1, s1)
    end in
  let mag :=
    match strip_hex_prefix s2 with
    | Some r => parse_digits 16 None r
    | None => parse_digits 10 None s2
    end in
  (fun m => sign * m) <$> mag.

(** [xs.slice(start, end)] with both bounds converted by [ToIntegerOrInfinity]
    ([NaN] becomes 0) and negative bounds counted from the end. *)
Definition clamp_index (len : Z) (i : option Z) : Z :=
  let k := default 0 i in
  if k <? 0 then Z.max (len + k) 0 else Z.min k len.

Definition js_slice {A} (xs : list A) (start stop : option Z) : list A :=
  let len := Z.of_nat (length xs) in
  let k := clamp_index len start in
  let f := clamp_index len stop in
  take (Z.to_nat (f - k)) (drop (Z.to_nat k) xs).

(** *** [Array.prototype.sort]: stable, [a] stays before [b] when the
    comparator does not put [b] first. *)

Fixpoint insert_by {A} (le : A → A → bool) (x : A) (l : list A) : list A :=
  match l with
  | [] => [x]
  | y :: l' => if le x y then x :: y :: l' else y :: insert_by le x l'
  end.

Definition sort_by {A} (le : A → A → bool) (l : list A) : list A :=
  foldr (insert_by le) [] l.

(** ** The Dexie store ([src/lib/db.ts])

    Every table has the inbound primary key [id]; a table is a finite map
    from the key to the stored object, and a row is read back with its key
    in [id]. *)

Abbreviation Table := (gmap string Obj).

Inductive TableName :=
  | Jobs | Candidates | Timeline | Notes | Assessments | AssessmentResponses.

Record DB := mkDB {
  jobs : Table;
  candidates : Table;
  timeline : Table;
  notes : Table;
  assessments : Table;
  assessmentResponses : Table;
}.

Definition table (n : TableName) (d : DB) : Table :=
  match n with
  | Jobs => jobs d
  | Candidates => candidates d
  | Timeline => timeline d
  | Notes => notes d
  | Assessments => assessments d
  | AssessmentResponses => assessmentResponses d
  end.

Definition set_table (n : TableName) (t : Table) (d : DB) : DB :=
  match n with
  | Jobs => mkDB t (candidates d) (timeline d) (notes d) (assessments d) (assessmentResponses d)
  | Candidates => mkDB (jobs d) t (timeline d) (notes d) (assessments d) (assessmentResponses d)
  | Timeline => mkDB (jobs d) (candidates d) t (notes d) (assessments d) (assessmentResponses d)
  | Notes => mkDB (jobs d) (candidates d) (timeline d) t (assessments d) (assessmentResponses d)
  | Assessments => mkDB (jobs d) (candidates d) (timeline d) (notes d) t (assessmentResponses d)
  | AssessmentResponses => mkDB (jobs d) (candidates d) (timeline d) (notes d) (assessments d) t
  end.

Definition row (k : string) (o : Obj) : Obj := <["id" := VStr k]> o.

Definition row_id (r : Obj) : string :=
  match r !! "id" with
  | Some (VStr k) => k
  | _ => EmptyString
  end.

Definition order_of (j : Obj) : option Z :=
  match j !! "order" with
  | Some (VNum n) => Some n
  | _ => None
  end.

(** [table.get(key)]. *)
Definition tbl_get (t : Table) (k : string) : option Obj := row k <$> t !! k.

(** [table.add(obj)]: the key is read from [obj.id]; [None] when the object
    carries no string key ([DataError]) or the key is taken
    ([ConstraintError]). *)
Definition tbl_add (t : Table) (o : Obj) : option Table :=
  match o !! "id" with
  | Some (VStr k) =>
      match t !! k with
      | Some _ => None
      | None => Some (<[k := o]> t)
      end
  | _ => None
  end.

(** [table.update(key, changes)]: the top-level properties named by
    [changes] are overwritten on the row with that key, if there is one.
    Dexie reads a key with a dot as a path into the row; dotted keys and
    changes to [id] itself do not occur in the requests built by
    [src/lib/api.ts], and the properties about other bodies assume
    [plain_keys] and no [id]. *)
Definition tbl_update (t : Table) (k : string) (changes : Obj) : Table :=
  match t !! k with
  | Some o => <[k := changes ∪ o]> t
  | None => t
  end.

(** [table.toArray()]: the rows in primary-key order. *)
Definition tbl_toArray (t : Table) : list Obj :=
  (fun p => row p.1 p.2) <$> sort_by (fun a b => String.leb a.1 b.1) (map_to_list t).

(** The keys an index holds: numbers and strings (array and binary keys
    do not occur), numbers before strings, timestamps before the other
    strings. *)
Definition indexable (v : option Value) : bool :=
  match v with
  | Some (VNum _) | Some (VStr _) | Some (VTime _) => true
  | _ => false
  end.

Definition idx_le (a b : option Value) : bool :=
  match a, b with
  | Some (VNum x), Some (VNum y) => x <=? y
  | Some (VNum _), _ => true
  | _, Some (VNum _) => false
  | Some (VTime x), Some (VTime y) => x <=? y
  | Some (VTime _), _ => true
  | _, Some (VTime _) => false
  | Some (VStr x), Some (VStr y) => String.leb x y
  | _, _ => true
  end.

(** [table.orderBy(field).toArray()]: the rows that have a key in the index
    on [field], by that key and then by primary key. *)
Definition tbl_orderBy (field : string) (t : Table) : list Obj :=
  sort_by (fun a b => idx_le (a !! field) (b !! field))
          (filter (fun r => Is_true (indexable (r !! field))) (tbl_toArray t)).

(** [table.where(field).equals(key).toArray()] for a string key. *)
Definition tbl_where_equals (field key : string) (t : Table) : list Obj :=
  filter (fun r => Is_true (strict_eq (r !! field) (Some (VStr key)))) (tbl_toArray t).

(** [collection.reverse().sortBy(field)]: Dexie sorts the reversed array
    with the comparator [a < b ? 1 : a > b ? -1 : 0]. *)
Definition reverse_sortBy (field : string) (rows : list Obj) : list Obj :=
  sort_by (fun a b => negb (js_lt (a !! field) (b !! field))) (rev rows).

(** ** The world a handler runs in, and the handler monad *)

(** A write call issued to the store. *)
Inductive StoreWrite :=
  | StoreAdd (n : TableName) (o : Obj)
  | StoreUpdate (n : TableName) (k : string) (changes : Obj).

Record World := mkWorld {
  db : DB;
  clock : Z;                (* milliseconds since the epoch *)
  random : nat → N;         (* the samples of Math.random(), as k in k * 2^-53 *)
  drawn : nat;              (* how many samples were consumed *)
  uuid : nat → string;      (* the values of crypto.randomUUID() *)
  issued : nat;             (* how many of them were consumed *)
  writes : list StoreWrite; (* the add and update calls issued so far *)
}.

Definition with_db (d : DB) (w : World) : World :=
  mkWorld d (clock w) (random w) (drawn w) (uuid w) (issued w) (writes w).

Definition with_random (r : nat → N) (w : World) : World :=
  mkWorld (db w) (clock w) r (drawn w) (uuid w) (issued w) (writes w).

Definition log_write (x : StoreWrite) (w : World) : World :=
  mkWorld (db w) (clock w) (random w) (drawn w) (uuid w) (issued w) (writes w ++ [x]).

Inductive Outcome (A : Type) : Type :=
  | Done (a : A)
  | Thrown (e : string).
Arguments Done {A} a.
Arguments Thrown {A} e.

Definition Handler (A : Type) : Type := World → Outcome A * World.

Definition ret {A} (a : A) : Handler A := fun w => (Done a, w).

Definition bind {A B} (m : Handler A) (k : A → Handler B) : Handler B :=
  fun w =>
    match m w with
    | (Done a, w') => k a w'
    | (Thrown e, w') => (Thrown e, w')
    end.

Definition throw {A} (e : string) : Handler A := fun w => (Thrown e, w).

Declare Scope handler_scope.
Delimit Scope handler_scope with handler.
Notation "x <- m ;; k" := (bind m (fun x => k))
  (at level 100, m at next level, right associativity) : handler_scope.
Notation "m ;;; k" := (bind m (fun _ => k))
  (at level 100, right associativity) : handler_scope.
Local Open Scope handler_scope.

Definition lift {A} (o : Outcome A) : Handler A := fun w => (o, w).

Definition Math_random : Handler N :=
  fun w => (Done (random w (drawn w)),
            mkWorld (db w) (clock w) (random w) (S (drawn w)) (uuid w) (issued w) (writes w)).

Definition randomUUID : Handler string :=
  fun w => (Done (uuid w (issued w)),
            mkWorld (db w) (clock w) (random w) (drawn w) (uuid w) (S (issued w)) (writes w)).

(** [await delay(ms)]: the task resumes [ms] later. *)
Definition delay (ms : Z) : Handler unit :=
  fun w => (Done tt,
            mkWorld (db w) (clock w + ms) (random w) (drawn w) (uuid w) (issued w) (writes w)).

(** [new Date().toISOString()]. *)
Definition now : Handler Value := fun w => (Done (VTime (clock w)), w).

Definition read_table (n : TableName) : Handler Table := fun w => (Done (table n (db w)), w).

Definition write_table (n : TableName) (t : Table) : Handler unit :=
  fun w => (Done tt, with_db (set_table n t (db w)) w).

Definition db_get (n : TableName) (k : string) : Handler (option Obj) :=
  t <- read_table n ;; ret (tbl_get t k).

Definition record_write (x : StoreWrite) : Handler unit :=
  fun w => (Done tt, log_write x w).

Definition db_add (n : TableName) (o : Obj) : Handler unit :=
  record_write (StoreAdd n o) ;;;
  t <- read_table n ;;
  match tbl_add t o with
  | Some t' => write_table n t'
  | None => throw "ConstraintError"
  end.

Definition db_update (n : TableName) (k : string) (changes : Obj) : Handler unit :=
  record_write (StoreUpdate n k changes) ;;;
  t <- read_table n ;; write_table n (tbl_update t k changes).

(** [for (const x of xs) { await body(x) }]. *)
Fixpoint for_of {A} (xs : list A) (body : A → Handler unit) : Handler unit :=
  match xs with
  | [] => ret tt
  | x :: xs' => body x ;;; for_of xs' body
  end.

(** *** Latency and failure injection *)

(** [Math.random() * (1200 - 200) + 200] milliseconds, whole milliseconds
    being what the timer counts. The product is taken exactly and
    rounded down; the program rounds in doubles, which can differ by one
    millisecond and reaches 1200 for the largest sample. *)
Definition simulateLatency : Handler unit :=
  u <- Math_random ;;
  delay (Z.of_N u * (1200 - 200) / 2 ^ 53 + 200).

(** The double written [0.075] is exactly [error_rate_num / 2^56]. *)
Definition error_rate_num : Z := 5404319552844595.

(** [Math.random() < 0.075] on a sample [u * 2^-53]. *)
Definition below_error_rate (u : N) : bool := Z.of_N u * 8 <? error_rate_num.

Definition shouldSimulateError : Handler bool :=
  u <- Math_random ;; ret (below_error_rate u).

(** *** Responses *)

Record Response := mkResponse { status : Z; payload : Value }.

(** [HttpResponse.json(body)] and [HttpResponse.json(body, { status })]. *)
Definition json (body : Obj) : Response := mkResponse 200 (VObj body).
Definition json_status (st : Z) (body : Obj) : Response := mkResponse st (VObj body).

Definition error_body (msg : string) : Obj := {[ "error" := VStr msg ]}.

Definition num_json (n : option Z) : Value :=
  match n with
  | Some k => VNum k
  | None => VNull
  end.

Definition rows_json (rows : list Obj) : Value := VArr (VObj <$> rows).

(** ** The request handlers ([src/mocks/handlers.ts])

    Each handler takes what [src/lib/api.ts] puts in the request: the path
    parameter, the URL search parameters, the JSON body. *)

(** [url.searchParams.get(name)]: the first value, or [null]. *)
Fixpoint searchParams_get (search : list (string * string)) (name : string) : option string :=
  match search with
  | [] => None
  | (k, v) :: rest => if String.eqb k name then Some v else searchParams_get rest name
  end.

(** [url.searchParams.get(name) || fallback]. *)
Definition param_or (search : list (string * string)) (name fallback : string) : string :=
  match searchParams_get search name with
  | Some v => if String.eqb v "" then fallback else v
  | None => fallback
  end.

Definition str_truthy (s : option string) : bool :=
  match s with
  | Some v => negb (String.eqb v "")
  | None => false
  end.

(** [j.tags.some(tag => tagArray.includes(tag.toLowerCase()))]: a
    [TypeError] when [tags] is not an array or a tag met before the first
    hit is not a string (a timestamp is a string that matches no tag). *)
Fixpoint some_tag (tagArray : list string) (tags : list Value) : Outcome bool :=
  match tags with
  | [] => Done false
  | VStr tag :: rest =>
      if existsb (String.eqb (toLowerCase tag)) tagArray then Done true
      else some_tag tagArray rest
  | VTime _ :: rest => some_tag tagArray rest
  | _ :: _ => Thrown "TypeError"
  end.

Definition tags_match (tagArray : list string) (j : Obj) : Outcome bool :=
  match j !! "tags" with
  | Some (VArr tags) => some_tag tagArray tags
  | _ => Thrown "TypeError"
  end.

(** [jobs.filter(p)] for a predicate that may throw. *)
Fixpoint filter_throwing {A} (p : A → Outcome bool) (xs : list A) : Outcome (list A) :=
  match xs with
  | [] => Done []
  | x :: rest =>
      match p x with
      | Thrown e => Thrown e
      | Done b =>
          match filter_throwing p rest with
          | Thrown e => Thrown e
          | Done ys => Done (if b then x :: ys else ys)
          end
      end
  end.

Definition opt_mul (a b : option Z) : option Z :=
  match a, b with Some x, Some y => Some (x * y) | _, _ => None end.
Definition opt_add (a b : option Z) : option Z :=
  match a, b with Some x, Some y => Some (x + y) | _, _ => None end.

(** [GET /api/jobs] *)
Definition get_jobs (search : list (string * string)) : Handler Response :=
  simulateLatency ;;;
  let status := searchParams_get search "status" in
  let tags := searchParams_get search "tags" in
  let page := parseInt (param_or search "page" "1") in
  let pageSize := parseInt (param_or search "pageSize" "20") in
  t <- read_table Jobs ;;
  let jobs0 := tbl_orderBy "order" t in
  let jobs1 :=
    if str_truthy status
    then filter (fun j => Is_true (strict_eq (j !! "status") (VStr <$> status))) jobs0
    else jobs0 in
  jobs2 <- lift (if str_truthy tags
                 then
                   let tagArray := (fun t => toLowerCase (trim t)) <$> split_comma (default "" tags) in
                   filter_throwing (tags_match tagArray) jobs1
                 else Done jobs1) ;;
  let start := opt_mul (opt_add page (Some (-1))) pageSize in
  let paginatedJobs := js_slice jobs2 start (opt_add start pageSize) in
  ret (json (<["data" := rows_json paginatedJobs]>
            (<["total" := VNum (Z.of_nat (length jobs2))]>
            (<["page" := num_json page]>
            (<["pageSize" := num_json pageSize]> ∅))))).

(** [{ data: row }] where [row] may be [undefined]. *)
Definition data_of (r : option Obj) : Obj := set_opt "data" (VObj <$> r) ∅.

(** [GET /api/jobs/:id] *)
Definition get_job (id : string) : Handler Response :=
  simulateLatency ;;;
  job <- db_get Jobs id ;;
  match job with
  | None => ret (json_status 404 (error_body "Job not found"))
  | Some j => ret (json (data_of (Some j)))
  end.

(** [POST /api/jobs] *)
Definition post_job (body : Obj) : Handler Response :=
  simulateLatency ;;;
  fail <- shouldSimulateError ;;
  if fail then ret (json_status 500 (error_body "Failed to create job. Please try again."))
  else
    id <- randomUUID ;;
    createdAt <- now ;;
    updatedAt <- now ;;
    let job := <["updatedAt" := updatedAt]> (<["createdAt" := createdAt]> (<["id" := VStr id]> body)) in
    db_add Jobs job ;;;
    ret (json (data_of (Some job))).

(** [PATCH /api/jobs/:id] *)
Definition patch_job (id : string) (updates : Obj) : Handler Response :=
  simulateLatency ;;;
  fail <- shouldSimulateError ;;
  if fail then ret (json_status 500 (error_body "Failed to update job. Please try again."))
  else
    updatedAt <- now ;;
    db_update Jobs id (<["updatedAt" := updatedAt]> updates) ;;;
    job <- db_get Jobs id ;;
    ret (json (data_of job)).

(** [PATCH /api/jobs/reorder], body [{ fromOrder, toOrder }] with the two
    numbers given to [jobsApi.reorder]. *)
Definition patch_jobs_reorder (fromOrder toOrder : Z) : Handler Response :=
  simulateLatency ;;;
  fail <- shouldSimulateError ;;
  if fail then ret (json_status 500 (error_body "Failed to reorder jobs. Please try again."))
  else
    t <- read_table Jobs ;;
    let jobs := tbl_orderBy "order" t in
    match List.find (fun j => strict_eq (j !! "order") (Some (VNum fromOrder))) jobs with
    | None => ret (json_status 404 (error_body "Job not found"))
    | Some job =>
        (if fromOrder <? toOrder
         then
           for_of jobs (fun j =>
             if js_gt (j !! "order") (Some (VNum fromOrder)) && js_le (j !! "order") (Some (VNum toOrder))
             then db_update Jobs (row_id j) (set_opt "order" (js_add (j !! "order") (-1)) ∅)
             else ret tt)
         else
           for_of jobs (fun j =>
             if js_ge (j !! "order") (Some (VNum toOrder)) && js_lt (j !! "order") (Some (VNum fromOrder))
             then db_update Jobs (row_id j) (set_opt "order" (js_add (j !! "order") 1) ∅)
             else ret tt)) ;;;
        db_update Jobs (row_id job) {[ "order" := VNum toOrder ]} ;;;
        ret (json {[ "success" := VBool true ]})
    end.

(** [new Date(v).getTime()], [None] being [NaN]; strings other than the
    timestamps the handlers write are taken as unparsable. *)
Definition getTime (v : option Value) : option Z :=
  match v with
  | Some (VTime ms) => Some ms
  | Some (VStr _) => None
  | _ => to_number v
  end.

(** [GET /api/candidates/search] *)
Definition get_candidates_search (search : list (string * string)) : Handler Response :=
  simulateLatency ;;;
  let stage := searchParams_get search "stage" in
  let page := parseInt (param_or search "page" "1") in
  t <- read_table Candidates ;;
  let c0 := tbl_toArray t in
  let c1 :=
    if str_truthy stage
    then filter (fun c => Is_true (strict_eq (c !! "stage") (VStr <$> stage))) c0
    else c0 in
  (* most recent first: the comparator is b.appliedAt - a.appliedAt *)
  let c2 := sort_by (fun a b =>
                       match getTime (b !! "appliedAt"), getTime (a !! "appliedAt") with
                       | Some tb, Some ta => tb - ta <=? 0
                       | _, _ => true
                       end) c1 in
  ret (json (<["data" := rows_json c2]>
            (<["total" := VNum (Z.of_nat (length c2))]> ∅))).

(** [GET /api/candidates/:id] *)
Definition get_candidate (id : string) : Handler Response :=
  simulateLatency ;;;
  candidate <- db_get Candidates id ;;
  match candidate with
  | None => ret (json_status 404 (error_body "Candidate not found"))
  | Some c => ret (json (data_of (Some c)))
  end.

(** [GET /api/candidates/:id/timeline] *)
Definition get_candidate_timeline (id : string) : Handler Response :=
  simulateLatency ;;;
  t <- read_table Timeline ;;
  let events := reverse_sortBy "createdAt" (tbl_where_equals "candidateId" id t) in
  ret (json {[ "data" := rows_json events ]}).

(** [String(v)] inside a template literal, for the values a stage can
    hold (a stage is one of six strings). *)
Definition template_str (v : option Value) : string :=
  match v with
  | None => "undefined"
  | Some VNull => "null"
  | Some (VBool true) => "true"
  | Some (VBool false) => "false"
  | Some (VNum n) => pretty n
  | Some (VStr s) => s
  | Some (VTime _) => "[timestamp]"
  | Some (VArr _) => "[array]"
  | Some (VObj _) => "[object Object]"
  end.

(** [PATCH /api/candidates/:id] *)
Definition patch_candidate (id : string) (updates : Obj) : Handler Response :=
  simulateLatency ;;;
  fail <- shouldSimulateError ;;
  if fail then ret (json_status 500 (error_body "Failed to update candidate. Please try again."))
  else
    candidate <- db_get Candidates id ;;
    match candidate with
    | None => ret (json_status 404 (error_body "Candidate not found"))
    | Some c =>
        (* if the stage changed, add a timeline event *)
        (if truthy (updates !! "stage") && negb (strict_eq (updates !! "stage") (c !! "stage"))
         then
           eid <- randomUUID ;;
           createdAt <- now ;;
           db_add Timeline
             (<["id" := VStr eid]>
             (<["candidateId" := VStr id]>
             (<["type" := VStr "stage_change"]>
             (<["content" := VStr ("Moved from " ++ template_str (c !! "stage")
                                    ++ " to " ++ template_str (updates !! "stage"))]>
             (set_opt "fromStage" (c !! "stage")
             (set_opt "toStage" (updates !! "stage")
             (<["createdAt" := createdAt]> ∅)))))))
         else ret tt) ;;;
        updatedAt <- now ;;
        db_update Candidates id (<["updatedAt" := updatedAt]> updates) ;;;
        updatedCandidate <- db_get Candidates id ;;
        ret (json (data_of updatedCandidate))
    end.

(** [POST /api/candidates] *)
Definition post_candidate (body : Obj) : Handler Response :=
  simulateLatency ;;;
  fail <- shouldSimulateError ;;
  if fail then ret (json_status 500 (error_body "Failed to create candidate. Please try again."))
  else
    id <- randomUUID ;;
    appliedAt <- now ;;
    updatedAt <- now ;;
    let candidate :=
      <["updatedAt" := updatedAt]> (<["appliedAt" := appliedAt]>
      (<["stage" := VStr "applied"]> (<["id" := VStr id]> body))) in
    db_add Candidates candidate ;;;
    (* add the timeline event *)
    eid <- randomUUID ;;
    createdAt <- now ;;
    db_add Timeline
      (<["id" := VStr eid]>
      (set_opt "candidateId" (candidate !! "id")
      (<["type" := VStr "stage_change"]>
      (<["content" := VStr "Application submitted"]>
      (<["toStage" := VStr "applied"]>
      (<["createdAt" := createdAt]> ∅)))))) ;;;
    ret (json (data_of (Some candidate))).

(** [GET /api/assessments/job/:jobId] *)
Definition get_assessments_by_job (jobId : string) : Handler Response :=
  simulateLatency ;;;
  t <- read_table Assessments ;;
  ret (json {[ "data" := rows_json (tbl_where_equals "jobId" jobId t) ]}).

(** [GET /api/assessments/:id] *)
Definition get_assessment (id : string) : Handler Response :=
  simulateLatency ;;;
  assessment <- db_get Assessments id ;;
  match assessment with
  | None => ret (json_status 404 (error_body "Assessment not found"))
  | Some a => ret (json (data_of (Some a)))
  end.

(** [POST /api/assessments] *)
Definition post_assessment (body : Obj) : Handler Response :=
  simulateLatency ;;;
  fail <- shouldSimulateError ;;
  if fail then ret (json_status 500 (error_body "Failed to create assessment. Please try again."))
  else
    id <- randomUUID ;;
    createdAt <- now ;;
    updatedAt <- now ;;
    let assessment :=
      <["updatedAt" := updatedAt]> (<["createdAt" := createdAt]> (<["id" := VStr id]> body)) in
    db_add Assessments assessment ;;;
    ret (json (data_of (Some assessment))).

(** [PUT /api/assessments/:id] *)
Definition put_assessment (id : string) (updates : Obj) : Handler Response :=
  simulateLatency ;;;
  fail <- shouldSimulateError ;;
  if fail then ret (json_status 500 (error_body "Failed to update assessment. Please try again."))
  else
    updatedAt <- now ;;
    db_update Assessments id (<["updatedAt" := updatedAt]> updates) ;;;
    assessment <- db_get Assessments id ;;
    ret (json (data_of assessment)).

(** [POST /api/assessments/job/:jobId/submit] *)
Definition post_assessment_submit (jobId : string) (body : Obj) : Handler Response :=
  simulateLatency ;;;
  fail <- shouldSimulateError ;;
  if fail then ret (json_status 500 (error_body "Failed to submit assessment. Please try again."))
  else
    id <- randomUUID ;;
    submittedAt <- now ;;
    completedAt <- now ;;
    let response :=
      <["id" := VStr id]>
      (set_opt "assessmentId" (body !! "assessmentId")
      (set_opt "candidateId" (body !! "candidateId")
      (set_opt "answers" (body !! "answers")
      (<["submittedAt" := submittedAt]>
      (<["completedAt" := completedAt]> ∅))))) in
    db_add AssessmentResponses response ;;;
    ret (json (data_of (Some response))).

(** [content.substring(0, 100) + (content.length > 100 ? '...' : '')]; a
    [TypeError] when [content] is not a string. Length and cut count
    bytes, which are the program's code units on ASCII text. *)
Definition note_preview (content : option Value) : Outcome Value :=
  match content with
  | Some (VStr s) =>
      Done (VStr (String.substring 0 100 s
                  ++ (if (100 <? String.length s)%nat then "..." else "")))
  | Some (VTime ms) => Done (VTime ms)
  | _ => Thrown "TypeError"
  end.

(** [POST /api/notes] *)
Definition post_note (body : Obj) : Handler Response :=
  simulateLatency ;;;
  fail <- shouldSimulateError ;;
  if fail then ret (json_status 500 (error_body "Failed to create note. Please try again."))
  else
    id <- randomUUID ;;
    createdAt <- now ;;
    let note := <["createdAt" := createdAt]> (<["id" := VStr id]> body) in
    db_add Notes note ;;;
    (* add the timeline event *)
    eid <- randomUUID ;;
    preview <- lift (note_preview (body !! "content")) ;;
    createdAt' <- now ;;
    db_add Timeline
      (<["id" := VStr eid]>
      (set_opt "candidateId" (body !! "candidateId")
      (<["type" := VStr "note"]>
      (<["content" := preview]>
      (<["createdAt" := createdAt']> ∅))))) ;;;
    ret (json (data_of (Some note))).

(** [GET /api/notes/:candidateId] *)
Definition get_notes (candidateId : string) : Handler Response :=
  simulateLatency ;;;
  t <- read_table Notes ;;
  let notes := reverse_sortBy "createdAt" (tbl_where_equals "candidateId" candidateId t) in
  ret (json {[ "data" := rows_json notes ]}).

(** *** The requests of [src/lib/api.ts] (and the two [fetch] calls of
    [NotesSection.tsx]), and the handler each one is written for *)

Inductive Method := GET | POST | PATCH | PUT.

Inductive Request :=
  | JobsGetAll (search : list (string * string))
  | JobsGetById (id : string)
  | JobsCreate (data : Obj)
  | JobsUpdate (id : string) (data : Obj)
  | JobsReorder (fromOrder toOrder : Z)
  | CandidatesSearch (search : list (string * string))
  | CandidatesGetById (id : string)
  | CandidatesGetTimeline (id : string)
  | CandidatesUpdate (id : string) (data : Obj)
  | CandidatesCreate (data : Obj)
  | AssessmentsGetByJobId (jobId : string)
  | AssessmentsGetById (id : string)
  | AssessmentsCreate (data : Obj)
  | AssessmentsUpdate (id : string) (data : Obj)
  | AssessmentsSubmitResponse (jobId : string) (data : Obj)
  | NotesCreate (data : Obj)
  | NotesGetByCandidate (candidateId : string).

Definition method (r : Request) : Method :=
  match r with
  | JobsGetAll _ | JobsGetById _ | CandidatesSearch _ | CandidatesGetById _
  | CandidatesGetTimeline _ | AssessmentsGetByJobId _ | AssessmentsGetById _
  | NotesGetByCandidate _ => GET
  | JobsCreate _ | CandidatesCreate _ | AssessmentsCreate _
  | AssessmentsSubmitResponse _ _ | NotesCreate _ => POST
  | JobsUpdate _ _ | JobsReorder _ _ | CandidatesUpdate _ _ => PATCH
  | AssessmentsUpdate _ _ => PUT
  end.

Definition is_write (r : Request) : bool :=
  match method r with
  | GET => false
  | POST | PATCH | PUT => true
  end.

Definition handle (r : Request) : Handler Response :=
  match r with
  | JobsGetAll search => get_jobs search
  | JobsGetById id => get_job id
  | JobsCreate data => post_job data
  | JobsUpdate id data => patch_job id data
  | JobsReorder fromOrder toOrder => patch_jobs_reorder fromOrder toOrder
  | CandidatesSearch search => get_candidates_search search
  | CandidatesGetById id => get_candidate id
  | CandidatesGetTimeline id => get_candidate_timeline id
  | CandidatesUpdate id data => patch_candidate id data
  | CandidatesCreate data => post_candidate data
  | AssessmentsGetByJobId jobId => get_assessments_by_job jobId
  | AssessmentsGetById id => get_assessment id
  | AssessmentsCreate data => post_assessment data
  | AssessmentsUpdate id data => put_assessment id data
  | AssessmentsSubmitResponse jobId data => post_assessment_submit jobId data
  | NotesCreate data => post_note data
  | NotesGetByCandidate candidateId => get_notes candidateId
  end.

(** The five endpoints that answer with a list. *)
Definition is_list_endpoint (r : Request) : bool :=
  match r with
  | JobsGetAll _ | CandidatesSearch _ | CandidatesGetTimeline _
  | NotesGetByCandidate _ | AssessmentsGetByJobId _ => true
  | _ => false
  end.

(** *** The order of the handlers

    MSW tries the handlers in the order of the [handlers] array and takes
    the first whose method and path pattern match; a [:name] segment
    matches any non-empty segment. *)

Definition handlers : list (Method * string) :=
  [ (GET, "/api/jobs");
    (GET, "/api/jobs/:id");
    (POST, "/api/jobs");
    (PATCH, "/api/jobs/:id");
    (PATCH, "/api/jobs/reorder");
    (GET, "/api/candidates/search");
    (GET, "/api/candidates/:id");
    (GET, "/api/candidates/:id/timeline");
    (PATCH, "/api/candidates/:id");
    (POST, "/api/candidates");
    (GET, "/api/assessments/job/:jobId");
    (GET, "/api/assessments/:id");
    (POST, "/api/assessments");
    (PUT, "/api/assessments/:id");
    (POST, "/api/assessments/job/:jobId/submit");
    (POST, "/api/notes");
    (GET, "/api/notes/:candidateId") ].

Definition method_eqb (a b : Method) : bool :=
  match a, b with
  | GET, GET | POST, POST | PATCH, PATCH | PUT, PUT => true
  | _, _ => false
  end.

Definition segment_matches (pattern segment : string) : bool :=
  match pattern with
  | String ":" _ => negb (String.eqb segment "")
  | _ => String.eqb pattern segment
  end.

Fixpoint segments_match (patterns segments : list string) : bool :=
  match patterns, segments with
  | [], [] => true
  | p :: ps, s :: ss => segment_matches p s && segments_match ps ss
  | _, _ => false
  end.

Definition path_matches (pattern path : string) : bool :=
  segments_match (split_char "/" pattern) (split_char "/" path).

(** The position and pattern of the handler that answers a request. *)
Fixpoint first_match (m : Method) (path : string) (i : nat) (hs : list (Method * string))
    : option (nat * string) :=
  match hs with
  | [] => None
  | (m', pattern) :: rest =>
      if method_eqb m m' && path_matches pattern path then Some (i, pattern)
      else first_match m path (S i) rest
  end.

Definition resolve (m : Method) (path : string) : option (nat * string) :=
  first_match m path 0 handlers.

(** The request as the handler that answers it receives it. Every
    request is answered by the handler written for it, except the
    reorder request: [PATCH /api/jobs/reorder] matches the earlier
    pattern [/api/jobs/:id], so the job update handler answers it, with
    the id [reorder] and the body [{ fromOrder, toOrder }]. (Ids are
    taken to fill one path segment.) *)
Definition answered_by (r : Request) : Request :=
  match r with
  | JobsReorder fromOrder toOrder =>
      JobsUpdate "reorder" (<["fromOrder" := VNum fromOrder]> {[ "toOrder" := VNum toOrder ]})
  | _ => r
  end.

(** ** The client: query cache, toasts and mutations

    The cache is the data side of the TanStack query cache: a finite map
    from a query key to the last JSON body stored under it (every body the
    handlers send, and every value the pages store, is an object). The
    freshness flags and timestamps the library keeps next to the data are
    not part of the model; [cancelQueries] and [invalidateQueries] leave
    the data as it is, and the invalidations are logged. *)

Abbreviation QueryKey := (list string).

Record Toast := mkToast { title : string; description : string; destructive : bool }.

Record Client := mkClient {
  cache : gmap QueryKey Obj;
  toasts : list Toast;
  invalidations : list QueryKey;
  backend : World;          (* the service worker and its store *)
  fetches : nat;            (* transport calls issued by mutations *)
}.

Definition with_cache (c : gmap QueryKey Obj) (s : Client) : Client :=
  mkClient c (toasts s) (invalidations s) (backend s) (fetches s).

(** [queryClient.getQueryData(key)]. *)
Definition getQueryData (key : QueryKey) (s : Client) : option Obj := cache s !! key.

(** [queryClient.setQueryData(key, updater)]: the updater sees the current
    data (or [undefined]); when it returns [undefined] nothing is stored;
    when it throws, the exception leaves the cache as it was. *)
Definition setQueryData (key : QueryKey) (updater : option Obj → Outcome (option Obj))
    (s : Client) : Outcome unit * Client :=
  match updater (cache s !! key) with
  | Thrown e => (Thrown e, s)
  | Done None => (Done tt, s)
  | Done (Some data) => (Done tt, with_cache (<[key := data]> (cache s)) s)
  end.

(** [queryClient.setQueryData(key, value)]. *)
Definition setQueryData_value (key : QueryKey) (value : option Obj) (s : Client) : Client :=
  (setQueryData key (fun _ => Done value) s).2.

(** [queryClient.cancelQueries(filters)]: in-flight fetches are dropped,
    cached data stays. *)
Definition cancelQueries (key : QueryKey) (s : Client) : Client := s.

(** [queryClient.invalidateQueries({ queryKey })]. *)
Definition invalidateQueries (key : QueryKey) (s : Client) : Client :=
  mkClient (cache s) (toasts s) (invalidations s ++ [key]) (backend s) (fetches s).

Definition toast (t : Toast) (s : Client) : Client :=
  mkClient (cache s) (toasts s ++ [t]) (invalidations s) (backend s) (fetches s).

(** [fetchApi]: one request through the service worker, answered by the
    first handler that matches it ([answered_by]). A response that
    is not [ok] makes [fetchApi] throw [Error("HTTP <status>")] (the error
    bodies of the handlers carry [error], not [message]); so does a handler
    that threw. *)
Definition fetchApi (req : Request) (s : Client) : Outcome Value * Client :=
  let '(r, w') := handle (answered_by req) (backend s) in
  let s' := mkClient (cache s) (toasts s) (invalidations s) w' (S (fetches s)) in
  match r with
  | Done resp =>
      if (200 <=? status resp) && (status resp <? 300)
      then (Done (payload resp), s')
      else (Thrown ("HTTP " ++ pretty (status resp)), s')
  | Thrown e => (Thrown e, s')
  end.

(** The options given to [useMutation]. The context is what [onMutate]
    returns: the snapshot ([{ previousJobs }], [{ previousData }], ...),
    or [undefined] for a mutation without [onMutate]. *)
Record Mutation (V : Type) := mkMutation {
  mutationFn : V → Request;
  onMutate : V → Client → Outcome (option Obj) * Client;
  onError : V → option Obj → Client → Client;
  onSuccess : V → Client → Client;
  retry : nat;              (* absent in every useMutation call: the default, 0 *)
}.
Arguments mutationFn {V} m.
Arguments onMutate {V} m.
Arguments onError {V} m.
Arguments onSuccess {V} m.
Arguments retry {V} m.

(** The transport call with the library's retries: [retry] more attempts
    after a failure. *)
Fixpoint attempt (retries : nat) (req : Request) (s : Client) : Outcome Value * Client :=
  match fetchApi req s with
  | (Done v, s') => (Done v, s')
  | (Thrown e, s') =>
      match retries with
      | O => (Thrown e, s')
      | S n => attempt n req s'
      end
  end.

Inductive Settled := Succeeded (data : Value) | Failed (error : string).

(** [mutation.mutate(variables)] run to completion with nothing else
    interleaved: [onMutate], the transport call, then [onSuccess] or
    [onError]. An exception in [onMutate] goes to [onError] with no
    context. *)
Definition mutate {V} (m : Mutation V) (variables : V) (s : Client) : Settled * Client :=
  match onMutate m variables s with
  | (Thrown e, s1) => (Failed e, onError m variables None s1)
  | (Done context, s1) =>
      match attempt (retry m) (mutationFn m variables) s1 with
      | (Done data, s2) => (Succeeded data, onSuccess m variables s2)
      | (Thrown e, s2) => (Failed e, onError m variables context s2)
      end
  end.

Definition no_onMutate {V} (_ : V) (s : Client) : Outcome (option Obj) * Client := (Done None, s).

Definition error_toast (msg : string) : Toast := mkToast "Error" msg true.
Definition success_toast (msg : string) : Toast := mkToast "Success" msg false.

(** [{ ...v }] for a cached value: the properties of an object, nothing
    for [undefined], [null], numbers and booleans (the cached values are
    objects; spreading a string or an array is not needed). *)
Definition spread (v : option Value) : Obj :=
  match v with
  | Some (VObj m) => m
  | _ => ∅
  end.

(** [v.k] on a value that is not [undefined] or [null]. *)
Definition prop (v : Value) (k : string) : option Value :=
  match v with
  | VObj m => m !! k
  | _ => None
  end.

(** *** [src/pages/JobsPage.tsx] *)

Section JobsPage.
Variable activeTab : string.

Definition createJobMutation : Mutation Obj := {|
  mutationFn := fun data => JobsCreate data;
  onMutate := no_onMutate;
  onSuccess := fun _ s =>
    toast (success_toast "Job created successfully") (invalidateQueries ["jobs"] s);
  onError := fun _ _ s => toast (error_toast "Failed to create job. Please try again.") s;
  retry := 0;
|}.

Definition updateJobMutation : Mutation (string * Obj) := {|
  mutationFn := fun v => JobsUpdate v.1 v.2;
  onMutate := no_onMutate;
  onSuccess := fun _ s =>
    toast (success_toast "Job updated successfully") (invalidateQueries ["jobs"] s);
  onError := fun _ _ s => toast (error_toast "Failed to update job. Please try again.") s;
  retry := 0;
|}.

(** [old?.data?.filter((job) => job.id !== id) || []] *)
Definition without_job (id : string) (old : option Obj) : Outcome Value :=
  match old ≫= (.!! "data") with
  | None | Some VNull => Done (VArr [])
  | Some (VArr js) =>
      match filter_throwing
              (fun job => match job with
                          | VNull => Thrown "TypeError"
                          | _ => Done (negb (strict_eq (prop job "id") (Some (VStr id))))
                          end) js with
      | Done js' => Done (VArr js')
      | Thrown e => Thrown e
      end
  | Some _ => Thrown "TypeError"
  end.

Definition archiveMutation : Mutation (string * string) := {|
  mutationFn := fun v => JobsUpdate v.1 {[ "status" := VStr v.2 ]};
  onMutate := fun v s =>
    let s1 := cancelQueries ["jobs"] s in
    let previousJobs := getQueryData ["jobs"; activeTab] s1 in
    match setQueryData ["jobs"; activeTab]
            (fun old => match without_job v.1 old with
                        | Done d => Done (Some (<["data" := d]> (default ∅ old)))
                        | Thrown e => Thrown e
                        end) s1 with
    | (Done _, s2) => (Done previousJobs, s2)
    | (Thrown e, s2) => (Thrown e, s2)
    end;
  onError := fun _ context s =>
    toast (error_toast "Failed to update job status. Please try again.")
          (setQueryData_value ["jobs"; activeTab] context s);
  onSuccess := fun _ s =>
    toast (success_toast (if String.eqb activeTab "active"
                          then "Job archived successfully"
                          else "Job restored successfully"))
          (invalidateQueries ["jobs"] s);
  retry := 0;
|}.

Definition reorderMutation : Mutation (Z * Z) := {|
  mutationFn := fun v => JobsReorder v.1 v.2;
  onMutate := no_onMutate;
  onError := fun _ _ s =>
    toast (error_toast "Failed to reorder jobs. Please try again.")
          (invalidateQueries ["jobs"] s);
  onSuccess := fun _ s => invalidateQueries ["jobs"] s;
  retry := 0;
|}.

(** [arrayMove] of @dnd-kit/sortable, for two positions of the list. *)
Definition arrayMove {A} (xs : list A) (from to : nat) : list A :=
  match xs !! from with
  | Some x => let rest := take from xs ++ drop (S from) xs in
              take to rest ++ x :: drop to rest
  | None => xs
  end.

Fixpoint findIndex {A} (p : A → bool) (xs : list A) : option nat :=
  match xs with
  | [] => None
  | x :: rest => if p x then Some O else S <$> findIndex p rest
  end.

(** [handleDragEnd]: [filteredJobs] is the list of cards on display,
    [active] the card dragged and [over] the card it was dropped on, if
    any. Both are cards of this list and a [Job] carries a number in
    [order]; the result is [None] for anything else. Inside, [None]
    says that the gesture started no mutation. *)
Definition handleDragEnd (filteredJobs : list Obj) (active : string) (over : option string)
    (s : Client) : option (option Settled * Client) :=
  match over with
  | Some over_id =>
      if negb (String.eqb active over_id) then
        oldIndex ← findIndex (fun j => strict_eq (j !! "id") (Some (VStr active))) filteredJobs;
        newIndex ← findIndex (fun j => strict_eq (j !! "id") (Some (VStr over_id))) filteredJobs;
        let reordered := arrayMove filteredJobs oldIndex newIndex in
        let s1 := (setQueryData ["jobs"; activeTab]
                     (fun old => Done (Some (<["data" := rows_json reordered]> (default ∅ old)))) s).2 in
        fromOrder ← filteredJobs !! oldIndex ≫= order_of;
        toOrder ← filteredJobs !! newIndex ≫= order_of;
        let '(settled, s2) := mutate reorderMutation (fromOrder, toOrder) s1 in
        Some (Some settled, s2)
      else Some (None, s)
  | None => Some (None, s)
  end.
End JobsPage.

(** *** [src/pages/CandidateDetailPage.tsx] *)

Section CandidateDetailPage.
Variable id : string.

Definition stageMutation : Mutation string := {|
  mutationFn := fun stage => CandidatesUpdate id {[ "stage" := VStr stage ]};
  onMutate := fun newStage s =>
    let s1 := cancelQueries ["candidate"; id] s in
    let previousData := getQueryData ["candidate"; id] s1 in
    match setQueryData ["candidate"; id]
            (fun old => Done (Some (<["data" := VObj (<["stage" := VStr newStage]>
                                                        (spread (old ≫= (.!! "data"))))]>
                                      (default ∅ old)))) s1 with
    | (Done _, s2) => (Done previousData, s2)
    | (Thrown e, s2) => (Thrown e, s2)
    end;
  onError := fun _ context s =>
    toast (error_toast "Failed to update candidate stage. Please try again.")
          (setQueryData_value ["candidate"; id] context s);
  onSuccess := fun _ s =>
    toast (success_toast "Candidate stage updated successfully")
      (invalidateQueries ["candidates"]
        (invalidateQueries ["candidate-timeline"; id]
          (invalidateQueries ["candidate"; id] s)));
  retry := 0;
|}.
End CandidateDetailPage.

(** *** [src/components/candidates/CandidateKanbanBoard.tsx] *)

(** [old?.data?.map((c) => c.id === id ? { ...c, stage, updatedAt } : c) || []] *)
Definition with_stage (id stage : string) (updatedAt : Value) (old : option Obj) : Outcome Value :=
  match old ≫= (.!! "data") with
  | None | Some VNull => Done (VArr [])
  | Some (VArr cs) =>
      if existsb (fun c => match c with VNull => true | _ => false end) cs
      then Thrown "TypeError"
      else Done (VArr ((fun c =>
                          if strict_eq (prop c "id") (Some (VStr id))
                          then VObj (<["updatedAt" := updatedAt]>
                                     (<["stage" := VStr stage]> (spread (Some c))))
                          else c) <$> cs))
  | Some _ => Thrown "TypeError"
  end.

Definition updateStageMutation : Mutation (string * string) := {|
  mutationFn := fun v => CandidatesUpdate v.1 {[ "stage" := VStr v.2 ]};
  onMutate := fun v s =>
    let s1 := cancelQueries ["candidates"] s in
    let previousCandidates := getQueryData ["candidates"; "all"] s1 in
    match setQueryData ["candidates"; "all"]
            (fun old => match with_stage v.1 v.2 (VTime (clock (backend s1))) old with
                        | Done d => Done (Some (<["data" := d]> (default ∅ old)))
                        | Thrown e => Thrown e
                        end) s1 with
    | (Done _, s2) => (Done previousCandidates, s2)
    | (Thrown e, s2) => (Thrown e, s2)
    end;
  onError := fun _ context s =>
    toast (error_toast "Failed to update candidate stage. Please try again.")
          (setQueryData_value ["candidates"; "all"] context s);
  onSuccess := fun _ s => invalidateQueries ["candidates"] s;
  retry := 0;
|}.

(** ** More of the client *)

(** *** [src/components/jobs/JobFormDialog.tsx] *)

(** [A-Z] *)
Definition is_upper (c : ascii) : bool :=
  let n := nat_of_ascii c in ((65 <=? n) && (n <=? 90))%nat.

(** [\w] *)
Definition is_word (c : ascii) : bool :=
  let n := nat_of_ascii c in
  (((48 <=? n) && (n <=? 57)) || ((65 <=? n) && (n <=? 90))
   || ((97 <=? n) && (n <=? 122)) || (n =? 95))%nat.

(** [s.replace(/[...]/g, '')] for the character class [p]. *)
Fixpoint remove_matching (p : ascii → bool) (s : string) : string :=
  match s with
  | EmptyString => EmptyString
  | String c r => if p c then remove_matching p r else String c (remove_matching p r)
  end.

(** [s.replace(/[...]+/g, '-')] for the character class [p]: every maximal
    run becomes one hyphen. [in_run] says that the character before was
    part of a run. *)
Fixpoint collapse_runs (p : ascii → bool) (in_run : bool) (s : string) : string :=
  match s with
  | EmptyString => EmptyString
  | String c r =>
      if p c then (if in_run then collapse_runs p true r
                   else String "-" (collapse_runs p true r))
      else String c (collapse_runs p false r)
  end.

Fixpoint strip_leading_hyphens (s : string) : string :=
  match s with
  | String "-" r => strip_leading_hyphens r
  | _ => s
  end.

Fixpoint strip_trailing_hyphens (s : string) : string :=
  match s with
  | EmptyString => EmptyString
  | String c r =>
      match strip_trailing_hyphens r with
      | EmptyString => if Ascii.eqb c "-" then EmptyString else String c EmptyString
      | r' => String c r'
      end
  end.

(** [/[^\w\s-]/] and [/[\s_-]/] *)
Definition not_slug_input (c : ascii) : bool :=
  negb (is_word c || is_space c || Ascii.eqb c "-").
Definition is_separator (c : ascii) : bool :=
  is_space c || Ascii.eqb c "_" || Ascii.eqb c "-".

(** [generateSlug], on titles written in ASCII. *)
Definition generateSlug (title : string) : string :=
  strip_trailing_hyphens (strip_leading_hyphens
    (collapse_runs is_separator false
      (remove_matching not_slug_input (trim (toLowerCase title))))).

(** The values of the form. *)
Record JobFormValues := mkJobFormValues {
  form_title : string;
  form_description : option string;
  form_tags : list string;
}.

Definition form_obj (data : JobFormValues) : Obj :=
  <["title" := VStr (form_title data)]>
  (set_opt "description" (VStr <$> form_description data)
  (<["tags" := VArr (VStr <$> form_tags data)]> ∅)).

(** [job?.order ?? maxOrder + 1], sent as JSON ([NaN] goes out as [null]). *)
Definition submitted_order (job : option Obj) (maxOrder : option Z) : Value :=
  match job ≫= (.!! "order") with
  | None | Some VNull => num_json (opt_add maxOrder (Some 1))
  | Some v => v
  end.

(** [handleSubmit]: what the dialog hands to [onSubmit]. *)
Definition JobFormDialog_handleSubmit (job : option Obj) (maxOrder : option Z)
    (data : JobFormValues) : Obj :=
  <["order" := submitted_order job maxOrder]>
  (<["status" := VStr "active"]>
  (<["slug" := VStr (generateSlug (form_title data))]> (form_obj data))).

(** [addTag] and [removeTag], on the tags of the form. *)
Definition addTag (tagInput : string) (tags : list string) : list string :=
  let tag := trim tagInput in
  if negb (String.eqb tag "") && negb (existsb (String.eqb tag) tags)
  then tags ++ [tag] else tags.

Definition removeTag (tagToRemove : string) (tags : list string) : list string :=
  filter (fun tag => tag ≠ tagToRemove) tags.

(** *** [src/pages/JobsPage.tsx]: creating and editing *)

(** [Math.max(...jobs.map(j => j.order), 0)], [None] being [NaN]. *)
Definition maxOrder (jobs : list Obj) : option Z :=
  foldr (fun j acc =>
           match to_number (j !! "order"), acc with
           | Some x, Some m => Some (Z.max x m)
           | _, _ => None
           end) (Some 0) jobs.

(** [handleCreateOrUpdate]; [None] when the job being edited has no string
    id (every job read from the store has one). *)
Definition handleCreateOrUpdate (editingJob : option Obj) (data : Obj) (s : Client)
    : option (Settled * Client) :=
  match editingJob with
  | Some job =>
      match job !! "id" with
      | Some (VStr id) => Some (mutate updateJobMutation (id, data) s)
      | _ => None
      end
  | None => Some (mutate createJobMutation data s)
  end.

(** *** [src/components/candidates/CandidateKanbanBoard.tsx]: the drop *)

Module CandidateKanbanBoard.
(** [handleDragEnd]: [candidates] are the cards of the board, [active] the
    id of the card dragged, [over] the id of what it was dropped on. *)
Definition handleDragEnd (candidates : list Obj) (active : string) (over : option string)
    (s : Client) : option Settled * Client :=
  match over with
  | None => (None, s)
  | Some over_id =>
      if String.eqb active over_id then (None, s)
      else
        let candidateId := active in
        let newStage := over_id in
        match List.find (fun c => strict_eq (c !! "id") (Some (VStr candidateId))) candidates with
        | Some candidate =>
            if negb (strict_eq (candidate !! "stage") (Some (VStr newStage)))
            then let '(settled, s') := mutate updateStageMutation (candidateId, newStage) s in
                 (Some settled, s')
            else (None, s)
        | None => (None, s)
        end
  end.
End CandidateKanbanBoard.

(** *** [src/components/candidates/NotesSection.tsx] *)

(** [/@(\w+)/g] applied with [exec] until it fails: the maximal runs of
    word characters that directly follow an [@]. [cur] is the run being
    read, when the scan is past an [@]. *)
Fixpoint scan_mentions (cur : option string) (text : string) : list string :=
  match text with
  | EmptyString =>
      match cur with
      | Some (String c m) => [String c m]
      | _ => []
      end
  | String c rest =>
      let next := if Ascii.eqb c "@" then Some EmptyString else None in
      match cur with
      | Some m =>
          if is_word c then scan_mentions (Some (m +:+ String c EmptyString)) rest
          else match m with
               | EmptyString => scan_mentions next rest
               | _ => m :: scan_mentions next rest
               end
      | None => scan_mentions next rest
      end
  end.

Definition extractMentions (text : string) : list string := scan_mentions None text.

(** [fetch(url, init).then(response => response.json())]: the body of the
    answer, whatever its status. When the handler threw, the service
    worker answers with a 500 whose body describes the exception (its
    message and stack are left out here). *)
Definition fetch_json (req : Request) (s : Client) : Outcome Value * Client :=
  let '(r, w') := handle (answered_by req) (backend s) in
  let s' := mkClient (cache s) (toasts s) (invalidations s) w' (S (fetches s)) in
  match r with
  | Done resp => (Done (payload resp), s')
  | Thrown e => (Done (VObj {[ "name" := VStr e ]}), s')
  end.

(** [mutation.mutate(variables)] for a mutation function that goes
    through [transport] instead of [fetchApi]. *)
Definition mutate_via {V} (transport : Request → Client → Outcome Value * Client)
    (m : Mutation V) (variables : V) (s : Client) : Settled * Client :=
  match onMutate m variables s with
  | (Thrown e, s1) => (Failed e, onError m variables None s1)
  | (Done context, s1) =>
      match transport (mutationFn m variables) s1 with
      | (Done data, s2) => (Succeeded data, onSuccess m variables s2)
      | (Thrown e, s2) => (Failed e, onError m variables context s2)
      end
  end.

Module NotesSection.
Section NotesSection.
Variable candidateId : string.

Definition addNoteMutation : Mutation string := {|
  mutationFn := fun content =>
    NotesCreate (<["candidateId" := VStr candidateId]>
                (<["content" := VStr content]>
                (<["mentions" := VArr (VStr <$> extractMentions content)]> ∅)));
  onMutate := no_onMutate;
  onSuccess := fun _ s =>
    toast (mkToast "Note added" "Your note has been saved successfully" false)
      (invalidateQueries ["timeline"; candidateId]
        (invalidateQueries ["notes"; candidateId] s));
  onError := fun _ _ s => toast (error_toast "Failed to add note. Please try again.") s;
  retry := 0;
|}.

(** [handleSubmit]: [None] when nothing is sent. *)
Definition handleSubmit (noteContent : string) (s : Client) : option (Settled * Client) :=
  if negb (String.eqb (trim noteContent) "")
  then Some (mutate_via fetch_json addNoteMutation noteContent s)
  else None.
End NotesSection.
End NotesSection.

(** *** [src/pages/AssessmentBuilderPage.tsx]: the sections *)

(** [addSection], with the id that [crypto.randomUUID()] returns. *)
Definition addSection (uid : string) (sections : list Obj) : list Obj :=
  sections ++
  [ <["id" := VStr uid]>
    (<["title" := VStr ("Section " ++ pretty (Z.of_nat (length sections) + 1))]>
    (<["description" := VStr ""]>
    (<["questions" := VArr []]>
    (<["order" := VNum (Z.of_nat (length sections))]> ∅)))) ].

Definition deleteSection (sectionId : string) (sections : list Obj) : list Obj :=
  filter (fun s => Is_true (negb (strict_eq (s !! "id") (Some (VStr sectionId))))) sections.

(** [handleSectionDragEnd]: the new value of [sections]; [None] when
    [active] or [over] is not the id of a section. *)
Definition handleSectionDragEnd (active : string) (over : option string) (items : list Obj)
    : option (list Obj) :=
  match over with
  | Some over_id =>
      if negb (String.eqb active over_id) then
        oldIndex ← findIndex (fun i => strict_eq (i !! "id") (Some (VStr active))) items;
        newIndex ← findIndex (fun i => strict_eq (i !! "id") (Some (VStr over_id))) items;
        Some (imap (fun index item => <["order" := VNum (Z.of_nat index)]> item)
                   (arrayMove items oldIndex newIndex))
      else Some items
  | None => Some items
  end.

(** ** Seeding the store ([src/lib/seed-data.ts], [src/lib/db.ts]) *)

Definition JOB_TITLES : list string :=
  [ "Senior Frontend Engineer"; "Backend Developer"; "Full Stack Developer";
    "DevOps Engineer"; "Product Designer"; "UX Researcher"; "Data Scientist";
    "Machine Learning Engineer"; "Product Manager"; "Engineering Manager";
    "QA Engineer"; "Security Engineer"; "Mobile Developer"; "Technical Writer";
    "Solutions Architect"; "Cloud Architect"; "Data Engineer";
    "Site Reliability Engineer"; "Platform Engineer"; "Engineering Director";
    "Principal Engineer"; "Staff Engineer"; "Tech Lead"; "Growth Engineer";
    "Infrastructure Engineer" ].

Definition STAGES : list string := ["applied"; "screen"; "tech"; "offer"; "hired"; "rejected"].

(** What faker returns during one run of [seedDatabase], named by the call
    and the iteration it is made in. A pick is the position that
    [faker.helpers.arrayElement] takes in the array it is given; dates
    are in milliseconds since the epoch. *)
Record Faker := mkFaker {
  job_title_fallback : nat → string;        (* faker.person.jobTitle() *)
  job_alphanumeric : nat → string;          (* faker.string.alphanumeric(6) *)
  job_past : nat → Z;                       (* faker.date.past({ years: 1 }) *)
  job_uuid : nat → string;                  (* faker.string.uuid() *)
  job_tags : nat → list string;             (* faker.helpers.arrayElements(TAGS, ...) *)
  job_paragraphs : nat → string;            (* faker.lorem.paragraphs(2) *)
  candidate_job_pick : nat → nat;           (* in activeJobs *)
  candidate_stage_pick : nat → nat;         (* in STAGES *)
  candidate_past : nat → Z;                 (* faker.date.past({ years: 0.5 }) *)
  candidate_uuid : nat → string;
  candidate_fullName : nat → string;
  candidate_email : nat → string;
  candidate_avatar : nat → string;
  applied_event_uuid : nat → string;        (* the initial event of candidate i *)
  stage_event_uuid : nat → nat → string;    (* the stage change j of candidate i *)
  assessment_job_pick : nat → nat;          (* in jobs *)
  assessment_sections : nat → nat;          (* faker.number.int({ min: 2, max: 3 }) *)
  section_questions : nat → nat → nat;      (* faker.number.int({ min: 4, max: 6 }) *)
  question_type_pick : nat → nat → nat → nat;
  question_uuid : nat → nat → nat → string;
  question_sentence : nat → nat → nat → string;
  option_words : nat → nat → nat → nat → string;
  section_uuid : nat → nat → string;
  section_words : nat → nat → string;
  section_sentence : nat → nat → string;
  assessment_uuid : nat → string;
  assessment_paragraph : nat → string;
  assessment_past : nat → Z;
}.

(** [faker.helpers.arrayElement(array)]: a member of the array; it throws
    on an empty array. *)
Definition arrayElement {A} (array : list A) (pick : nat) : Outcome A :=
  match array !! (pick mod length array)%nat with
  | Some x => Done x
  | None => Thrown "FakerError"
  end.

(** [Math.random() > 0.3] on a sample [u * 2^-53]: the double written
    [0.3] is exactly [5404319552844595 / 2^54]. *)
Definition above_03 (u : N) : bool := 5404319552844595 <? Z.of_N u * 2.

(** [xs.indexOf(x)] on strings, [-1] when [x] is not there. *)
Fixpoint indexOf (xs : list string) (x : string) : Z :=
  match xs with
  | [] => -1
  | y :: rest => if String.eqb y x then 0
                 else let k := indexOf rest x in if k <? 0 then -1 else k + 1
  end.

(** A loop that builds an array, one element per iteration. *)
Fixpoint for_list {A B} (xs : list A) (body : A → Handler B) : Handler (list B) :=
  match xs with
  | [] => ret []
  | x :: rest => y <- body x ;; ys <- for_list rest body ;; ret (y :: ys)
  end.

Fixpoint for_outcomes {A B} (xs : list A) (body : A → Outcome B) : Outcome (list B) :=
  match xs with
  | [] => Done []
  | x :: rest =>
      match body x with
      | Thrown e => Thrown e
      | Done y => match for_outcomes rest body with
                  | Thrown e => Thrown e
                  | Done ys => Done (y :: ys)
                  end
      end
  end.

(** [table.bulkAdd(objs)] outside a transaction: every object is tried;
    those whose key is free are stored, and the call fails with a
    [BulkError] when some were not. *)
Definition bulkAdd_step (st : Table * bool) (o : Obj) : Table * bool :=
  match tbl_add st.1 o with
  | Some t' => (t', st.2)
  | None => (st.1, true)
  end.

Definition tbl_bulkAdd (t : Table) (objs : list Obj) : Table * bool :=
  foldl bulkAdd_step (t, false) objs.

Definition db_bulkAdd (n : TableName) (objs : list Obj) : Handler unit :=
  t <- read_table n ;;
  write_table n (tbl_bulkAdd t objs).1 ;;;
  if (tbl_bulkAdd t objs).2 then throw "BulkError" else ret tt.

Section seedDatabase.
Variable f : Faker.

(** The body of the first loop: job [i]. *)
Definition seed_job (i : nat) : Handler Obj :=
  let title :=
    match JOB_TITLES !! i with
    | Some t => if String.eqb t "" then job_title_fallback f i else t
    | None => job_title_fallback f i
    end in
  let slug := (collapse_runs is_space false (toLowerCase title) ++ "-" ++ job_alphanumeric f i)%string in
  u <- Math_random ;;
  let status := if above_03 u then "active" else "archived" in
  let createdAt := job_past f i in
  ret (<["id" := VStr (job_uuid f i)]>
      (<["title" := VStr title]>
      (<["slug" := VStr slug]>
      (<["status" := VStr status]>
      (<["tags" := VArr (VStr <$> job_tags f i)]>
      (<["description" := VStr (job_paragraphs f i)]>
      (<["order" := VNum (Z.of_nat i)]>
      (<["createdAt" := VTime createdAt]>
      (<["updatedAt" := VTime createdAt]> ∅))))))))).

(** The stage changes of candidate [i], for the stage at [currentIndex]. *)
Definition seed_stage_change (i : nat) (candidateId : string) (appliedAt : Z) (j : nat) : Obj :=
  let stageDate := appliedAt + Z.of_nat j * 3 * 24 * 60 * 60 * 1000 in
  <["id" := VStr (stage_event_uuid f i j)]>
  (<["candidateId" := VStr candidateId]>
  (<["type" := VStr "stage_change"]>
  (<["content" := VStr ("Moved to " ++ template_str (VStr <$> STAGES !! j))]>
  (set_opt "fromStage" (VStr <$> STAGES !! (j - 1)%nat)
  (set_opt "toStage" (VStr <$> STAGES !! j)
  (<["createdAt" := VTime stageDate]> ∅)))))).

(** The body of the second loop: candidate [i] and the timeline events
    pushed for it. *)
Definition seed_candidate (activeJobs : list Obj) (i : nat) : Outcome (Obj * list Obj) :=
  match arrayElement activeJobs (candidate_job_pick f i) with
  | Thrown e => Thrown e
  | Done job =>
      match arrayElement STAGES (candidate_stage_pick f i) with
      | Thrown e => Thrown e
      | Done stage =>
          let appliedAt := candidate_past f i in
          let candidateId := candidate_uuid f i in
          let candidate :=
            <["id" := VStr candidateId]>
            (<["name" := VStr (candidate_fullName f i)]>
            (<["email" := VStr (candidate_email f i)]>
            (<["stage" := VStr stage]>
            (set_opt "jobId" (job !! "id")
            (<["appliedAt" := VTime appliedAt]>
            (<["updatedAt" := VTime appliedAt]>
            (<["avatar" := VStr (candidate_avatar f i)]> ∅))))))) in
          let applied :=
            <["id" := VStr (applied_event_uuid f i)]>
            (<["candidateId" := VStr candidateId]>
            (<["type" := VStr "stage_change"]>
            (<["content" := VStr ("Application submitted for " ++ template_str (job !! "title"))]>
            (<["toStage" := VStr "applied"]>
            (<["createdAt" := VTime appliedAt]> ∅))))) in
          let changes :=
            if negb (String.eqb stage "applied") then
              let currentIndex := indexOf STAGES stage in
              seed_stage_change i candidateId appliedAt <$> seq 1 (Z.to_nat currentIndex)
            else [] in
          Done (candidate, applied :: changes)
      end
  end.

Definition questionTypes : list string :=
  ["single-choice"; "multi-choice"; "short-text"; "long-text"; "numeric"].

(** Question [k] of section [j] of assessment [i]. *)
Definition seed_question (i j k : nat) : Handler Obj :=
  type <- lift (arrayElement questionTypes (question_type_pick f i j k)) ;;
  u <- Math_random ;;
  let question : Obj :=
    <["id" := VStr (question_uuid f i j k)]>
    (<["type" := VStr type]>
    (<["text" := VStr (question_sentence f i j k ++ "?")]>
    (<["required" := VBool (above_03 u)]> ∅))) in
  let question1 : Obj :=
    if String.eqb type "single-choice" || String.eqb type "multi-choice"
    then <["options" := VArr ((fun l => VStr (option_words f i j k l)) <$> seq 0 4)]> question
    else question in
  let question2 : Obj :=
    if String.eqb type "numeric"
    then <["validation" := VObj (<["min" := VNum 0]> {[ "max" := VNum 100 ]})]> question1
    else question1 in
  let question3 : Obj :=
    if String.eqb type "short-text"
    then <["validation" := VObj {[ "maxLength" := VNum 200 ]}]> question2
    else question2 in
  ret question3.

Definition seed_section (i j : nat) : Handler Obj :=
  questions <- for_list (seq 0 (section_questions f i j)) (seed_question i j) ;;
  ret (<["id" := VStr (section_uuid f i j)]>
      (<["title" := VStr ("Section " ++ pretty (Z.of_nat j + 1) ++ ": " ++ section_words f i j)]>
      (<["description" := VStr (section_sentence f i j)]>
      (<["questions" := VArr (VObj <$> questions)]>
      (<["order" := VNum (Z.of_nat j)]> ∅))))).

Definition seed_assessment (jobs : list Obj) (i : nat) : Handler Obj :=
  job <- lift (arrayElement jobs (assessment_job_pick f i)) ;;
  sections <- for_list (seq 0 (assessment_sections f i)) (seed_section i) ;;
  updatedAt <- now ;;
  ret (<["id" := VStr (assessment_uuid f i)]>
      (set_opt "jobId" (job !! "id")
      (<["title" := VStr (template_str (job !! "title") ++ " Assessment")]>
      (<["description" := VStr (assessment_paragraph f i)]>
      (<["sections" := VArr (VObj <$> sections)]>
      (<["createdAt" := VTime (assessment_past f i)]>
      (<["updatedAt" := updatedAt]> ∅))))))).

Definition seedDatabase : Handler unit :=
  (* 25 jobs *)
  jobs <- for_list (seq 0 25) seed_job ;;
  db_bulkAdd Jobs jobs ;;;
  (* 1000 candidates *)
  let activeJobs :=
    filter (fun j => Is_true (strict_eq (j !! "status") (Some (VStr "active")))) jobs in
  seeded <- lift (for_outcomes (seq 0 1000) (seed_candidate activeJobs)) ;;
  let candidates := fst <$> seeded in
  let timelineEvents := concat (snd <$> seeded) in
  db_bulkAdd Candidates candidates ;;;
  db_bulkAdd Timeline timelineEvents ;;;
  (* 3 assessments *)
  assessments <- for_list (seq 0 3) (seed_assessment jobs) ;;
  db_bulkAdd Assessments assessments.

(** [initializeDatabase] *)
Definition initializeDatabase : Handler unit :=
  t <- read_table Jobs ;;
  let jobCount := size t in
  if (jobCount =? 0)%nat then seedDatabase else ret tt.
End seedDatabase.

(** ** The vocabulary of the properties *)

(** The failure injection fires on the request that enters in world [w]:
    the first sample goes to the latency, the second to the failure test. *)
Definition error_fires (w : World) : Prop :=
  below_error_rate (random w (S (drawn w))) = true.

(** The order values of the members of a collection, and the dense
    ordering: they are exactly 0, ..., N-1, each once. *)
Definition order_values (t : Table) : list (option Value) :=
  (fun p => p.2 !! "order") <$> map_to_list t.

Definition dense (t : Table) (N : nat) : Prop :=
  order_values t ≡ₚ (fun i => Some (VNum i)) <$> seqZ 0 (Z.of_nat N).

(** The answer of a reorder that went through. *)
Definition reorder_committed : Response := json {[ "success" := VBool true ]}.

(** The reindexing rule in the words of the specification: members in
    [(fromOrder, toOrder]] move down by one when [fromOrder < toOrder],
    members in [[toOrder, fromOrder)] move up by one when
    [fromOrder > toOrder], the moved member takes [toOrder], the others
    keep their order. *)
Definition spec_new_order (fromOrder toOrder n : Z) : Z :=
  if n =? fromOrder then toOrder
  else if (fromOrder <? toOrder) && (fromOrder <? n) && (n <=? toOrder) then n - 1
  else if (toOrder <? fromOrder) && (toOrder <=? n) && (n <? fromOrder) then n + 1
  else n.

(** One committed reorder with both positions inside [[0, N-1]]. *)
Definition reorder_step (N : nat) (w w' : World) : Prop :=
  ∃ fromOrder toOrder : Z,
    0 ≤ fromOrder < Z.of_nat N ∧ 0 ≤ toOrder < Z.of_nat N ∧
    handle (JobsReorder fromOrder toOrder) w = (Done reorder_committed, w').

(** Any sequence of committed reorders. *)
Inductive reorders (N : nat) : World → World → Prop :=
  | reorders_nil w : reorders N w w
  | reorders_cons w1 w2 w3 : reorder_step N w1 w2 → reorders N w2 w3 → reorders N w1 w3.

(** ** Auxiliary definitions for the proofs *)

(** World updates. *)
Definition put_jobs (t : Table) (w : World) : World := with_db (set_table Jobs t (db w)) w.

Definition log_writes (xs : list StoreWrite) (w : World) : World :=
  mkWorld (db w) (clock w) (random w) (drawn w) (uuid w) (issued w) (writes w ++ xs).

(** The world after the latency, and after the latency and a failure test
    that did not fire. *)
Definition after_latency (w : World) : World :=
  mkWorld (db w) (clock w + (Z.of_N (random w (drawn w)) * (1200 - 200) / 2 ^ 53 + 200))
          (random w) (S (drawn w)) (uuid w) (issued w) (writes w).

Definition after_prelude (w : World) : World :=
  mkWorld (db w) (clock w + (Z.of_N (random w (drawn w)) * (1200 - 200) / 2 ^ 53 + 200))
          (random w) (S (S (drawn w))) (uuid w) (issued w) (writes w).

Definition next_uuid (w : World) : World :=
  mkWorld (db w) (clock w) (random w) (drawn w) (uuid w) (S (issued w)) (writes w).

Definition added (n : TableName) (k : string) (o : Obj) (w : World) : World :=
  with_db (set_table n (<[k := o]> (table n (db w))) (db w)) (log_write (StoreAdd n o) w).

Definition updated (n : TableName) (k : string) (changes : Obj) (w : World) : World :=
  with_db (set_table n (tbl_update (table n (db w)) k changes) (db w))
          (log_write (StoreUpdate n k changes) w).

(** A loop that updates the jobs met by [cond] with [change], as the
    handler runs it, as a fold over the jobs table, and the update calls
    it issues. *)
Definition loop_body (cond : Obj → bool) (change : Obj → Obj) (j : Obj) : Handler unit :=
  if cond j then db_update Jobs (row_id j) (change j) else ret tt.

Definition loop_step (cond : Obj → bool) (change : Obj → Obj) (t : Table) (j : Obj) : Table :=
  if cond j then tbl_update t (row_id j) (change j) else t.

Definition loop_writes (cond : Obj → bool) (change : Obj → Obj) (js : list Obj)
    : list StoreWrite :=
  (fun j => StoreUpdate Jobs (row_id j) (change j)) <$> filter (fun j => Is_true (cond j)) js.

(** The pieces of the reorder handler. *)
Definition reorder_find (fromOrder : Z) (t : Table) : option Obj :=
  List.find (fun j => strict_eq (j !! "order") (Some (VNum fromOrder))) (tbl_orderBy "order" t).

Definition reorder_cond (fromOrder toOrder : Z) (j : Obj) : bool :=
  if fromOrder <? toOrder
  then js_gt (j !! "order") (Some (VNum fromOrder)) && js_le (j !! "order") (Some (VNum toOrder))
  else js_ge (j !! "order") (Some (VNum toOrder)) && js_lt (j !! "order") (Some (VNum fromOrder)).

Definition reorder_change (fromOrder toOrder : Z) (j : Obj) : Obj :=
  set_opt "order" (js_add (j !! "order") (if fromOrder <? toOrder then -1 else 1)) ∅.

(** The jobs table a committed reorder leaves, and the updates it issues. *)
Definition reorder_table (fromOrder toOrder : Z) (t : Table) (job : Obj) : Table :=
  tbl_update
    (foldl (loop_step (reorder_cond fromOrder toOrder) (reorder_change fromOrder toOrder))
           t (tbl_orderBy "order" t))
    (row_id job) {[ "order" := VNum toOrder ]}.

Definition reorder_writes (fromOrder toOrder : Z) (t : Table) (job : Obj) : list StoreWrite :=
  loop_writes (reorder_cond fromOrder toOrder) (reorder_change fromOrder toOrder)
              (tbl_orderBy "order" t)
  ++ [StoreUpdate Jobs (row_id job) {[ "order" := VNum toOrder ]}].

(** The reindexing rule applied to one stored job. *)
Definition reindex (fromOrder toOrder : Z) (o : Obj) : Obj :=
  match o !! "order" with
  | Some (VNum n) => <["order" := VNum (spec_new_order fromOrder toOrder n)]> o
  | _ => o
  end.

(** ** Sample data *)

Definition sample_job (i : Z) : string * Obj :=
  let k := ("job-" ++ pretty i)%string in
  (k, <["id" := VStr k]> (<["title" := VStr ("Engineer " ++ pretty i)]>
      (<["status" := VStr "active"]> (<["tags" := VArr [VStr "Remote"]]>
      (<["order" := VNum i]> ∅))))).

Definition sample_jobs (N : nat) : Table := list_to_map (sample_job <$> seqZ 0 (Z.of_nat N)).

(** One candidate, freshly applied, with the timeline entry of the
    application. *)
Definition sample_candidate : Obj :=
  <["id" := VStr "cand-1"]> (<["name" := VStr "Ada Byron"]>
  (<["email" := VStr "ada@example.org"]> (<["stage" := VStr "applied"]>
  (<["jobId" := VStr "job-0"]> (<["appliedAt" := VTime 1690000000000]>
  (<["updatedAt" := VTime 1690000000000]> ∅)))))).

Definition sample_event : Obj :=
  <["id" := VStr "event-1"]> (<["candidateId" := VStr "cand-1"]>
  (<["type" := VStr "stage_change"]> (<["content" := VStr "Application submitted"]>
  (<["toStage" := VStr "applied"]> (<["createdAt" := VTime 1690000000000]> ∅))))).

Definition sample_db (N : nat) : DB :=
  mkDB (sample_jobs N) {[ "cand-1" := sample_candidate ]} {[ "event-1" := sample_event ]} ∅ ∅ ∅.

(** A world in which every sample of [Math.random()] is [1/2]: no
    injected failure, 700 ms of latency. *)
Definition calm_world (N : nat) : World :=
  mkWorld (sample_db N) 1700000000000 (fun _ => (2 ^ 52)%N) 0
          (fun i => ("uuid-" ++ pretty i)%string) 0 [].

(** A world in which every sample of [Math.random()] is [0]: every write
    request is failed. *)
Definition failing_world (N : nat) : World :=
  mkWorld (sample_db N) 1700000000000 (fun _ => 0%N) 0
          (fun i => ("uuid-" ++ pretty i)%string) 0 [].

Definition after_5_2 : World := (handle (JobsReorder 5 2) (calm_world 10)).2.
Definition after_0_2 : World := (handle (JobsReorder 0 2) (calm_world 3)).2.
Definition after_0_2_then_2_1 : World := (handle (JobsReorder 2 1) after_0_2).2.

(** ** The statements that do not hold as written *)

(** "A reorder with [fromOrder = toOrder] emits no write and changes no
    order value", for the request entering in world [w]. *)
Definition same_position_is_silent (w : World) (n : Z) : Prop :=
  let w' := (handle (JobsReorder n n) w).2 in
  writes w' = writes w ∧ jobs (db w') = jobs (db w).

(** "A reorder with [fromOrder] or [toOrder] outside [[0, N-1]] is rejected
    before any write and changes no order value", for a dense collection
    of [N] members. *)
Definition out_of_range_is_rejected (N : nat) (w : World) (fromOrder toOrder : Z) : Prop :=
  dense (jobs (db w)) N →
  ¬ (0 ≤ fromOrder < Z.of_nat N) ∨ ¬ (0 ≤ toOrder < Z.of_nat N) →
  let r := handle (JobsReorder fromOrder toOrder) w in
  (∃ resp, r.1 = Done resp ∧ status resp ≠ 200)
  ∧ writes r.2 = writes w
  ∧ jobs (db r.2) = jobs (db w).

(** "Every list response carries [data], [total], [page] and [pageSize]",
    for the request [r] entering in world [w]. *)
Definition list_response_is_paginated (r : Request) (w : World) : Prop :=
  ∀ resp, (handle r w).1 = Done resp →
    ∃ body, payload resp = VObj body
            ∧ {[ "data"; "total"; "page"; "pageSize" ]} ⊆ dom body.

(** The keys of a list response. *)
Definition jobs_page_keys : gset string := {[ "data"; "total"; "page"; "pageSize" ]}.

(** The collections that have both a create and a get-by-id endpoint. *)
Inductive Collection := CJobs | CCandidates | CAssessments.

Definition create_request (c : Collection) (body : Obj) : Request :=
  match c with
  | CJobs => JobsCreate body
  | CCandidates => CandidatesCreate body
  | CAssessments => AssessmentsCreate body
  end.

Definition get_request (c : Collection) (id : string) : Request :=
  match c with
  | CJobs => JobsGetById id
  | CCandidates => CandidatesGetById id
  | CAssessments => AssessmentsGetById id
  end.

(** The generated id and the timestamp fields of a record. *)
Definition id_and_timestamps (c : Collection) : list string :=
  match c with
  | CJobs | CAssessments => ["id"; "createdAt"; "updatedAt"]
  | CCandidates => ["id"; "appliedAt"; "updatedAt"]
  end.

(** The fields the create handler sets itself. *)
Definition handler_set_fields (c : Collection) : list string :=
  match c with
  | CJobs | CAssessments => ["id"; "createdAt"; "updatedAt"]
  | CCandidates => ["id"; "stage"; "appliedAt"; "updatedAt"]
  end.

(** [response.data.id] and [response.data] of a create or get response. *)
Definition response_data (resp : Response) : option Obj :=
  match prop (payload resp) "data" with
  | Some (VObj d) => Some d
  | _ => None
  end.

Definition response_id (resp : Response) : option string :=
  match response_data resp ≫= (.!! "id") with
  | Some (VStr k) => Some k
  | _ => None
  end.

(** "[create(record)] then [get(id)] returns the fields supplied, except
    for the generated id and timestamps", for the record [body] created
    in collection [c] from world [w]. *)
Definition round_trip_keeps_fields (c : Collection) (body : Obj) (w : World) : Prop :=
  ∀ resp w1 id got,
    handle (create_request c body) w = (Done resp, w1) → status resp = 200 →
    response_id resp = Some id →
    (handle (get_request c id) w1).1 = Done got →
    ∀ k, k ∉ id_and_timestamps c → response_data got ≫= (.!! k) = body !! k.

Definition screened_applicant : Obj :=
  <["name" := VStr "Grace Hopper"]> (<["stage" := VStr "screen"]> ∅).

(** The answer to a request and the world it leaves (for a request that
    is answered; a thrown exception shows as status 0). *)
Definition answer (r : Request) (w : World) : Response :=
  match (handle r w).1 with
  | Done resp => resp
  | Thrown _ => mkResponse 0 VNull
  end.

Definition world_after (r : Request) (w : World) : World := (handle r w).2.

(** The timeline entry of a stage change. *)
Definition stage_change_event (eid candidateId fromStage toStage : string) (at_ms : Z) : Obj :=
  <["id" := VStr eid]>
  (<["candidateId" := VStr candidateId]>
  (<["type" := VStr "stage_change"]>
  (<["content" := VStr ("Moved from " ++ fromStage ++ " to " ++ toStage)]>
  (<["fromStage" := VStr fromStage]>
  (<["toStage" := VStr toStage]>
  (<["createdAt" := VTime at_ms]> ∅)))))).

Definition move_to (id stage : string) : Request :=
  CandidatesUpdate id {[ "stage" := VStr stage ]}.

(** *** The mutations that snapshot the cache in [onMutate] *)

Inductive Optimistic :=
  | ArchiveJob (activeTab id status : string)     (* JobsPage: archive or restore *)
  | MoveStage (id stage : string)                 (* CandidateDetailPage *)
  | BoardMove (id stage : string).                (* CandidateKanbanBoard *)

Definition run_optimistic (m : Optimistic) (s : Client) : Settled * Client :=
  match m with
  | ArchiveJob activeTab id status => mutate (archiveMutation activeTab) (id, status) s
  | MoveStage id stage => mutate (stageMutation id) stage s
  | BoardMove id stage => mutate updateStageMutation (id, stage) s
  end.

(** The query key the mutation snapshots, rewrites and restores. *)
Definition snapshot_key (m : Optimistic) : QueryKey :=
  match m with
  | ArchiveJob activeTab _ _ => ["jobs"; activeTab]
  | MoveStage id _ => ["candidate"; id]
  | BoardMove _ _ => ["candidates"; "all"]
  end.

(** "After a failed mutation the cache is what it was before the
    optimistic application", for a gesture [run] that applies an
    optimistic update and runs a mutation from client state [s]. *)
Definition failed_mutation_restores_cache
    (run : Client → option (option Settled * Client)) (s : Client) : Prop :=
  ∀ e s', run s = Some (Some (Failed e), s') → cache s' = cache s.

(** The three job cards of the active tab, as fetched, and a client whose
    service worker fails every write. *)
Definition sample_cards : list Obj := (fun i => (sample_job i).2) <$> seqZ 0 3.

Definition sample_jobs_page : Obj :=
  <["data" := rows_json sample_cards]> (<["total" := VNum 3]>
  (<["page" := VNum 1]> (<["pageSize" := VNum 20]> ∅))).

Definition sample_client : Client :=
  mkClient {[ ["jobs"; "active"] := sample_jobs_page ]} [] [] (failing_world 3) 0.

(** The ids of the cards cached for the active tab. *)
Definition cached_card_ids (s : Client) : list (option Value) :=
  match cache s !! ["jobs"; "active"] ≫= (.!! "data") with
  | Some (VArr rows) => (fun v => prop v "id") <$> rows
  | _ => []
  end.

(** ** More vocabulary *)

(** The table behind each collection. *)
Definition collection_table (c : Collection) : TableName :=
  match c with
  | CJobs => Jobs
  | CCandidates => Candidates
  | CAssessments => Assessments
  end.

(** The values a stage update leaves the timeline alone for: no stage in
    the body, a falsy one, or the stage the candidate is in. *)
Definition stage_kept (updates c : Obj) : Prop :=
  updates !! "stage" = None
  ∨ updates !! "stage" = Some (VStr "")
  ∨ ∃ s, updates !! "stage" = Some (VStr s) ∧ c !! "stage" = Some (VStr s).

(** [typeof v === 'string'] *)
Definition is_string (v : option Value) : bool :=
  match v with
  | Some (VStr _) | Some (VTime _) => true
  | _ => false
  end.

(** The keys of a stored assessment response. *)
Definition submission_keys : gset string :=
  {[ "id"; "assessmentId"; "candidateId"; "answers"; "submittedAt"; "completedAt" ]}.

(** Newest first on a timestamp field. *)
Definition newest_first (field : string) (a b : Obj) : Prop :=
  ∃ x y, a !! field = Some (VTime x) ∧ b !! field = Some (VTime y) ∧ y ≤ x.

(** The rows of the [data] array of a JSON body. *)
Definition data_rows (resp : Response) : option (list Value) :=
  match prop (payload resp) "data" with
  | Some (VArr rows) => Some rows
  | _ => None
  end.

(** What a by-candidate listing of table [t] holds: exactly the rows of
    the candidate, each once, newest first when they carry timestamps. *)
Definition feed_of (t : Table) (id : string) (rows : list Obj) : Prop :=
  (∀ r, r ∈ rows ↔ ∃ k o, t !! k = Some o ∧ r = row k o
                           ∧ o !! "candidateId" = Some (VStr id))
  ∧ NoDup (row_id <$> rows)
  ∧ ((∀ k o, t !! k = Some o → o !! "candidateId" = Some (VStr id) →
        ∃ ms, o !! "createdAt" = Some (VTime ms)) →
     StronglySorted (newest_first "createdAt") rows).

(** The update calls on the jobs table that set [order] and nothing else. *)
Definition order_update (x : StoreWrite) : Prop :=
  match x with
  | StoreUpdate Jobs _ changes => dom changes = {[ "order" ]}
  | _ => False
  end.

(** The cards of the jobs page when it shows every job, in the order of the
    listing, and their ids. *)
Definition listing (w : World) : list Obj := tbl_orderBy "order" (jobs (db w)).

Definition card_ids (cards : list Obj) : list (option Value) := (fun j => j !! "id") <$> cards.

(** A slug as [generateSlug] leaves it: lower-case letters, digits and
    single hyphens, no hyphen at either end. *)
Definition is_slug_char (c : ascii) : bool :=
  let n := nat_of_ascii c in
  (((48 <=? n) && (n <=? 57)) || ((97 <=? n) && (n <=? 122)) || (n =? 45))%nat.

Fixpoint all_chars (p : ascii → bool) (s : string) : bool :=
  match s with
  | EmptyString => true
  | String c r => p c && all_chars p r
  end.

Definition starts_with_hyphen (s : string) : bool :=
  match s with
  | String c _ => Ascii.eqb c "-"
  | EmptyString => false
  end.

Fixpoint ends_with_hyphen (s : string) : bool :=
  match s with
  | EmptyString => false
  | String c EmptyString => Ascii.eqb c "-"
  | String _ r => ends_with_hyphen r
  end.

Fixpoint no_double_hyphen (s : string) : bool :=
  match s with
  | EmptyString => true
  | String c r => negb (Ascii.eqb c "-" && starts_with_hyphen r) && no_double_hyphen r
  end.

Definition clean_slug (s : string) : bool :=
  all_chars is_slug_char s && no_double_hyphen s
  && negb (starts_with_hyphen s) && negb (ends_with_hyphen s).

(** How often a character occurs. *)
Fixpoint count_char (c : ascii) (s : string) : nat :=
  match s with
  | EmptyString => O
  | String d r => ((if Ascii.eqb d c then 1 else 0) + count_char c r)%nat
  end.

(** Sections whose [order] is their position. *)
Definition orders_are_indices (sections : list Obj) : Prop :=
  ∀ i s, sections !! i = Some s → s !! "order" = Some (VNum (Z.of_nat i)).

(** *** Where the model is exact

    A string of the model is a sequence of bytes and a number is an
    integer. On ASCII text the bytes are the UTF-16 code units of the
    program's string, and [trim], [toLowerCase], the length, [substring]
    and the character classes of the model are the program's; an integer
    is the program's number when a double holds it exactly. *)
Definition is_ascii (c : ascii) : bool := (nat_of_ascii c <? 128)%nat.

Definition ascii_text (s : string) : Prop := all_chars is_ascii s = true.

Definition safe_integer (n : Z) : Prop := - 2 ^ 53 ≤ n ≤ 2 ^ 53.

(** A numeric parameter that [parseInt] reads exactly. *)
Definition exact_number (s : string) : Prop :=
  ascii_text s ∧ ∀ n, parseInt s = Some n → safe_integer n.

(** Changes whose keys are plain property names: Dexie's [update] reads a
    key with a dot as a path into the record, and [__proto__] is not
    stored as a property. *)
Definition plain_keys (changes : Obj) : Prop :=
  ∀ k, is_Some (changes !! k) →
       all_chars (fun c => negb (Ascii.eqb c ".")) k = true ∧ k ≠ "__proto__".

(** *** The jobs a listing selects *)

(** The tags asked for, as the handler compares them. *)
Definition asked_tags (tags : string) : list string :=
  (fun t => toLowerCase (trim t)) <$> split_comma tags.

(** A row that the listing request selects: it is in the order index, it
    has the status asked for, if one is asked for, and it carries one of
    the tags asked for, if tags are asked for. *)
Definition selected (search : list (string * string)) (r : Obj) : Prop :=
  indexable (r !! "order") = true
  ∧ (∀ st, searchParams_get search "status" = Some st → st ≠ "" →
       r !! "status" = Some (VStr st))
  ∧ (∀ tags, searchParams_get search "tags" = Some tags → tags ≠ "" →
       tags_match (asked_tags tags) r = Done true).

Definition is_array (v : option Value) : bool :=
  match v with
  | Some (VArr _) => true
  | _ => false
  end.

(** The stores and requests on which this selection is the program's:
    no job has an array as its [order] (an array can be a key of the
    index), and when tags are asked for, they and the tags of the
    stored jobs are ASCII text. *)
Definition plain_selection (search : list (string * string)) (t : Table) : Prop :=
  map_Forall (fun _ o => is_array (o !! "order") = false) t
  ∧ ∀ tags, searchParams_get search "tags" = Some tags → tags ≠ "" →
      ascii_text tags
      ∧ ∀ k o stored, t !! k = Some o → o !! "tags" = Some (VArr stored) →
          Forall (fun v => ∃ tag, v = VStr tag ∧ ascii_text tag) stored.

(** ** More sample data *)

Definition long_text : string :=
  "Strong systems background, clear communicator, asked sharp questions about the on-call rotation and the deployment pipeline.".

Definition long_note : Obj :=
  <["candidateId" := VStr "cand-1"]> {[ "content" := VStr long_text ]}.

(** A world whose next generated id is the key of a stored job. *)
Definition taken_world : World :=
  mkWorld (sample_db 1) 1700000000000 (fun _ => (2 ^ 52)%N) 0 (fun _ => "job-0") 0 [].

Definition after_0_2_then_2_0 : World := (handle (JobsReorder 2 0) after_0_2).2.

(** A client with an empty cache in front of the calm world, and the
    state a gesture leaves (the state before, when it does nothing). *)
Definition calm_client (N : nat) : Client := mkClient ∅ [] [] (calm_world N) 0.

Definition failing_client : Client := mkClient ∅ [] [] (failing_world 0) 0.

Definition client_after {A} (r : option (A * Client)) (s : Client) : Client :=
  match r with
  | Some (_, s') => s'
  | None => s
  end.

Definition settled_data (r : Settled) : Value :=
  match r with
  | Succeeded data => data
  | Failed _ => VNull
  end.

(** An archived job, as stored and as listed. *)
Definition archived_job : Obj :=
  <["title" := VStr "Data Engineer"]> (<["slug" := VStr "data-engineer"]>
  (<["status" := VStr "archived"]> (<["tags" := VArr []]> (<["order" := VNum 0]> ∅)))).

Definition archive_world : World :=
  mkWorld (mkDB {[ "job-a" := archived_job ]} ∅ ∅ ∅ ∅ ∅) 1700000000000
          (fun _ => (2 ^ 52)%N) 0 (fun i => ("uuid-" ++ pretty i)%string) 0 [].

Definition edited_values : JobFormValues :=
  mkJobFormValues "Senior Data Engineer" (Some "Pipelines and warehouses") ["Remote"].

(** Two cards of the board. *)
Definition board_cards : list Obj :=
  [ row "cand-1" sample_candidate;
    <["id" := VStr "cand-2"]> (<["name" := VStr "Alan Turing"]> {[ "stage" := VStr "tech" ]}) ].

(** A client that has fetched the three active jobs, in front of the calm
    world. *)
Definition paged_client : Client :=
  mkClient {[ ["jobs"; "active"] := sample_jobs_page ]} [] [] (calm_world 3) 0.

(** *** The paths of [src/lib/api.ts] *)


Definition written_for (r : Request) : nat :=
  match r with
  | JobsGetAll _ => 0
  | JobsGetById _ => 1
  | JobsCreate _ => 2
  | JobsUpdate _ _ => 3
  | JobsReorder _ _ => 4
  | CandidatesSearch _ => 5
  | CandidatesGetById _ => 6
  | CandidatesGetTimeline _ => 7
  | CandidatesUpdate _ _ => 8
  | CandidatesCreate _ => 9
  | AssessmentsGetByJobId _ => 10
  | AssessmentsGetById _ => 11
  | AssessmentsCreate _ => 12
  | AssessmentsUpdate _ _ => 13
  | AssessmentsSubmitResponse _ _ => 14
  | NotesCreate _ => 15
  | NotesGetByCandidate _ => 16
  end%nat.



(** A computation that lets no time pass. *)
Definition clock_kept {A} (m : Handler A) : Prop := ∀ w, clock (m w).2 = clock w.

(** The handler that answers a request sent by [src/lib/api.ts], by the
    order of [handlers]. *)
Definition answering (r : Request) : nat :=
  match r with
  | JobsReorder _ _ => 3
  | _ => written_for r
  end.

(** A computation that leaves the jobs table alone. *)
Definition jobs_kept {A} (m : Handler A) : Prop :=
  ∀ w, jobs (db (m w).2) = jobs (db w).

(** The store before the first visit. *)
Definition empty_db : DB := mkDB ∅ ∅ ∅ ∅ ∅ ∅.

(** A faker whose ids are numbered. *)
Definition numbered_faker : Faker :=
  let word (_ : nat) := "lorem" in
  let id (p : string) (i : nat) := (p ++ pretty (Z.of_nat i))%string in
  {| job_title_fallback := word; job_alphanumeric := fun _ => "a1b2c3";
     job_past := fun i => 1690000000000 + Z.of_nat i; job_uuid := id "job-";
     job_tags := fun _ => ["Remote"; "Senior"]; job_paragraphs := word;
     candidate_job_pick := fun i => i; candidate_stage_pick := fun i => i;
     candidate_past := fun i => 1695000000000 + Z.of_nat i; candidate_uuid := id "cand-";
     candidate_fullName := word; candidate_email := word; candidate_avatar := word;
     applied_event_uuid := id "applied-";
     stage_event_uuid := fun i j => (id "move-" i ++ id "-" j)%string;
     assessment_job_pick := fun i => i; assessment_sections := fun _ => 2%nat;
     section_questions := fun _ _ => 4%nat; question_type_pick := fun _ _ k => k;
     question_uuid := fun i j k => (id "q-" i ++ id "-" j ++ id "-" k)%string;
     question_sentence := fun _ _ _ => "lorem ipsum"; option_words := fun _ _ _ _ => "lorem ipsum dolor";
     section_uuid := fun i j => (id "s-" i ++ id "-" j)%string; section_words := fun _ _ => "lorem ipsum dolor";
     section_sentence := fun _ _ => "lorem ipsum"; assessment_uuid := id "a-";
     assessment_paragraph := word; assessment_past := fun i => 1696000000000 + Z.of_nat i |}.

Definition first_visit : World :=
  mkWorld empty_db 1700000000000 (fun _ => (2 ^ 52)%N) 0 (fun i => ("uuid-" ++ pretty i)%string) 0 [].

(** * Proofs *)

(** ** Sorting and the store queries *)

Lemma insert_by_perm {A} (le : A → A → bool) x l : insert_by le x l ≡ₚ x :: l.
Proof.
  induction l as [|y l IH]; simpl; [done|].
  destruct (le x y); [done|]. rewrite IH. apply Permutation_swap.
Qed.

Lemma sort_by_perm {A} (le : A → A → bool) l : sort_by le l ≡ₚ l.
Proof.
  induction l as [|x l IH]; simpl; [done|].
  rewrite insert_by_perm. by rewrite IH.
Qed.

Lemma row_id_row k o : row_id (row k o) = k.
Proof. unfold row_id, row. by rewrite lookup_insert_eq. Qed.

Lemma row_lookup_ne k o f : f ≠ "id" → row k o !! f = o !! f.
Proof. intros. unfold row. by rewrite lookup_insert_ne. Qed.

Lemma toArray_perm (t : Table) :
  tbl_toArray t ≡ₚ (fun p => row p.1 p.2) <$> map_to_list t.
Proof. unfold tbl_toArray. by rewrite sort_by_perm. Qed.

Lemma elem_of_toArray (t : Table) r :
  r ∈ tbl_toArray t ↔ ∃ k o, t !! k = Some o ∧ r = row k o.
Proof.
  rewrite toArray_perm, list_elem_of_fmap. split.
  - intros [[k o] [-> Hin]]. apply elem_of_map_to_list in Hin. eauto.
  - intros (k & o & Hk & ->). exists (k, o). split; [done|]. by apply elem_of_map_to_list.
Qed.

Lemma toArray_ids (t : Table) : row_id <$> tbl_toArray t ≡ₚ (map_to_list t).*1.
Proof.
  rewrite toArray_perm, <- list_fmap_compose.
  erewrite list_fmap_ext; [done|]. intros i [k o] _. simpl. apply row_id_row.
Qed.

Lemma NoDup_toArray_ids (t : Table) : NoDup (row_id <$> tbl_toArray t).
Proof. rewrite toArray_ids. apply NoDup_fst_map_to_list. Qed.

Lemma elem_of_orderBy (t : Table) f r :
  r ∈ tbl_orderBy f t ↔ indexable (r !! f) = true ∧ ∃ k o, t !! k = Some o ∧ r = row k o.
Proof.
  unfold tbl_orderBy. rewrite sort_by_perm, list_elem_of_filter, elem_of_toArray.
  rewrite Is_true_true. done.
Qed.

Lemma NoDup_orderBy_ids (t : Table) f : NoDup (row_id <$> tbl_orderBy f t).
Proof.
  unfold tbl_orderBy. rewrite sort_by_perm.
  apply (sublist_NoDup _ (row_id <$> tbl_toArray t)); [apply NoDup_toArray_ids|].
  apply fmap_sublist, sublist_filter.
Qed.

(** ** Running the handler monad *)

Lemma put_jobs_same w : put_jobs (jobs (db w)) w = w.
Proof. by destruct w as [[] ? ? ? ? ? ?]. Qed.

Lemma log_writes_nil w : log_writes [] w = w.
Proof. destruct w. unfold log_writes. simpl. by rewrite app_nil_r. Qed.

(** Every write handler opens with the latency and the failure test. *)
Lemma inject_failure (resp : Response) (k : Handler Response) (w : World) :
  error_fires w →
  ∃ w', (simulateLatency ;;; fail <- shouldSimulateError ;; if fail then ret resp else k) w
        = (Done resp, w')
        ∧ db w' = db w ∧ writes w' = writes w.
Proof.
  intros H. unfold error_fires in H. eexists. split.
  - unfold bind, simulateLatency, shouldSimulateError, bind, Math_random, delay, ret. cbn.
    rewrite H. reflexivity.
  - done.
Qed.

Lemma write_failure (r : Request) (w : World) :
  is_write r = true → error_fires w →
  ∃ msg w', handle r w = (Done (json_status 500 (error_body msg)), w')
            ∧ db w' = db w ∧ writes w' = writes w.
Proof.
  intros Hw Hf.
  destruct r; try discriminate Hw; eexists; cbn [handle];
    apply (inject_failure _ _ w Hf).
Qed.

(** The loop of the reorder handler only issues updates on the jobs
    table: its effect is a fold over the snapshot. *)
Section reorder_loop.
Variable cond : Obj → bool.
Variable change : Obj → Obj.

Lemma for_of_loop js w :
  for_of js (loop_body cond change) w
  = (Done tt, log_writes (loop_writes cond change js) (put_jobs (foldl (loop_step cond change) (jobs (db w)) js) w)).
Proof.
  revert w. induction js as [|j js IH]; intros w.
  - simpl. unfold ret, loop_writes. simpl. by rewrite put_jobs_same, log_writes_nil.
  - simpl. unfold bind at 1. unfold loop_body at 1, loop_step at 2, loop_writes.
    destruct (cond j) eqn:Hc.
    + rewrite filter_cons_True by (by apply Is_true_true_2).
      cbn. rewrite IH. cbn. unfold log_writes, put_jobs, with_db. cbn.
      by rewrite <- app_assoc.
    + rewrite filter_cons_False by (by apply Is_true_false_2).
      cbn. by rewrite IH.
Qed.

Lemma loop_writes_none js : (∀ j, cond j = false) → loop_writes cond change js = [].
Proof.
  intros Hc. unfold loop_writes. induction js as [|j js IH]; [done|].
  rewrite filter_cons_False; [done|]. apply Is_true_false_2, Hc.
Qed.

(** A row whose key is met by no updating step is left alone. *)
Lemma foldl_loop_other js t k :
  (∀ j, j ∈ js → row_id j = k → cond j = false) →
  foldl (loop_step cond change) t js !! k = t !! k.
Proof.
  revert t. induction js as [|j js IH]; intros t Hk; simpl; [done|].
  rewrite IH by (intros; apply Hk; [by right|done]).
  unfold loop_step. destruct (cond j) eqn:Hc; [|done].
  unfold tbl_update. destruct (t !! row_id j) eqn:Hj; [|done].
  rewrite lookup_insert_ne; [done|]. intros Heq.
  rewrite (Hk j) in Hc; [done|by left|done].
Qed.

(** A row met by an updating step gets that step's change, once. *)
Lemma foldl_loop_hit js t j :
  NoDup (row_id <$> js) → j ∈ js → cond j = true →
  foldl (loop_step cond change) t js !! row_id j = (fun o => change j ∪ o) <$> t !! row_id j.
Proof.
  revert t. induction js as [|j' js IH]; intros t Hnd Hin Hc; [by inversion Hin|].
  rewrite fmap_cons in Hnd. apply NoDup_cons in Hnd as [Hnotin Hnd].
  apply elem_of_cons in Hin as [->|Hin]; simpl.
  - rewrite foldl_loop_other.
    + unfold loop_step. rewrite Hc. unfold tbl_update.
      destruct (t !! row_id j') eqn:Hj; [by rewrite lookup_insert_eq|by rewrite Hj].
    + intros j Hj Heq. exfalso. apply Hnotin. rewrite <- Heq. by apply list_elem_of_fmap_2.
  - rewrite IH by done.
    unfold loop_step. destruct (cond j') eqn:Hc'; [|done].
    unfold tbl_update. destruct (t !! row_id j') eqn:Hj'; [|done].
    rewrite lookup_insert_ne; [done|]. intros Heq. apply Hnotin.
    rewrite Heq. by apply list_elem_of_fmap_2.
Qed.
End reorder_loop.

(** ** The reorder handler, step by step *)

Lemma prelude_pass (resp : Response) (k : Handler Response) (w : World) :
  ¬ error_fires w →
  (simulateLatency ;;; fail <- shouldSimulateError ;; if fail then ret resp else k) w
  = k (after_prelude w).
Proof.
  intros Hf. unfold error_fires in Hf. apply not_true_is_false in Hf.
  unfold bind, simulateLatency, shouldSimulateError, bind, Math_random, delay, ret. cbn.
  by rewrite Hf.
Qed.

Lemma reorder_run (fromOrder toOrder : Z) (w : World) :
  ¬ error_fires w →
  handle (JobsReorder fromOrder toOrder) w =
    match reorder_find fromOrder (jobs (db w)) with
    | None => (Done (json_status 404 (error_body "Job not found")), after_prelude w)
    | Some job =>
        (Done reorder_committed,
         log_writes (reorder_writes fromOrder toOrder (jobs (db w)) job)
           (put_jobs (reorder_table fromOrder toOrder (jobs (db w)) job) (after_prelude w)))
    end.
Proof.
  intros Hf. cbn [handle]. unfold patch_jobs_reorder.
  rewrite prelude_pass by done.
  unfold bind, read_table. change (db (after_prelude w)) with (db w).
  unfold reorder_find.
  destruct (List.find _ _) as [job|] eqn:Hfind; [|done].
  pose proof (for_of_loop (reorder_cond fromOrder toOrder) (reorder_change fromOrder toOrder)
                (tbl_orderBy "order" (jobs (db w))) (after_prelude w)) as Hloop.
  unfold reorder_writes, reorder_table.
  unfold loop_body, reorder_cond, reorder_change in *.
  revert Hloop. destruct (fromOrder <? toOrder); intros Hloop.
  all: match type of Hloop with
       | ?lhs = _ =>
           match goal with
           | |- context [for_of ?l ?b ?w0] => change (for_of l b w0) with lhs
           end
       end; rewrite Hloop.
  all: unfold db_update, record_write, bind, read_table, write_table, ret; cbn.
  all: unfold reorder_committed, log_writes, put_jobs, with_db, log_write; cbn.
  all: by rewrite <- app_assoc.
Qed.

(** ** What density gives *)

Ltac order_cases :=
  repeat match goal with
    | |- context [?a <? ?b] => destruct (Z.ltb_spec a b)
    | |- context [?a <=? ?b] => destruct (Z.leb_spec a b)
    | |- context [?a =? ?b] => destruct (Z.eqb_spec a b)
    | H : context [?a <? ?b] |- _ => destruct (Z.ltb_spec a b)
    | H : context [?a <=? ?b] |- _ => destruct (Z.leb_spec a b)
    | H : context [?a =? ?b] |- _ => destruct (Z.eqb_spec a b)
    end;
  simpl in *; try done; try lia.

Lemma NoDup_fmap_eq {A B} (f : A → B) (l : list A) x y :
  NoDup (f <$> l) → x ∈ l → y ∈ l → f x = f y → x = y.
Proof.
  induction l as [|a l IH]; intros Hnd Hx Hy Hxy; [by inversion Hx|].
  rewrite fmap_cons in Hnd. apply NoDup_cons in Hnd as [Hnotin Hnd].
  apply elem_of_cons in Hx as [->|Hx]; apply elem_of_cons in Hy as [->|Hy]; auto.
  - exfalso. apply Hnotin. rewrite Hxy. by apply list_elem_of_fmap_2.
  - exfalso. apply Hnotin. rewrite <- Hxy. by apply list_elem_of_fmap_2.
Qed.

Global Instance some_num_inj : Inj (=) (=) (fun i : Z => Some (VNum i)).
Proof. intros x y H. by injection H. Qed.

Section dense_facts.
Variable t : Table.
Variable N : nat.
Hypothesis Hdense : dense t N.

Lemma dense_order_in_range k o :
  t !! k = Some o → ∃ n, o !! "order" = Some (VNum n) ∧ 0 ≤ n < Z.of_nat N.
Proof.
  intros Hk.
  assert (o !! "order" ∈ order_values t) as Hin.
  { unfold order_values. apply list_elem_of_fmap. exists (k, o). split; [done|].
    by apply elem_of_map_to_list. }
  rewrite Hdense in Hin. apply list_elem_of_fmap in Hin as (n & Hn & Hr).
  apply elem_of_seqZ in Hr. exists n. split; [done|lia].
Qed.

Lemma dense_order_unique k1 o1 k2 o2 :
  t !! k1 = Some o1 → t !! k2 = Some o2 → o1 !! "order" = o2 !! "order" → k1 = k2.
Proof.
  intros H1 H2 Heq.
  assert (NoDup (order_values t)) as Hnd.
  { rewrite Hdense. apply NoDup_fmap_2; [apply _|apply NoDup_seqZ]. }
  unfold order_values in Hnd.
  assert ((k1, o1) = (k2, o2)) as Hp; [|by injection Hp].
  eapply (NoDup_fmap_eq _ _ (k1, o1) (k2, o2) Hnd); [by apply elem_of_map_to_list..|done].
Qed.

Lemma dense_order_exists n :
  0 ≤ n < Z.of_nat N → ∃ k o, t !! k = Some o ∧ o !! "order" = Some (VNum n).
Proof.
  intros Hn.
  assert (Some (VNum n) ∈ order_values t) as Hin.
  { rewrite Hdense. apply list_elem_of_fmap. exists n. split; [done|].
    apply elem_of_seqZ. lia. }
  apply list_elem_of_fmap in Hin as ([k o] & Ho & Hin). apply elem_of_map_to_list in Hin.
  exists k, o. by split.
Qed.

Lemma dense_find fromOrder :
  0 ≤ fromOrder < Z.of_nat N →
  ∃ k o, reorder_find fromOrder t = Some (row k o) ∧ t !! k = Some o
         ∧ o !! "order" = Some (VNum fromOrder).
Proof.
  intros Hr. destruct (dense_order_exists _ Hr) as (k & o & Hk & Ho).
  unfold reorder_find.
  destruct (List.find _ _) as [job|] eqn:Hfind.
  - apply find_some in Hfind as [Hin Heq].
    apply list_elem_of_In, elem_of_orderBy in Hin as (_ & k' & o' & Hk' & ->).
    rewrite row_lookup_ne in Heq by done.
    destruct (dense_order_in_range _ _ Hk') as (n & Hn & _). rewrite Hn in Heq.
    simpl in Heq. apply Z.eqb_eq in Heq as ->. eauto.
  - exfalso. eapply find_none in Hfind.
    2:{ apply list_elem_of_In, elem_of_orderBy. split; [|by exists k, o].
        rewrite row_lookup_ne by done. by rewrite Ho. }
    simpl in Hfind. rewrite row_lookup_ne in Hfind by done. rewrite Ho in Hfind.
    simpl in Hfind. by rewrite Z.eqb_refl in Hfind.
Qed.

(** The order a member has after a committed reorder of a dense collection. *)
Lemma dense_reorder_lookup fromOrder toOrder job k o n :
  reorder_find fromOrder t = Some job →
  t !! k = Some o → o !! "order" = Some (VNum n) →
  reorder_table fromOrder toOrder t job !! k
  = Some (<["order" := VNum (spec_new_order fromOrder toOrder n)]> o).
Proof.
  intros Hfind Hk Ho.
  unfold reorder_find in Hfind. apply find_some in Hfind as [Hin Heq].
  apply list_elem_of_In, elem_of_orderBy in Hin as (_ & kf & ob & Hkf & ->).
  rewrite row_lookup_ne in Heq by done.
  destruct (dense_order_in_range _ _ Hkf) as (nf & Hnf & _). rewrite Hnf in Heq.
  simpl in Heq. apply Z.eqb_eq in Heq as ->.
  unfold reorder_table. rewrite row_id_row.
  set (cond := reorder_cond fromOrder toOrder).
  set (chg := reorder_change fromOrder toOrder).
  assert (∀ j k' o' n', j ∈ tbl_orderBy "order" t → row_id j = k' → t !! k' = Some o' →
            o' !! "order" = Some (VNum n') →
            cond j = (if fromOrder <? toOrder
                      then (fromOrder <? n') && (n' <=? toOrder)
                      else (toOrder <=? n') && (n' <? fromOrder))
            ∧ chg j = {[ "order" := VNum (n' + (if fromOrder <? toOrder then -1 else 1)) ]})
    as Hcond.
  { intros j k' o' n' Hj Hid Hk' Ho'.
    apply elem_of_orderBy in Hj as (_ & k'' & o'' & Hk'' & ->).
    rewrite row_id_row in Hid. subst k''. rewrite Hk' in Hk''. injection Hk'' as <-.
    unfold cond, chg, reorder_cond, reorder_change.
    rewrite row_lookup_ne by done. rewrite Ho'. by destruct (fromOrder <? toOrder). }
  assert (row k o ∈ tbl_orderBy "order" t) as Hrow.
  { apply elem_of_orderBy. split; [|by exists k, o].
    rewrite row_lookup_ne by done. by rewrite Ho. }
  destruct (Hcond _ _ _ _ Hrow (row_id_row k o) Hk Ho) as [Hc Hch].
  unfold tbl_update.
  destruct (decide (k = kf)) as [->|Hne].
  - (* the moved member *)
    rewrite Hkf in Hk. injection Hk as <-. rewrite Hnf in Ho. injection Ho as <-.
    assert (foldl (loop_step cond chg) t (tbl_orderBy "order" t) !! kf = Some ob) as ->.
    { rewrite foldl_loop_other; [done|]. intros j Hj Hid.
      destruct (Hcond _ _ _ _ Hj Hid Hkf Hnf) as [-> _].
      destruct (fromOrder <? toOrder); [rewrite Z.ltb_irrefl|rewrite Z.ltb_irrefl]; 
        by rewrite ?andb_false_r. }
    rewrite lookup_insert_eq. f_equal. rewrite <- insert_union_singleton_l.
    unfold spec_new_order. by rewrite Z.eqb_refl.
  - assert (n ≠ fromOrder) as Hn.
    { intros ->. apply Hne. eapply dense_order_unique; [done..|]. by rewrite Ho, Hnf. }
    assert (∀ a, match foldl (loop_step cond chg) t (tbl_orderBy "order" t) !! kf with
                 | Some o0 => <[kf := {[ "order" := VNum toOrder ]} ∪ o0]> a
                 | None => a
                 end !! k = a !! k) as ->.
    { intros a. destruct (foldl _ _ _ !! kf); [by rewrite lookup_insert_ne|done]. }
    destruct (cond (row k o)) eqn:Hcr.
    + pose proof (foldl_loop_hit cond chg _ t (row k o)
                    (NoDup_orderBy_ids t "order") Hrow Hcr) as Hhit.
      rewrite row_id_row in Hhit. rewrite Hhit, Hk. simpl. f_equal. rewrite Hch, <- insert_union_singleton_l.
      f_equal. f_equal. unfold spec_new_order. symmetry in Hc. clear -Hc Hn. order_cases.
    + rewrite foldl_loop_other.
      2:{ intros j Hj Hid. by destruct (Hcond _ _ _ _ Hj Hid Hk Ho) as [-> _]. }
      rewrite Hk. f_equal. symmetry.
      replace (spec_new_order fromOrder toOrder n) with n; [by apply insert_id|].
      unfold spec_new_order. symmetry in Hc. clear -Hc Hn. order_cases.
Qed.

Lemma reorder_table_dom fromOrder toOrder job k :
  t !! k = None → reorder_table fromOrder toOrder t job !! k = None.
Proof.
  intros Hk. unfold reorder_table, tbl_update.
  assert (foldl (loop_step (reorder_cond fromOrder toOrder) (reorder_change fromOrder toOrder))
                t (tbl_orderBy "order" t) !! k = None) as Hf.
  { rewrite foldl_loop_other; [done|]. intros j Hj Hid.
    apply elem_of_orderBy in Hj as (_ & k' & o' & Hk' & ->). rewrite row_id_row in Hid.
    subst. by rewrite Hk in Hk'. }
  destruct (_ !! row_id job) eqn:Hj; [|done].
  rewrite lookup_insert_ne; [done|]. intros <-. by rewrite Hf in Hj.
Qed.
End dense_facts.

(** ** Committed reorders *)

Lemma error_fires_dec (w : World) : {error_fires w} + {¬ error_fires w}.
Proof. unfold error_fires. destruct (below_error_rate _); [by left|by right]. Qed.

Lemma committed_reorder_world (N : nat) (w w' : World) (fromOrder toOrder : Z) :
  dense (jobs (db w)) N → 0 ≤ fromOrder < Z.of_nat N →
  handle (JobsReorder fromOrder toOrder) w = (Done reorder_committed, w') →
  ∃ job, reorder_find fromOrder (jobs (db w)) = Some job ∧
    w' = log_writes (reorder_writes fromOrder toOrder (jobs (db w)) job)
           (put_jobs (reorder_table fromOrder toOrder (jobs (db w)) job) (after_prelude w)).
Proof.
  intros Hd Hf Hrun.
  destruct (error_fires_dec w) as [Hfire|Hpass].
  - exfalso.
    destruct (write_failure (JobsReorder fromOrder toOrder) w eq_refl Hfire)
      as (msg & w1 & Heq & _).
    rewrite Heq in Hrun. discriminate Hrun.
  - rewrite reorder_run in Hrun by done.
    destruct (dense_find _ _ Hd _ Hf) as (k & o & Hfind & _).
    rewrite Hfind in Hrun. injection Hrun as <-. eauto.
Qed.

Lemma committed_reorder_table (N : nat) (w w' : World) (fromOrder toOrder : Z) :
  dense (jobs (db w)) N → 0 ≤ fromOrder < Z.of_nat N →
  handle (JobsReorder fromOrder toOrder) w = (Done reorder_committed, w') →
  jobs (db w') = reindex fromOrder toOrder <$> jobs (db w).
Proof.
  intros Hd Hf Hrun.
  destruct (committed_reorder_world _ _ _ _ _ Hd Hf Hrun) as (job & Hfind & ->).
  cbn. apply map_eq. intros k. rewrite lookup_fmap.
  destruct (jobs (db w) !! k) as [o|] eqn:Hk; simpl.
  - destruct (dense_order_in_range _ _ Hd _ _ Hk) as (n & Hn & _).
    rewrite (dense_reorder_lookup _ _ Hd _ _ _ _ _ _ Hfind Hk Hn).
    unfold reindex. by rewrite Hn.
  - by apply reorder_table_dom.
Qed.

Lemma spec_new_order_arith (fromOrder toOrder n : Z) :
  (n = fromOrder ∧ spec_new_order fromOrder toOrder n = toOrder)
  ∨ (n ≠ fromOrder ∧ fromOrder < toOrder ∧ fromOrder < n ≤ toOrder
     ∧ spec_new_order fromOrder toOrder n = n - 1)
  ∨ (n ≠ fromOrder ∧ toOrder < fromOrder ∧ toOrder ≤ n < fromOrder
     ∧ spec_new_order fromOrder toOrder n = n + 1)
  ∨ (n ≠ fromOrder ∧ ¬ (fromOrder < toOrder ∧ fromOrder < n ≤ toOrder)
     ∧ ¬ (toOrder < fromOrder ∧ toOrder ≤ n < fromOrder)
     ∧ spec_new_order fromOrder toOrder n = n).
Proof. unfold spec_new_order. order_cases. Qed.

Lemma spec_new_order_perm (N : nat) (fromOrder toOrder : Z) :
  0 ≤ fromOrder < Z.of_nat N → 0 ≤ toOrder < Z.of_nat N →
  spec_new_order fromOrder toOrder <$> seqZ 0 (Z.of_nat N) ≡ₚ seqZ 0 (Z.of_nat N).
Proof.
  intros Hf Ht. apply NoDup_Permutation.
  - apply NoDup_fmap_2_strong; [|apply NoDup_seqZ].
    intros x y Hx%elem_of_seqZ Hy%elem_of_seqZ.
    pose proof (spec_new_order_arith fromOrder toOrder x).
    pose proof (spec_new_order_arith fromOrder toOrder y). lia.
  - apply NoDup_seqZ.
  - intros x. rewrite list_elem_of_fmap. setoid_rewrite elem_of_seqZ. split.
    + intros (y & -> & Hy). pose proof (spec_new_order_arith fromOrder toOrder y). lia.
    + intros Hx.
      destruct (decide (x = toOrder)) as [->|Hxt].
      { exists fromOrder. pose proof (spec_new_order_arith fromOrder toOrder fromOrder). lia. }
      destruct (decide (fromOrder < toOrder ∧ fromOrder ≤ x < toOrder)) as [Hup|Hnup].
      { exists (x + 1). pose proof (spec_new_order_arith fromOrder toOrder (x + 1)). lia. }
      destruct (decide (toOrder < fromOrder ∧ toOrder < x ≤ fromOrder)) as [Hdn|Hndn].
      { exists (x - 1). pose proof (spec_new_order_arith fromOrder toOrder (x - 1)). lia. }
      exists x. pose proof (spec_new_order_arith fromOrder toOrder x). lia.
Qed.

Lemma dense_reindex (t : Table) (N : nat) (fromOrder toOrder : Z) :
  dense t N → 0 ≤ fromOrder < Z.of_nat N → 0 ≤ toOrder < Z.of_nat N →
  dense (reindex fromOrder toOrder <$> t) N.
Proof.
  intros Hd Hf Ht. unfold dense, order_values.
  rewrite map_to_list_fmap, <- list_fmap_compose.
  transitivity ((fun v => match v with
                          | Some (VNum n) => Some (VNum (spec_new_order fromOrder toOrder n))
                          | _ => v
                          end) <$> order_values t).
  - unfold order_values. rewrite <- list_fmap_compose.
    erewrite list_fmap_ext; [reflexivity|]. intros i [k o] _. simpl. unfold reindex.
    destruct (o !! "order") as [[]|] eqn:Ho; rewrite ?Ho; try done.
    by rewrite lookup_insert_eq.
  - rewrite Hd, <- list_fmap_compose.
    rewrite <- (spec_new_order_perm N fromOrder toOrder Hf Ht) at 2.
    by rewrite <- list_fmap_compose.
Qed.

Lemma dense_list_to_map (l : list (string * Obj)) (N : nat) :
  NoDup l.*1 →
  (fun p => p.2 !! "order") <$> l = (fun i => Some (VNum i)) <$> seqZ 0 (Z.of_nat N) →
  dense (list_to_map l) N.
Proof.
  intros Hnd Heq. unfold dense, order_values.
  rewrite map_to_list_to_map by done. by rewrite Heq.
Qed.

Lemma sample_dense_3 : dense (jobs (db (calm_world 3))) 3.
Proof.
  apply dense_list_to_map; [|reflexivity].
  apply (bool_decide_unpack _). vm_compute. exact I.
Qed.

Lemma sample_dense_10 : dense (jobs (db (calm_world 10))) 10.
Proof.
  apply dense_list_to_map; [|reflexivity].
  apply (bool_decide_unpack _). vm_compute. exact I.
Qed.

(** The four cases of the reindexing rule. *)
Lemma spec_new_order_cases (fromOrder toOrder n : Z) :
  (n = fromOrder → spec_new_order fromOrder toOrder n = toOrder)
  ∧ (toOrder < fromOrder → toOrder ≤ n < fromOrder →
     spec_new_order fromOrder toOrder n = n + 1)
  ∧ (fromOrder < toOrder → fromOrder < n ≤ toOrder →
     spec_new_order fromOrder toOrder n = n - 1)
  ∧ (n ≠ fromOrder → ¬ (toOrder ≤ n < fromOrder) → ¬ (fromOrder < n ≤ toOrder) →
     spec_new_order fromOrder toOrder n = n).
Proof. pose proof (spec_new_order_arith fromOrder toOrder n). lia. Qed.

(** ** C3: what one committed reorder does to every member *)

(** C3. In a collection of [N] members densely ordered [0..N-1], a
    committed reorder [(fromOrder, toOrder)] with both positions in range
    gives every member the order [spec_new_order fromOrder toOrder n] for
    its former order [n] (up by one exactly on [[toOrder, fromOrder)],
    down by one exactly on [(fromOrder, toOrder]], [toOrder] for the moved
    member, unchanged otherwise), leaves every other field of every member
    as it was, and neither adds nor removes a member. *)
Theorem reorder_shifts_the_span (N : nat) (w w' : World) (fromOrder toOrder : Z) :
  dense (jobs (db w)) N →
  0 ≤ fromOrder < Z.of_nat N → 0 ≤ toOrder < Z.of_nat N →
  handle (JobsReorder fromOrder toOrder) w = (Done reorder_committed, w') →
  (∀ k o, jobs (db w) !! k = Some o →
     ∃ n, o !! "order" = Some (VNum n)
          ∧ jobs (db w') !! k
            = Some (<["order" := VNum (spec_new_order fromOrder toOrder n)]> o))
  ∧ (∀ k, jobs (db w) !! k = None → jobs (db w') !! k = None).
Proof.
  intros Hd Hf Ht Hrun.
  rewrite (committed_reorder_table _ _ _ _ _ Hd Hf Hrun). split.
  - intros k o Hk. destruct (dense_order_in_range _ _ Hd _ _ Hk) as (n & Hn & _).
    exists n. split; [done|]. rewrite lookup_fmap, Hk. simpl. unfold reindex. by rewrite Hn.
  - intros k Hk. by rewrite lookup_fmap, Hk.
Qed.

Lemma reorder_shifts_the_span_witness :
  dense (jobs (db (calm_world 10))) 10
  ∧ handle (JobsReorder 5 2) (calm_world 10) = (Done reorder_committed, after_5_2)
  ∧ ((∀ k o, jobs (db (calm_world 10)) !! k = Some o →
        ∃ n, o !! "order" = Some (VNum n)
             ∧ jobs (db after_5_2) !! k = Some (<["order" := VNum (spec_new_order 5 2 n)]> o))
     ∧ (∀ k, jobs (db (calm_world 10)) !! k = None → jobs (db after_5_2) !! k = None)).
Proof.
  split; [apply sample_dense_10|]. split; [vm_compute; reflexivity|].
  apply (reorder_shifts_the_span 10 (calm_world 10) after_5_2 5 2).
  - apply sample_dense_10.
  - lia.
  - lia.
  - vm_compute; reflexivity.
Defined.

(** The scenario of the specification: ten items ordered 0 to 9, the item
    at position 5 moved to position 2. *)
Example ten_items_5_to_2 :
  (fun k => jobs (db after_5_2) !! k ≫= order_of)
    <$> ["job-0"; "job-1"; "job-2"; "job-3"; "job-4"; "job-5"; "job-6"; "job-7"; "job-8"; "job-9"]
  = [Some 0; Some 1; Some 3; Some 4; Some 5; Some 2; Some 6; Some 7; Some 8; Some 9].
Proof. vm_compute. reflexivity. Qed.

(** ** C1: the ordering invariant *)

Lemma reorder_step_dense (N : nat) (w w' : World) :
  dense (jobs (db w)) N → reorder_step N w w' → dense (jobs (db w')) N.
Proof.
  intros Hd (f & t & Hf & Ht & Hrun).
  rewrite (committed_reorder_table _ _ _ _ _ Hd Hf Hrun). by apply dense_reindex.
Qed.

(** C1. If the order values of the jobs form exactly [{0, ..., N-1}], each
    once, then after any sequence of committed reorders whose positions
    lie in [[0, N-1]] they again form exactly [{0, ..., N-1}], each once. *)
Theorem reorders_keep_dense (N : nat) (w w' : World) :
  dense (jobs (db w)) N → reorders N w w' → dense (jobs (db w')) N.
Proof.
  intros Hd Hrs. induction Hrs as [|w1 w2 w3 Hstep _ IH]; [done|].
  apply IH. by eapply reorder_step_dense.
Qed.

Lemma reorders_keep_dense_witness :
  dense (jobs (db (calm_world 3))) 3
  ∧ reorders 3 (calm_world 3) after_0_2_then_2_1
  ∧ dense (jobs (db after_0_2_then_2_1)) 3.
Proof.
  assert (reorders 3 (calm_world 3) after_0_2_then_2_1) as Hrs.
  { apply (reorders_cons 3 _ after_0_2).
    - exists 0, 2. split; [lia|]. split; [lia|]. vm_compute; reflexivity.
    - apply (reorders_cons 3 _ after_0_2_then_2_1); [|apply reorders_nil].
      exists 2, 1. split; [lia|]. split; [lia|]. vm_compute; reflexivity. }
  split; [apply sample_dense_3|]. split; [exact Hrs|].
  exact (reorders_keep_dense 3 (calm_world 3) after_0_2_then_2_1 sample_dense_3 Hrs).
Defined.

(** Unless the failure is injected, a reorder of a dense collection with
    [fromOrder] in range does commit. *)
Lemma reorder_commits (N : nat) (w : World) (fromOrder toOrder : Z) :
  dense (jobs (db w)) N → 0 ≤ fromOrder < Z.of_nat N → ¬ error_fires w →
  (handle (JobsReorder fromOrder toOrder) w).1 = Done reorder_committed.
Proof.
  intros Hd Hf Hpass. rewrite reorder_run by done.
  destruct (dense_find _ _ Hd _ Hf) as (k & o & -> & _). done.
Qed.

(** ** C4: positions out of range *)

Lemma out_of_range_is_rejected_fails : ¬ out_of_range_is_rejected 3 (calm_world 3) 0 7.
Proof.
  intros H. destruct (H sample_dense_3) as ([resp [Hresp Hst]] & _).
  - right. lia.
  - vm_compute in Hresp. injection Hresp as <-. by apply Hst.
Qed.

(** C4, as the handler has it. For a dense collection of [N] members, a
    reorder whose [fromOrder] lies outside [[0, N-1]] is answered with an
    error (404 "Job not found", or the injected 500) before any write
    call: the store is left as it was. [toOrder] is not checked. *)
Theorem from_out_of_range_is_rejected (N : nat) (w : World) (fromOrder toOrder : Z) :
  dense (jobs (db w)) N → ¬ (0 ≤ fromOrder < Z.of_nat N) →
  ∃ resp w', handle (JobsReorder fromOrder toOrder) w = (Done resp, w')
             ∧ (status resp = 404 ∨ status resp = 500)
             ∧ db w' = db w ∧ writes w' = writes w.
Proof.
  intros Hd Hout.
  destruct (error_fires_dec w) as [Hfire|Hpass].
  - destruct (write_failure (JobsReorder fromOrder toOrder) w eq_refl Hfire)
      as (msg & w1 & Heq & Hdb & Hwr).
    exists (json_status 500 (error_body msg)), w1. by auto.
  - rewrite reorder_run by done.
    destruct (reorder_find fromOrder (jobs (db w))) as [job|] eqn:Hfind.
    + exfalso. apply Hout. unfold reorder_find in Hfind.
      apply find_some in Hfind as [Hin Heq].
      apply list_elem_of_In, elem_of_orderBy in Hin as (_ & k & o & Hk & ->).
      rewrite row_lookup_ne in Heq by done.
      destruct (dense_order_in_range _ _ Hd _ _ Hk) as (n & Hn & Hr). rewrite Hn in Heq.
      simpl in Heq. apply Z.eqb_eq in Heq as ->. done.
    + eexists _, _. split; [done|]. simpl. auto.
Qed.

Lemma from_out_of_range_is_rejected_witness :
  dense (jobs (db (calm_world 3))) 3 ∧ ¬ (0 ≤ 3 < Z.of_nat 3)
  ∧ ∃ resp w', handle (JobsReorder 3 1) (calm_world 3) = (Done resp, w')
               ∧ (status resp = 404 ∨ status resp = 500)
               ∧ db w' = db (calm_world 3) ∧ writes w' = writes (calm_world 3).
Proof.
  split; [apply sample_dense_3|]. split; [lia|].
  apply (from_out_of_range_is_rejected 3 (calm_world 3) 3 1); [apply sample_dense_3|lia].
Defined.

(** ** C5: a reorder onto the same position *)

Lemma same_position_is_silent_fails : ¬ same_position_is_silent (calm_world 3) 1.
Proof. intros [H _]. vm_compute in H. discriminate H. Qed.

Lemma same_position_cond (n : Z) (j : Obj) : reorder_cond n n j = false.
Proof.
  unfold reorder_cond. rewrite Z.ltb_irrefl. unfold js_ge, js_le, js_lt.
  destruct (j !! "order") as [[| [] | m | | | |]|]; simpl; try done; order_cases.
Qed.

(** C5, as the handler has it. A reorder with [toOrder = fromOrder] leaves
    the whole store as it was, so no order value changes; when it commits
    (a member holds that position and no failure is injected) it issues
    exactly one update call, which rewrites the order of that member with
    the value it already has; otherwise it issues none. *)
Theorem same_position_changes_nothing (w : World) (n : Z) :
  let r := handle (JobsReorder n n) w in
  db r.2 = db w
  ∧ (r.1 = Done reorder_committed →
     ∃ k o, jobs (db w) !! k = Some o ∧ o !! "order" = Some (VNum n)
            ∧ writes r.2 = writes w ++ [StoreUpdate Jobs k {[ "order" := VNum n ]}])
  ∧ (r.1 ≠ Done reorder_committed → writes r.2 = writes w).
Proof.
  cbv zeta.
  destruct (error_fires_dec w) as [Hfire|Hpass].
  - destruct (write_failure (JobsReorder n n) w eq_refl Hfire) as (msg & w1 & -> & Hdb & Hwr).
    simpl. split; [done|]. split; [discriminate|done].
  - rewrite reorder_run by done.
    destruct (reorder_find n (jobs (db w))) as [job|] eqn:Hfind; simpl.
    2:{ split; [done|]. split; [discriminate|done]. }
    unfold reorder_find in Hfind. apply find_some in Hfind as [Hin Heq].
    apply list_elem_of_In, elem_of_orderBy in Hin as (_ & k & o & Hk & ->).
    rewrite row_lookup_ne in Heq by done.
    assert (o !! "order" = Some (VNum n)) as Ho.
    { destruct (o !! "order") as [[]|]; simpl in Heq; try done.
      by apply Z.eqb_eq in Heq as ->. }
    assert (reorder_table n n (jobs (db w)) (row k o) = jobs (db w)) as Htab.
    { unfold reorder_table. rewrite row_id_row.
      assert (foldl (loop_step (reorder_cond n n) (reorder_change n n)) (jobs (db w))
                    (tbl_orderBy "order" (jobs (db w))) = jobs (db w)) as ->.
      { apply map_eq. intros k'. apply foldl_loop_other. intros. apply same_position_cond. }
      unfold tbl_update. rewrite Hk. rewrite <- insert_union_singleton_l.
      rewrite (insert_id o) by done. by apply insert_id. }
    split; [|split].
    + rewrite Htab. by destruct w as [[] ? ? ? ? ? ?].
    + intros _. exists k, o. split; [done|]. split; [done|].
      unfold reorder_writes. rewrite row_id_row.
      rewrite loop_writes_none; [done|]. apply same_position_cond.
    + intros H. by destruct H.
Qed.

Lemma same_position_changes_nothing_witness :
  (handle (JobsReorder 1 1) (calm_world 3)).1 = Done reorder_committed
  ∧ db (handle (JobsReorder 1 1) (calm_world 3)).2 = db (calm_world 3)
  ∧ ∃ k o, jobs (db (calm_world 3)) !! k = Some o ∧ o !! "order" = Some (VNum 1)
           ∧ writes (handle (JobsReorder 1 1) (calm_world 3)).2
             = writes (calm_world 3) ++ [StoreUpdate Jobs k {[ "order" := VNum 1 ]}].
Proof.
  split; [vm_compute; reflexivity|].
  destruct (same_position_changes_nothing (calm_world 3) 1) as (Hdb & Hcommitted & _).
  split; [exact Hdb|]. apply Hcommitted. vm_compute; reflexivity.
Defined.

(** ** C6: the injected failure *)

(** The failure test is [u < 7.5 %] on the sample [u = k * 2^-53]. *)
Lemma below_error_rate_spec (k : N) :
  below_error_rate k = true ↔ 1000 * Z.of_N k < 75 * 2 ^ 53.
Proof. unfold below_error_rate, error_rate_num. rewrite Z.ltb_lt. lia. Qed.

Lemma latency_run {A} (k : Handler A) (w : World) :
  (simulateLatency ;;; k) w = k (after_latency w).
Proof. reflexivity. Qed.

Lemma db_after_latency w : db (after_latency w) = db w.
Proof. reflexivity. Qed.

Lemma with_random_db rnd w : db (with_random rnd w) = db w.
Proof. reflexivity. Qed.

Ltac run_read :=
  rewrite ?latency_run; unfold db_get; unfold bind, read_table, ret, lift; cbv beta iota;
  rewrite ?db_after_latency, ?with_random_db.

Lemma read_never_injected (r : Request) (w : World) :
  is_write r = false →
  (∀ rnd, (handle r (with_random rnd w)).1 = (handle r w).1)
  ∧ (∀ resp w', handle r w = (Done resp, w') →
       status resp ≠ 500 ∧ db w' = db w ∧ writes w' = writes w).
Proof.
  intros Hr. destruct r; try discriminate Hr; cbn [handle].
  all: unfold get_jobs, get_job, get_candidates_search, get_candidate, get_candidate_timeline,
         get_assessments_by_job, get_assessment, get_notes.
  all: split; [intros rnd|intros resp w' Hrun; revert Hrun]; run_read.
  all: repeat match goal with
         | |- context [match ?x with _ => _ end] => destruct x eqn:?
         end; try done.
  all: try (intros [= <- <-]; done).
  all: try (intros [= <- <-]; repeat split; try done; simpl; lia).
Qed.

(** C6. When the injected failure fires on a write request (the sample of
    [Math.random()] is below 7.5 %), the answer is the 500 error and the
    store is as before: no write call was issued, no record created,
    modified or deleted. A read request never consults the failure test:
    its answer does not depend on the random source, is never the 500
    error, and it leaves the store as before. *)
Theorem injected_failure_precedes_the_store (r : Request) (w : World) :
  (is_write r = true → error_fires w →
     ∃ msg w', handle r w = (Done (json_status 500 (error_body msg)), w')
               ∧ db w' = db w ∧ writes w' = writes w)
  ∧ (is_write r = false →
     (∀ rnd, (handle r (with_random rnd w)).1 = (handle r w).1)
     ∧ (∀ resp w', handle r w = (Done resp, w') →
          status resp ≠ 500 ∧ db w' = db w ∧ writes w' = writes w)).
Proof. split; [apply write_failure|apply read_never_injected]. Qed.

Lemma injected_failure_precedes_the_store_witness :
  is_write (JobsCreate ∅) = true ∧ error_fires (failing_world 3)
  ∧ ∃ msg w', handle (JobsCreate ∅) (failing_world 3)
              = (Done (json_status 500 (error_body msg)), w')
              ∧ db w' = db (failing_world 3) ∧ writes w' = writes (failing_world 3).
Proof.
  split; [reflexivity|]. split; [vm_compute; reflexivity|].
  apply (proj1 (injected_failure_precedes_the_store (JobsCreate ∅) (failing_world 3))).
  - reflexivity.
  - vm_compute; reflexivity.
Defined.

(** ** Creating and updating records *)

Lemma db_add_run (n : TableName) (o : Obj) (k : string) (w : World) :
  o !! "id" = Some (VStr k) →
  db_add n o w =
    match table n (db w) !! k with
    | Some _ => (Thrown "ConstraintError", log_write (StoreAdd n o) w)
    | None => (Done tt, with_db (set_table n (<[k := o]> (table n (db w))) (db w))
                                (log_write (StoreAdd n o) w))
    end.
Proof.
  intros Hid. unfold db_add, bind, record_write, read_table, write_table, throw, tbl_add.
  cbv beta iota. change (db (log_write (StoreAdd n o) w)) with (db w).
  rewrite Hid. by destruct (table n (db w) !! k).
Qed.

Lemma latency_nonneg (u : N) : 200 ≤ Z.of_N u * (1200 - 200) / 2 ^ 53 + 200.
Proof.
  assert (0 ≤ Z.of_N u * (1200 - 200) / 2 ^ 53); [|lia].
  apply Z.div_pos; lia.
Qed.

Lemma bind_uuid {A} (k : string → Handler A) (w : World) :
  (x <- randomUUID ;; k x) w = k (uuid w (issued w)) (next_uuid w).
Proof. reflexivity. Qed.

Lemma bind_now {A} (k : Value → Handler A) (w : World) :
  (x <- now ;; k x) w = k (VTime (clock w)) w.
Proof. reflexivity. Qed.

Lemma bind_assoc {A B C} (m : Handler A) (f : A → Handler B) (g : B → Handler C) (w : World) :
  bind (bind m f) g w = bind m (fun x => bind (f x) g) w.
Proof. unfold bind. by destruct (m w) as [[]]. Qed.

Lemma bind_db_get {A} (n : TableName) (key : string) (k : option Obj → Handler A) (w : World) :
  (x <- db_get n key ;; k x) w = k (tbl_get (table n (db w)) key) w.
Proof. reflexivity. Qed.

Lemma bind_db_update {A} (n : TableName) (key : string) (changes : Obj)
    (k : Handler A) (w : World) :
  (db_update n key changes ;;; k) w = k (updated n key changes w).
Proof. reflexivity. Qed.

Lemma bind_db_add {A} (n : TableName) (o : Obj) (key : string) (k : Handler A) (w : World) :
  o !! "id" = Some (VStr key) →
  (db_add n o ;;; k) w =
    match table n (db w) !! key with
    | Some _ => (Thrown "ConstraintError", log_write (StoreAdd n o) w)
    | None => k (added n key o w)
    end.
Proof.
  intros Hid. unfold bind at 1. rewrite (db_add_run _ _ _ _ Hid).
  by destruct (table n (db w) !! key).
Qed.

(** C10. A candidate created through the create endpoint is stored under a
    fresh id with stage ['applied'], whatever the request body says about
    the stage (its other fields are those of the body), and exactly one
    timeline entry is added: a ['stage_change'] to ['applied'] for the new
    candidate. *)
Theorem created_candidate_is_applied (body : Obj) (w w' : World) (resp : Response) :
  handle (CandidatesCreate body) w = (Done resp, w') → status resp = 200 →
  ∃ id eid cand ev,
    candidates (db w) !! id = None
    ∧ candidates (db w') = <[id := cand]> (candidates (db w))
    ∧ cand !! "id" = Some (VStr id)
    ∧ cand !! "stage" = Some (VStr "applied")
    ∧ (∀ k, k ∉ ["id"; "stage"; "appliedAt"; "updatedAt"] → cand !! k = body !! k)
    ∧ timeline (db w) !! eid = None
    ∧ timeline (db w') = <[eid := ev]> (timeline (db w))
    ∧ ev !! "candidateId" = Some (VStr id)
    ∧ ev !! "type" = Some (VStr "stage_change")
    ∧ ev !! "toStage" = Some (VStr "applied").
Proof.
  intros Hrun Hst.
  destruct (error_fires_dec w) as [Hfire|Hpass].
  { destruct (write_failure (CandidatesCreate body) w eq_refl Hfire) as (msg & w1 & Heq & _).
    rewrite Heq in Hrun. injection Hrun as <- <-. done. }
  cbn [handle] in Hrun. unfold post_candidate in Hrun.
  rewrite prelude_pass in Hrun by done.
  rewrite bind_uuid, !bind_now in Hrun.
  match type of Hrun with context [db_add Candidates ?c] => set (cand := c) in * end.
  set (id := uuid (after_prelude w) (issued (after_prelude w))) in *.
  assert (cand !! "id" = Some (VStr id)) as Hid by (by unfold cand; simplify_map_eq).
  rewrite (bind_db_add _ _ id) in Hrun by done.
  destruct (table Candidates _ !! id) eqn:Hfresh; [discriminate Hrun|].
  rewrite bind_uuid, bind_now in Hrun. rewrite Hid in Hrun.
  match type of Hrun with context [db_add Timeline ?e] => set (ev := e) in * end.
  set (eid := uuid (added Candidates id cand (next_uuid (after_prelude w))) _) in *.
  rewrite (bind_db_add _ _ eid) in Hrun by (by unfold ev; simplify_map_eq).
  destruct (table Timeline _ !! eid) eqn:Hfresh'; [discriminate Hrun|].
  injection Hrun as <- <-.
  exists id, eid, cand, ev. repeat split; try done.
  all: try (unfold cand, ev; by simplify_map_eq).
  intros k Hk. unfold cand. rewrite !lookup_insert_ne; [done|intros <-; set_solver..].
Qed.

Lemma created_candidate_is_applied_witness :
  handle (CandidatesCreate screened_applicant) (calm_world 3)
  = (Done (answer (CandidatesCreate screened_applicant) (calm_world 3)),
     world_after (CandidatesCreate screened_applicant) (calm_world 3))
  ∧ status (answer (CandidatesCreate screened_applicant) (calm_world 3)) = 200
  ∧ ∃ id eid cand ev,
      candidates (db (calm_world 3)) !! id = None
      ∧ candidates (db (world_after (CandidatesCreate screened_applicant) (calm_world 3)))
        = <[id := cand]> (candidates (db (calm_world 3)))
      ∧ cand !! "id" = Some (VStr id)
      ∧ cand !! "stage" = Some (VStr "applied")
      ∧ (∀ k, k ∉ ["id"; "stage"; "appliedAt"; "updatedAt"] →
              cand !! k = screened_applicant !! k)
      ∧ timeline (db (calm_world 3)) !! eid = None
      ∧ timeline (db (world_after (CandidatesCreate screened_applicant) (calm_world 3)))
        = <[eid := ev]> (timeline (db (calm_world 3)))
      ∧ ev !! "candidateId" = Some (VStr id)
      ∧ ev !! "type" = Some (VStr "stage_change")
      ∧ ev !! "toStage" = Some (VStr "applied").
Proof.
  split; [vm_compute; reflexivity|]. split; [vm_compute; reflexivity|].
  apply (created_candidate_is_applied screened_applicant (calm_world 3)
           (world_after (CandidatesCreate screened_applicant) (calm_world 3))
           (answer (CandidatesCreate screened_applicant) (calm_world 3))).
  - vm_compute; reflexivity.
  - vm_compute; reflexivity.
Defined.

(** ** C9: two stage moves in a row *)

(** One committed move of candidate [id] from stage [s] to another stage
    [s']: one timeline entry is added, stamped with the time of the
    handler, which is at least 200 ms after the request entered. *)
Lemma stage_move_run (id s s' : string) (c : Obj) (w w1 : World) (r : Response) :
  candidates (db w) !! id = Some c → c !! "stage" = Some (VStr s) →
  s ≠ s' → s' ≠ "" →
  handle (move_to id s') w = (Done r, w1) → status r = 200 →
  ∃ eid,
    timeline (db w) !! eid = None
    ∧ timeline (db w1) = <[eid := stage_change_event eid id s s' (clock w1)]> (timeline (db w))
    ∧ (∃ c1, candidates (db w1) !! id = Some c1 ∧ c1 !! "stage" = Some (VStr s'))
    ∧ clock w + 200 ≤ clock w1.
Proof.
  intros Hc Hs Hne Hs' Hrun Hst.
  destruct (error_fires_dec w) as [Hfire|Hpass].
  { destruct (write_failure (move_to id s') w eq_refl Hfire) as (msg & w2 & Heq & _).
    rewrite Heq in Hrun. injection Hrun as <- <-. done. }
  unfold move_to in Hrun. cbn [handle] in Hrun. unfold patch_candidate in Hrun.
  rewrite prelude_pass in Hrun by done.
  rewrite bind_db_get in Hrun. change (db (after_prelude w)) with (db w) in Hrun.
  unfold tbl_get in Hrun. cbn [table] in Hrun. rewrite Hc in Hrun. cbn [fmap option_fmap option_map] in Hrun.
  rewrite row_lookup_ne in Hrun by done. rewrite Hs, lookup_singleton_eq in Hrun.
  assert (truthy (Some (VStr s')) && negb (strict_eq (Some (VStr s')) (Some (VStr s))) = true)
    as Hchg.
  { simpl. apply andb_true_iff. split.
    - apply negb_true_iff, String.eqb_neq. done.
    - apply negb_true_iff, String.eqb_neq. done. }
  rewrite Hchg in Hrun.
  rewrite bind_assoc, bind_uuid, bind_assoc, bind_now in Hrun.
  set (eid := uuid (after_prelude w) (issued (after_prelude w))) in *.
  match type of Hrun with context [db_add Timeline ?e] => set (ev := e) in * end.
  rewrite (bind_db_add _ _ eid) in Hrun by (by unfold ev; simplify_map_eq).
  destruct (table Timeline _ !! eid) eqn:Hfresh; [discriminate Hrun|].
  rewrite bind_now, bind_db_update, bind_db_get in Hrun.
  injection Hrun as <- <-.
  exists eid. split; [done|]. split; [done|]. split.
  - cbn. unfold tbl_update. rewrite Hc. rewrite lookup_insert_eq. eexists. split; [done|].
    rewrite lookup_union_l'; by simplify_map_eq.
  - cbn. pose proof (latency_nonneg (random w (drawn w))). lia.
Qed.

(** C9. A candidate in stage ['applied'] moved to ['screen'] and then to
    ['tech'] by two committed stage updates, one after the other, gets
    exactly two new timeline entries, [(applied, screen)] and
    [(screen, tech)], the second stamped strictly later than the first. *)
Theorem two_moves_two_entries (id : string) (c : Obj) (w w1 w2 : World) (r1 r2 : Response) :
  candidates (db w) !! id = Some c → c !! "stage" = Some (VStr "applied") →
  handle (move_to id "screen") w = (Done r1, w1) → status r1 = 200 →
  handle (move_to id "tech") w1 = (Done r2, w2) → status r2 = 200 →
  ∃ (k1 k2 : string) (t1 t2 : Z),
    timeline (db w) !! k1 = None ∧ timeline (db w) !! k2 = None ∧ k1 ≠ k2
    ∧ timeline (db w2)
      = <[k2 := stage_change_event k2 id "screen" "tech" t2]>
          (<[k1 := stage_change_event k1 id "applied" "screen" t1]> (timeline (db w)))
    ∧ t1 < t2.
Proof.
  intros Hc Hs Hrun1 Hst1 Hrun2 Hst2.
  destruct (stage_move_run id "applied" "screen" c w w1 r1) as (k1 & Hk1 & Ht1 & (c1 & Hc1 & Hs1) & Hclk1);
    try done.
  destruct (stage_move_run id "screen" "tech" c1 w1 w2 r2) as (k2 & Hk2 & Ht2 & _ & Hclk2);
    try done.
  exists k1, k2, (clock w1), (clock w2).
  rewrite Ht1 in Hk2. rewrite Ht2, Ht1.
  destruct (decide (k1 = k2)) as [->|Hne]; [by rewrite lookup_insert_eq in Hk2|].
  rewrite lookup_insert_ne in Hk2 by done.
  repeat split; try done. lia.
Qed.

Lemma two_moves_two_entries_witness :
  let w := calm_world 3 in
  let w1 := world_after (move_to "cand-1" "screen") w in
  let w2 := world_after (move_to "cand-1" "tech") w1 in
  candidates (db w) !! "cand-1" = Some sample_candidate
  ∧ sample_candidate !! "stage" = Some (VStr "applied")
  ∧ handle (move_to "cand-1" "screen") w = (Done (answer (move_to "cand-1" "screen") w), w1)
  ∧ handle (move_to "cand-1" "tech") w1 = (Done (answer (move_to "cand-1" "tech") w1), w2)
  ∧ ∃ (k1 k2 : string) (t1 t2 : Z),
      timeline (db w) !! k1 = None ∧ timeline (db w) !! k2 = None ∧ k1 ≠ k2
      ∧ timeline (db w2)
        = <[k2 := stage_change_event k2 "cand-1" "screen" "tech" t2]>
            (<[k1 := stage_change_event k1 "cand-1" "applied" "screen" t1]> (timeline (db w)))
      ∧ t1 < t2.
Proof.
  cbv zeta.
  split; [vm_compute; reflexivity|]. split; [vm_compute; reflexivity|].
  split; [vm_compute; reflexivity|]. split; [vm_compute; reflexivity|].
  apply (two_moves_two_entries "cand-1" sample_candidate (calm_world 3)
           (world_after (move_to "cand-1" "screen") (calm_world 3))
           (world_after (move_to "cand-1" "tech")
              (world_after (move_to "cand-1" "screen") (calm_world 3)))
           (answer (move_to "cand-1" "screen") (calm_world 3))
           (answer (move_to "cand-1" "tech")
              (world_after (move_to "cand-1" "screen") (calm_world 3)))).
  all: vm_compute; reflexivity.
Defined.

(** ** C7: create, then get *)

Lemma tbl_get_inserted (t : Table) (k : string) (o : Obj) :
  o !! "id" = Some (VStr k) → tbl_get (<[k := o]> t) k = Some o.
Proof.
  intros Hid. unfold tbl_get. rewrite lookup_insert_eq. simpl. f_equal.
  unfold row. by apply insert_id.
Qed.

Lemma round_trip_keeps_fields_fails :
  ¬ round_trip_keeps_fields CCandidates screened_applicant (calm_world 3).
Proof.
  intros H.
  specialize (H (answer (CandidatesCreate screened_applicant) (calm_world 3))
                (world_after (CandidatesCreate screened_applicant) (calm_world 3))
                "uuid-0"
                (answer (CandidatesGetById "uuid-0")
                   (world_after (CandidatesCreate screened_applicant) (calm_world 3)))).
  assert (response_data
            (answer (CandidatesGetById "uuid-0")
               (world_after (CandidatesCreate screened_applicant) (calm_world 3)))
            ≫= (.!! "stage") = screened_applicant !! "stage") as Habs.
  { apply H; [vm_compute; reflexivity..|]. apply (bool_decide_unpack _). vm_compute. exact I. }
  vm_compute in Habs. discriminate Habs.
Qed.

(** C7, as the handlers have it. A record created in the jobs, candidates
    or assessments collection and then fetched by the returned id comes
    back with every supplied field, except the fields the create handler
    sets itself: the generated id and timestamps and, for a candidate,
    the stage, which is always ['applied']. *)
Theorem create_then_get (c : Collection) (body : Obj) (w w1 : World) (resp : Response) :
  handle (create_request c body) w = (Done resp, w1) → status resp = 200 →
  ∃ id rec,
    response_id resp = Some id
    ∧ (handle (get_request c id) w1).1 = Done (json {[ "data" := VObj rec ]})
    ∧ (∀ k, k ∉ handler_set_fields c → rec !! k = body !! k)
    ∧ (c = CCandidates → rec !! "stage" = Some (VStr "applied")).
Proof.
  intros Hrun Hst.
  destruct (error_fires_dec w) as [Hfire|Hpass].
  { destruct (write_failure (create_request c body) w) as (msg & w2 & Heq & _);
      [by destruct c|done|].
    rewrite Heq in Hrun. injection Hrun as <- <-. done. }
  set (id := uuid w (issued w)).
  destruct c; cbn [create_request get_request handle] in *.
  - (* jobs *)
    unfold post_job in Hrun. rewrite prelude_pass in Hrun by done.
    rewrite bind_uuid, !bind_now in Hrun.
    match type of Hrun with context [db_add Jobs ?r] => set (rec := r) in * end.
    assert (rec !! "id" = Some (VStr id)) as Hid by (by unfold rec; simplify_map_eq).
    rewrite (bind_db_add _ _ id) in Hrun by done.
    destruct (table Jobs _ !! id) eqn:Hfresh; [discriminate Hrun|].
    injection Hrun as <- <-.
    exists id, rec. split; [|split; [|split]].
    + unfold response_id, response_data. cbn. unfold data_of. cbn.
      rewrite lookup_insert_eq. cbn. by rewrite Hid.
    + unfold get_job. rewrite latency_run, bind_db_get. cbn [table db added with_db set_table jobs after_latency next_uuid log_write].
      by rewrite (tbl_get_inserted _ _ _ Hid).
    + intros k Hk. unfold rec. rewrite !lookup_insert_ne; [done|intros <-; set_solver..].
    + done.
  - (* candidates *)
    unfold post_candidate in Hrun. rewrite prelude_pass in Hrun by done.
    rewrite bind_uuid, !bind_now in Hrun.
    match type of Hrun with context [db_add Candidates ?r] => set (rec := r) in * end.
    assert (rec !! "id" = Some (VStr id)) as Hid by (by unfold rec; simplify_map_eq).
    rewrite (bind_db_add _ _ id) in Hrun by done.
    destruct (table Candidates _ !! id) eqn:Hfresh; [discriminate Hrun|].
    rewrite bind_uuid, bind_now in Hrun. rewrite Hid in Hrun.
    match type of Hrun with context [db_add Timeline ?e] => set (ev := e) in * end.
    set (eid := uuid w (S (issued w))).
    rewrite (bind_db_add _ _ eid) in Hrun by (by unfold ev; simplify_map_eq).
    destruct (table Timeline _ !! eid) eqn:Hfresh'; [discriminate Hrun|].
    injection Hrun as <- <-.
    exists id, rec. split; [|split; [|split]].
    + unfold response_id, response_data. cbn. unfold data_of. cbn.
      rewrite lookup_insert_eq. cbn. by rewrite Hid.
    + unfold get_candidate. rewrite latency_run, bind_db_get. cbn [table db added with_db set_table candidates after_latency next_uuid log_write].
      by rewrite (tbl_get_inserted _ _ _ Hid).
    + intros k Hk. unfold rec. rewrite !lookup_insert_ne; [done|intros <-; set_solver..].
    + intros _. unfold rec. by simplify_map_eq.
  - (* assessments *)
    unfold post_assessment in Hrun. rewrite prelude_pass in Hrun by done.
    rewrite bind_uuid, !bind_now in Hrun.
    match type of Hrun with context [db_add Assessments ?r] => set (rec := r) in * end.
    assert (rec !! "id" = Some (VStr id)) as Hid by (by unfold rec; simplify_map_eq).
    rewrite (bind_db_add _ _ id) in Hrun by done.
    destruct (table Assessments _ !! id) eqn:Hfresh; [discriminate Hrun|].
    injection Hrun as <- <-.
    exists id, rec. split; [|split; [|split]].
    + unfold response_id, response_data. cbn. unfold data_of. cbn.
      rewrite lookup_insert_eq. cbn. by rewrite Hid.
    + unfold get_assessment. rewrite latency_run, bind_db_get. cbn [table db added with_db set_table assessments after_latency next_uuid log_write].
      by rewrite (tbl_get_inserted _ _ _ Hid).
    + intros k Hk. unfold rec. rewrite !lookup_insert_ne; [done|intros <-; set_solver..].
    + done.
Qed.

Lemma create_then_get_witness :
  let r := CandidatesCreate screened_applicant in
  handle r (calm_world 3) = (Done (answer r (calm_world 3)), world_after r (calm_world 3))
  ∧ status (answer r (calm_world 3)) = 200
  ∧ ∃ id rec,
      response_id (answer r (calm_world 3)) = Some id
      ∧ (handle (get_request CCandidates id) (world_after r (calm_world 3))).1
        = Done (json {[ "data" := VObj rec ]})
      ∧ (∀ k, k ∉ handler_set_fields CCandidates → rec !! k = screened_applicant !! k)
      ∧ (CCandidates = CCandidates → rec !! "stage" = Some (VStr "applied")).
Proof.
  cbv zeta. split; [vm_compute; reflexivity|]. split; [vm_compute; reflexivity|].
  apply (create_then_get CCandidates screened_applicant (calm_world 3)
           (world_after (CandidatesCreate screened_applicant) (calm_world 3))
           (answer (CandidatesCreate screened_applicant) (calm_world 3))).
  - vm_compute; reflexivity.
  - vm_compute; reflexivity.
Defined.

(** ** C8: the shape of the list responses *)

Lemma list_response_is_paginated_fails :
  ¬ list_response_is_paginated (CandidatesGetTimeline "cand-1") (calm_world 3).
Proof.
  intros H.
  destruct (H (answer (CandidatesGetTimeline "cand-1") (calm_world 3)))
    as (body & Hbody & Hkeys); [vm_compute; reflexivity|].
  assert ("total" ∈ dom body) as Hin by set_solver.
  apply elem_of_dom in Hin as [v Hv].
  assert (prop (payload (answer (CandidatesGetTimeline "cand-1") (calm_world 3))) "total"
          = Some v) as Habs by (by rewrite Hbody).
  vm_compute in Habs. discriminate Habs.
Qed.

Lemma filter_throwing_sublist {A} (p : A → Outcome bool) (xs ys : list A) :
  filter_throwing p xs = Done ys → sublist ys xs.
Proof.
  revert ys. induction xs as [|x xs IH]; simpl; intros ys Hf.
  - injection Hf as <-. constructor.
  - destruct (p x) as [b|]; [|done].
    destruct (filter_throwing p xs) as [zs|]; [|done].
    injection Hf as <-. destruct b; [apply sublist_skip|apply sublist_cons]; by apply IH.
Qed.

Lemma elem_of_filter_throwing {A} (p : A → Outcome bool) (xs ys : list A) (x : A) :
  filter_throwing p xs = Done ys → x ∈ ys ↔ x ∈ xs ∧ p x = Done true.
Proof.
  revert ys. induction xs as [|y xs IH]; simpl; intros ys Hf.
  - injection Hf as <-. split; [by intros ?%elem_of_nil|by intros [?%elem_of_nil _]].
  - destruct (p y) as [b|] eqn:Hy; [|done].
    destruct (filter_throwing p xs) as [zs|]; [|done].
    injection Hf as <-. specialize (IH zs eq_refl).
    destruct b; rewrite ?elem_of_cons, IH; split.
    + intros [->|[? ?]]; [by auto|by auto].
    + intros [[->|?] ?]; [by left|by right].
    + intros [? ?]; by auto.
    + intros [[->|?] ?]; [congruence|done].
Qed.

Lemma js_slice_sublist {A} (xs : list A) (start stop : option Z) :
  sublist (js_slice xs start stop) xs.
Proof. unfold js_slice. etrans; [apply sublist_take|apply sublist_drop]. Qed.

Lemma strict_eq_str (v : option Value) (s : string) :
  strict_eq v (Some (VStr s)) = true ↔ v = Some (VStr s).
Proof.
  destruct v as [[]|]; simpl; split; try done.
  - by intros ->%String.eqb_eq.
  - intros [= ->]. apply String.eqb_refl.
Qed.

Lemma str_truthy_spec (s : option string) :
  str_truthy s = true ↔ ∃ v, s = Some v ∧ v ≠ "".
Proof.
  destruct s as [v|]; simpl.
  - rewrite negb_true_iff, String.eqb_neq. split; [by eauto|by intros (? & [= ->] & ?)].
  - split; [done|by intros (? & ? & _)].
Qed.

(** What [GET /api/jobs] answers with: the jobs selected, of which the
    page is cut. *)
Lemma get_jobs_run (search : list (string * string)) (w w' : World) (resp : Response) :
  get_jobs search w = (Done resp, w') →
  ∃ matching,
    resp = json (<["data" := rows_json
                    (js_slice matching
                       (opt_mul (opt_add (parseInt (param_or search "page" "1")) (Some (-1)))
                                (parseInt (param_or search "pageSize" "20")))
                       (opt_add (opt_mul (opt_add (parseInt (param_or search "page" "1")) (Some (-1)))
                                         (parseInt (param_or search "pageSize" "20")))
                                (parseInt (param_or search "pageSize" "20"))))]>
                 (<["total" := VNum (Z.of_nat (length matching))]>
                 (<["page" := num_json (parseInt (param_or search "page" "1"))]>
                 (<["pageSize" := num_json (parseInt (param_or search "pageSize" "20"))]> ∅))))
    ∧ NoDup (row_id <$> matching)
    ∧ ∀ j, j ∈ matching ↔ ∃ k o, jobs (db w) !! k = Some o ∧ j = row k o ∧ selected search j.
Proof.
  intros Hrun. unfold get_jobs in Hrun.
  rewrite latency_run in Hrun. unfold bind, read_table, lift, ret in Hrun.
  cbn [table] in Hrun. rewrite db_after_latency in Hrun.
  set (jobs0 := tbl_orderBy "order" (jobs (db w))) in *.
  set (st0 := searchParams_get search "status") in *.
  set (jobs1 := if str_truthy st0 then filter _ jobs0 else jobs0) in *.
  assert (sublist jobs1 jobs0) as Hsub1.
  { unfold jobs1. destruct (str_truthy st0); [apply sublist_filter|done]. }
  assert (∀ j, j ∈ jobs1 ↔ j ∈ jobs0 ∧ ∀ st, st0 = Some st → st ≠ "" →
                                             j !! "status" = Some (VStr st)) as Hin1.
  { intros j. unfold jobs1. destruct (str_truthy st0) eqn:Ht.
    - apply str_truthy_spec in Ht as (st & Hst & Hne). rewrite Hst.
      rewrite list_elem_of_filter, Is_true_true. cbn [fmap option_fmap option_map].
      rewrite strict_eq_str. split.
      + intros [? ?]. split; [done|]. by intros ? [= <-] _.
      + intros [? H]. split; [by apply H|done].
    - split; [|by intros []]. intros Hj. split; [done|]. intros st Hst Hne.
      assert (str_truthy st0 = true) by (apply str_truthy_spec; eauto). congruence. }
  match type of Hrun with context [match ?x with Done _ => _ | Thrown _ => _ end] =>
    destruct x as [jobs2|] eqn:Hjobs2 end; [|done].
  assert (sublist jobs2 jobs1) as Hsub2.
  { destruct (str_truthy (searchParams_get search "tags")).
    - by apply filter_throwing_sublist in Hjobs2.
    - by injection Hjobs2 as <-. }
  assert (∀ j, j ∈ jobs2 ↔ j ∈ jobs1 ∧ ∀ tags, searchParams_get search "tags" = Some tags →
                 tags ≠ "" → tags_match (asked_tags tags) j = Done true) as Hin2.
  { intros j. destruct (str_truthy (searchParams_get search "tags")) eqn:Ht.
    - apply str_truthy_spec in Ht as (tags & Htags & Hne). rewrite Htags in *.
      cbn [default] in Hjobs2. rewrite (elem_of_filter_throwing _ _ _ _ Hjobs2).
      fold (asked_tags tags). split.
      + intros [? ?]. split; [done|]. by intros ? [= <-] _.
      + intros [? H]. split; [done|by apply H].
    - injection Hjobs2 as <-. split; [|by intros []]. intros Hj. split; [done|].
      intros tags Htags Hne.
      assert (str_truthy (searchParams_get search "tags") = true)
        by (apply str_truthy_spec; eauto). congruence. }
  injection Hrun as <- <-. exists jobs2. split; [reflexivity|]. split.
  - eapply sublist_NoDup; [apply NoDup_orderBy_ids|]. apply fmap_sublist. by etrans.
  - intros j. rewrite Hin2, Hin1. unfold jobs0. rewrite elem_of_orderBy. unfold selected.
    split.
    + intros [[[? (k & o & ? & ->)] ?] ?]. exists k, o. by repeat split.
    + intros (k & o & ? & -> & ? & ? & ?). repeat split; eauto.
Qed.

(** C8, as the handlers have it. Every list endpoint answers 200 with an
    object whose [data] is an array. The jobs list carries exactly
    [data], [total], [page] and [pageSize]: [total] is the number of the
    jobs that the request selects (by status and tags), each counted
    once, and [data] is a part of them, in their order; [page] and
    [pageSize] are the numbers asked for, when [parseInt] reads them
    exactly. Which jobs are selected is stated for ASCII tags and
    orders that are not arrays. The
    candidate search carries [data] and [total], the length of [data].
    The timeline, the notes of a candidate and the assessments of a job
    carry [data] alone. *)
Theorem list_response_shape (r : Request) (w w' : World) (resp : Response) :
  is_list_endpoint r = true → handle r w = (Done resp, w') →
  status resp = 200
  ∧ ∃ body rows,
      payload resp = VObj body ∧ body !! "data" = Some (VArr rows)
      ∧ match r with
        | JobsGetAll search =>
            dom body = jobs_page_keys
            ∧ (exact_number (param_or search "page" "1") →
               body !! "page" = Some (num_json (parseInt (param_or search "page" "1"))))
            ∧ (exact_number (param_or search "pageSize" "20") →
               body !! "pageSize"
               = Some (num_json (parseInt (param_or search "pageSize" "20"))))
            ∧ ∃ matching,
                body !! "total" = Some (VNum (Z.of_nat (length matching)))
                ∧ sublist rows (VObj <$> matching)
                ∧ NoDup (row_id <$> matching)
                ∧ (plain_selection search (jobs (db w)) →
                   ∀ j, j ∈ matching ↔
                        ∃ k o, jobs (db w) !! k = Some o ∧ j = row k o ∧ selected search j)
        | CandidatesSearch _ => body !! "total" = Some (VNum (Z.of_nat (length rows)))
        | _ => dom body = {[ "data" ]}
        end.
Proof.
  intros Hl Hrun. destruct r; try discriminate Hl; cbn [handle] in Hrun.
  - destruct (get_jobs_run _ _ _ _ Hrun) as (matching & -> & Hnd & Hin).
    split; [done|].
    eexists _, _. split; [done|]. split; [by simplify_map_eq|].
    split; [|split; [by simplify_map_eq|split; [by simplify_map_eq|]]].
    + unfold jobs_page_keys. rewrite !dom_insert_L, dom_empty_L. set_solver.
    + exists matching. split; [by simplify_map_eq|]. split; [|done].
      apply fmap_sublist, js_slice_sublist.
  - unfold get_candidates_search in Hrun. rewrite latency_run in Hrun.
    unfold bind, read_table, ret in Hrun. cbv beta iota in Hrun.
    injection Hrun as <- <-. split; [done|].
    eexists _, _. split; [done|]. split; [by simplify_map_eq|].
    rewrite lookup_insert_ne by done. rewrite lookup_insert_eq.
    unfold rows_json. by rewrite length_fmap.
  - unfold get_candidate_timeline in Hrun. rewrite latency_run in Hrun.
    unfold bind, read_table, ret in Hrun. cbv beta iota in Hrun.
    injection Hrun as <- <-. split; [done|].
    eexists _, _. split; [done|]. split; [by simplify_map_eq|]. by rewrite dom_singleton_L.
  - unfold get_assessments_by_job in Hrun. rewrite latency_run in Hrun.
    unfold bind, read_table, ret in Hrun. cbv beta iota in Hrun.
    injection Hrun as <- <-. split; [done|].
    eexists _, _. split; [done|]. split; [by simplify_map_eq|]. by rewrite dom_singleton_L.
  - unfold get_notes in Hrun. rewrite latency_run in Hrun.
    unfold bind, read_table, ret in Hrun. cbv beta iota in Hrun.
    injection Hrun as <- <-. split; [done|].
    eexists _, _. split; [done|]. split; [by simplify_map_eq|]. by rewrite dom_singleton_L.
Qed.

Lemma exact_number_2 : exact_number "2".
Proof.
  split; [reflexivity|]. intros n Hn. vm_compute in Hn. injection Hn as <-.
  split; vm_compute; discriminate.
Qed.

Lemma list_response_shape_witness :
  let search := [("status", "active"); ("page", "2"); ("pageSize", "2")] in
  is_list_endpoint (JobsGetAll search) = true
  ∧ handle (JobsGetAll search) (calm_world 3)
    = (Done (answer (JobsGetAll search) (calm_world 3)),
       world_after (JobsGetAll search) (calm_world 3))
  ∧ exact_number (param_or search "page" "1")
  ∧ exact_number (param_or search "pageSize" "20")
  ∧ plain_selection search (jobs (db (calm_world 3)))
  ∧ status (answer (JobsGetAll search) (calm_world 3)) = 200
  ∧ ∃ body rows,
      payload (answer (JobsGetAll search) (calm_world 3)) = VObj body
      ∧ body !! "data" = Some (VArr rows)
      ∧ dom body = jobs_page_keys
      ∧ body !! "page" = Some (VNum 2)
      ∧ body !! "pageSize" = Some (VNum 2)
      ∧ ∃ matching,
          body !! "total" = Some (VNum (Z.of_nat (length matching)))
          ∧ sublist rows (VObj <$> matching)
          ∧ NoDup (row_id <$> matching)
          ∧ ∀ j, j ∈ matching ↔
                 ∃ k o, jobs (db (calm_world 3)) !! k = Some o ∧ j = row k o
                        ∧ selected search j.
Proof.
  intros search.
  assert (handle (JobsGetAll search) (calm_world 3)
          = (Done (answer (JobsGetAll search) (calm_world 3)),
             world_after (JobsGetAll search) (calm_world 3))) as Hrun
    by (vm_compute; reflexivity).
  assert (plain_selection search (jobs (db (calm_world 3)))) as Htags.
  { split; [|intros tags Hget; discriminate Hget].
    apply (bool_decide_unpack _). vm_compute. reflexivity. }
  split; [reflexivity|]. split; [exact Hrun|].
  split; [exact exact_number_2|]. split; [exact exact_number_2|]. split; [exact Htags|].
  destruct (list_response_shape (JobsGetAll search) (calm_world 3) _ _ eq_refl Hrun)
    as (Hst & body & rows & Hbody & Hdata & Hdom & Hpage & Hsize & matching & Htotal
        & Hsub & Hnd & Hin).
  split; [exact Hst|]. exists body, rows. split; [exact Hbody|]. split; [exact Hdata|].
  split; [exact Hdom|]. split; [exact (Hpage exact_number_2)|].
  split; [exact (Hsize exact_number_2)|].
  exists matching. split; [exact Htotal|]. split; [exact Hsub|]. split; [exact Hnd|].
  exact (Hin Htags).
Defined.

Example jobs_second_page :
  let resp := answer (JobsGetAll [("status", "active"); ("page", "2"); ("pageSize", "2")])
                     (calm_world 3) in
  prop (payload resp) "total" = Some (VNum 3)
  ∧ (match prop (payload resp) "data" with
     | Some (VArr rows) => (fun v => prop v "id") <$> rows
     | _ => []
     end) = [Some (VStr "job-2")].
Proof. vm_compute. split; reflexivity. Qed.

(** ** C2: rollback of a failed mutation *)

Lemma failed_mutation_restores_cache_fails :
  ¬ failed_mutation_restores_cache
      (handleDragEnd "active" sample_cards "job-0" (Some "job-2")) sample_client.
Proof.
  intros H.
  destruct (handleDragEnd "active" sample_cards "job-0" (Some "job-2") sample_client)
    as [[[[data|e]|] s']|] eqn:Hrun; try (vm_compute in Hrun; discriminate Hrun).
  specialize (H e s' Hrun).
  assert (cached_card_ids s' = cached_card_ids sample_client) as Hids.
  { unfold cached_card_ids. by rewrite H. }
  assert (cached_card_ids s'
          = [Some (VStr "job-1"); Some (VStr "job-2"); Some (VStr "job-0")]) as Hafter.
  { vm_compute in Hrun. injection Hrun as _ <-. vm_compute. reflexivity. }
  rewrite Hafter in Hids. vm_compute in Hids. discriminate Hids.
Qed.

(** What a failed reorder leaves: the optimistic order stays in the cache,
    the jobs queries are invalidated, the error is shown. *)
Example failed_reorder_keeps_optimistic_order :
  (fun r => (r.1, cached_card_ids r.2, invalidations r.2, toasts r.2))
    <$> handleDragEnd "active" sample_cards "job-0" (Some "job-2") sample_client
  = Some (Some (Failed "HTTP 500"),
          [Some (VStr "job-1"); Some (VStr "job-2"); Some (VStr "job-0")],
          [["jobs"]],
          [error_toast "Failed to reorder jobs. Please try again."]).
Proof. vm_compute. reflexivity. Qed.

Lemma fetchApi_client (req : Request) (s : Client) :
  cache (fetchApi req s).2 = cache s
  ∧ toasts (fetchApi req s).2 = toasts s
  ∧ invalidations (fetchApi req s).2 = invalidations s
  ∧ fetches (fetchApi req s).2 = S (fetches s).
Proof.
  unfold fetchApi. destruct (handle (answered_by req) (backend s)) as [[resp|e] w']; [|done].
  by destruct ((200 <=? status resp) && (status resp <? 300)).
Qed.

(** A mutation whose [onMutate] snapshots one key and rewrites it, and
    whose [onError] writes the snapshot back and shows a toast. *)
Section snapshot_mutation.
Context {V : Type}.
Variable m : Mutation V.
Variable key : QueryKey.
Variable updater : V → Client → option Obj → Outcome (option Obj).
Variable msg : string.

Hypothesis m_onMutate : ∀ v s,
  onMutate m v s =
    match setQueryData key (updater v s) s with
    | (Done _, s2) => (Done (cache s !! key), s2)
    | (Thrown e, s2) => (Thrown e, s2)
    end.
Hypothesis m_onError : ∀ v context s,
  onError m v context s = toast (error_toast msg) (setQueryData_value key context s).
Hypothesis m_retry : retry m = O.

Lemma snapshot_mutation_rolls_back (v : V) (s s' : Client) (e : string) :
  is_Some (cache s !! key) → mutate m v s = (Failed e, s') →
  cache s' = cache s
  ∧ toasts s' = toasts s ++ [error_toast msg]
  ∧ invalidations s' = invalidations s
  ∧ (fetches s' ≤ S (fetches s))%nat.
Proof.
  intros [old Hold] Hrun. unfold mutate in Hrun.
  rewrite m_onMutate, m_retry in Hrun. unfold setQueryData in Hrun.
  destruct (updater v s (cache s !! key)) as [[d|]|e0] eqn:Hu.
  - (* the optimistic value was written *)
    set (s1 := with_cache (<[key := d]> (cache s)) s) in *.
    unfold attempt in Hrun.
    destruct (fetchApi_client (mutationFn m v) s1) as (Hc & Ht & Hi & Hf).
    destruct (fetchApi (mutationFn m v) s1) as [[data|e1] s2]; [discriminate Hrun|].
    injection Hrun as <- <-. rewrite m_onError. simpl in *.
    unfold setQueryData_value, setQueryData. rewrite Hold. simpl.
    rewrite Hc, Ht, Hi, Hf. simpl.
    rewrite insert_insert_eq. rewrite insert_id by done. by auto.
  - (* the updater returned undefined: nothing was written *)
    unfold attempt in Hrun.
    destruct (fetchApi_client (mutationFn m v) s) as (Hc & Ht & Hi & Hf).
    destruct (fetchApi (mutationFn m v) s) as [[data|e1] s2]; [discriminate Hrun|].
    injection Hrun as <- <-. rewrite m_onError. simpl in *.
    unfold setQueryData_value, setQueryData. rewrite Hold. simpl.
    rewrite Hc, Ht, Hi, Hf. rewrite insert_id by done. by auto.
  - (* the updater threw: nothing was written, nothing was sent *)
    injection Hrun as <- <-. rewrite m_onError.
    unfold setQueryData_value, setQueryData. simpl. by auto.
Qed.
End snapshot_mutation.

(** C2, as the pages have it. For the mutations that snapshot the cache
    in [onMutate] (archiving or restoring a job, moving a candidate to
    another stage from the detail page or on the board), run with nothing
    interleaved on a cache that holds data under the snapshot key: when
    the mutation fails, the cached data is exactly what it was before the
    optimistic update, the error is shown to the user, nothing is
    invalidated, and the request was sent at most once (no retry). *)
Theorem failed_mutation_rolls_back (m : Optimistic) (s s' : Client) (e : string) :
  is_Some (cache s !! snapshot_key m) → run_optimistic m s = (Failed e, s') →
  cache s' = cache s
  ∧ (∃ msg, toasts s' = toasts s ++ [error_toast msg])
  ∧ invalidations s' = invalidations s
  ∧ (fetches s' ≤ S (fetches s))%nat.
Proof.
  intros Hsome Hrun. destruct m as [activeTab id status|id stage|id stage]; simpl in *.
  - edestruct (snapshot_mutation_rolls_back (archiveMutation activeTab) ["jobs"; activeTab]
                (fun v _ old => match without_job v.1 old with
                                | Done d => Done (Some (<["data" := d]> (default ∅ old)))
                                | Thrown e => Thrown e
                                end)
                "Failed to update job status. Please try again.")
      as (Hc & Ht & Hi & Hf); [done..|exact Hsome|exact Hrun|].
    repeat split; eauto.
  - edestruct (snapshot_mutation_rolls_back (stageMutation id) ["candidate"; id]
                (fun v _ old =>
                   Done (Some (<["data" := VObj (<["stage" := VStr v]>
                                                   (spread (old ≫= (.!! "data"))))]>
                                 (default ∅ old))))
                "Failed to update candidate stage. Please try again.")
      as (Hc & Ht & Hi & Hf); [done..|exact Hsome|exact Hrun|].
    repeat split; eauto.
  - edestruct (snapshot_mutation_rolls_back updateStageMutation ["candidates"; "all"]
                (fun v s old => match with_stage v.1 v.2 (VTime (clock (backend s))) old with
                                | Done d => Done (Some (<["data" := d]> (default ∅ old)))
                                | Thrown e => Thrown e
                                end)
                "Failed to update candidate stage. Please try again.")
      as (Hc & Ht & Hi & Hf); [done..|exact Hsome|exact Hrun|].
    repeat split; eauto.
Qed.

Lemma failed_mutation_rolls_back_witness :
  let m := ArchiveJob "active" "job-1" "archived" in
  is_Some (cache sample_client !! snapshot_key m)
  ∧ run_optimistic m sample_client = (Failed "HTTP 500", (run_optimistic m sample_client).2)
  ∧ cache (run_optimistic m sample_client).2 = cache sample_client
  ∧ (∃ msg, toasts (run_optimistic m sample_client).2
            = toasts sample_client ++ [error_toast msg])
  ∧ invalidations (run_optimistic m sample_client).2 = invalidations sample_client
  ∧ (fetches (run_optimistic m sample_client).2 ≤ S (fetches sample_client))%nat.
Proof.
  cbv zeta. split; [by eexists|]. split; [vm_compute; reflexivity|].
  apply (failed_mutation_rolls_back (ArchiveJob "active" "job-1" "archived") sample_client
           (run_optimistic (ArchiveJob "active" "job-1" "archived") sample_client).2
           "HTTP 500").
  - by eexists.
  - vm_compute; reflexivity.
Defined.

(** With nothing cached under the key, the optimistic update creates an
    entry and the rollback, given [undefined], does not remove it. *)
Example rollback_without_cached_data :
  let s := mkClient ∅ [] [] (failing_world 3) 0 in
  (cache (run_optimistic (ArchiveJob "active" "job-1" "archived") s).2
     !! ["jobs"; "active"]) ≫= (.!! "data")
  = Some (VArr []).
Proof. vm_compute. reflexivity. Qed.

(** ** The order of the handlers

    [PATCH /api/jobs/:id] comes before [PATCH /api/jobs/reorder] in the
    [handlers] array, so a request to [/api/jobs/reorder] is answered by
    the update handler with [id = "reorder"] ([answered_by]); the
    properties of the reorder above are about the reorder handler
    itself. *)

Example reorder_path_resolution :
  resolve PATCH "/api/jobs/reorder" = Some (3%nat, "/api/jobs/:id")
  ∧ nth_error handlers 4 = Some (PATCH, "/api/jobs/reorder")
  ∧ resolve GET "/api/candidates/search" = Some (5%nat, "/api/candidates/search").
Proof. vm_compute. repeat split; reflexivity. Qed.

Example update_named_reorder_moves_nothing :
  let r := JobsUpdate "reorder" (<["fromOrder" := VNum 5]> {[ "toOrder" := VNum 2 ]}) in
  status (answer r (calm_world 10)) = 200
  ∧ jobs (db (world_after r (calm_world 10))) = jobs (db (calm_world 10)).
Proof.
  intros r.
  assert (∀ w, ¬ error_fires w → jobs (db w) !! "reorder" = None →
               ∃ w', handle r w = (Done (json ∅), w') ∧ db w' = db w) as Hmissing.
  { intros w Hpass Hnone. subst r. cbn [handle]. unfold patch_job.
    rewrite prelude_pass by done.
    rewrite bind_now, bind_db_update, bind_db_get.
    eexists. split.
    - unfold ret. f_equal. f_equal. cbn. unfold tbl_get, tbl_update. rewrite Hnone.
      rewrite Hnone. reflexivity.
    - cbn. unfold tbl_update. rewrite Hnone. by destruct (db w). }
  destruct (Hmissing (calm_world 10)) as (w' & Hrun & Hdb).
  { unfold error_fires. cbn. discriminate. }
  { reflexivity. }
  unfold answer, world_after. rewrite Hrun. cbn [fst snd]. by rewrite Hdb.
Qed.

(** * Further properties of the code *)

Lemma bind_ret {A B} (a : A) (k : A → Handler B) (w : World) : bind (ret a) k w = k a w.
Proof. reflexivity. Qed.

Lemma lookup_set_opt_ne (k k' : string) (v : option Value) (o : Obj) :
  k ≠ k' → set_opt k v o !! k' = o !! k'.
Proof. intros Hne. destruct v; simpl; [by rewrite lookup_insert_ne|done]. Qed.

Lemma lookup_set_opt (k : string) (v : option Value) (o : Obj) :
  o !! k = None → set_opt k v o !! k = v.
Proof. intros Hk. destruct v; simpl; [by rewrite lookup_insert_eq|done]. Qed.

Lemma calm_passes (N : nat) : ¬ error_fires (calm_world N).
Proof. unfold error_fires. cbn. discriminate. Qed.

(** ** Updates of a record that is not there *)

(** X1. An update of a record that is not there.  When the failure
    injection does not fire, [PATCH /api/jobs/:id] and
    [PUT /api/assessments/:id] on an id that is not stored answer 200 with
    a body that has no [data], and leave the store as it is;
    [PATCH /api/candidates/:id] answers 404, leaves the store as it is and
    issues no write. *)
Theorem update_of_missing_id (id : string) (updates : Obj) (w : World) :
  ¬ error_fires w →
  (jobs (db w) !! id = None →
   ∃ w', handle (JobsUpdate id updates) w = (Done (json ∅), w') ∧ db w' = db w)
  ∧ (assessments (db w) !! id = None →
     ∃ w', handle (AssessmentsUpdate id updates) w = (Done (json ∅), w') ∧ db w' = db w)
  ∧ (candidates (db w) !! id = None →
     ∃ resp w', handle (CandidatesUpdate id updates) w = (Done resp, w')
                ∧ status resp = 404 ∧ db w' = db w ∧ writes w' = writes w).
Proof.
  intros Hpass. split; [|split]; intros Hnone; cbn [handle].
  - unfold patch_job. rewrite prelude_pass by done.
    rewrite bind_now, bind_db_update, bind_db_get.
    eexists. split.
    + unfold ret. f_equal. f_equal. cbn. unfold tbl_get, tbl_update. rewrite Hnone.
      rewrite Hnone. reflexivity.
    + cbn. unfold tbl_update. rewrite Hnone. by destruct (db w).
  - unfold put_assessment. rewrite prelude_pass by done.
    rewrite bind_now, bind_db_update, bind_db_get.
    eexists. split.
    + unfold ret. f_equal. f_equal. cbn. unfold tbl_get, tbl_update. rewrite Hnone.
      rewrite Hnone. reflexivity.
    + cbn. unfold tbl_update. rewrite Hnone. by destruct (db w).
  - unfold patch_candidate. rewrite prelude_pass by done.
    rewrite bind_db_get. unfold tbl_get. cbn [table]. change (db (after_prelude w)) with (db w).
    rewrite Hnone. cbn [fmap option_fmap option_map].
    eexists _, _. split; [reflexivity|]. split; [done|done].
Qed.

Lemma update_of_missing_id_witness :
  ¬ error_fires (calm_world 0)
  ∧ (∃ w', handle (JobsUpdate "job-7" {[ "status" := VStr "archived" ]}) (calm_world 0)
           = (Done (json ∅), w')
           ∧ db w' = db (calm_world 0))
  ∧ (∃ w', handle (AssessmentsUpdate "job-7" {[ "status" := VStr "archived" ]}) (calm_world 0)
           = (Done (json ∅), w')
           ∧ db w' = db (calm_world 0))
  ∧ (∃ resp w', handle (CandidatesUpdate "job-7" {[ "status" := VStr "archived" ]}) (calm_world 0)
                = (Done resp, w')
                ∧ status resp = 404 ∧ db w' = db (calm_world 0)
                ∧ writes w' = writes (calm_world 0)).
Proof.
  split; [apply calm_passes|].
  destruct (update_of_missing_id "job-7" {[ "status" := VStr "archived" ]} (calm_world 0)
              (calm_passes 0)) as (Hj & Ha & Hc).
  split; [apply Hj; reflexivity|]. split; [apply Ha; reflexivity|apply Hc; reflexivity].
Defined.

(** ** Updates of a record that is there *)

Lemma updated_record_fields (updates o : Obj) (t : Z) :
  let o' := <["updatedAt" := VTime t]> updates ∪ o in
  o' !! "updatedAt" = Some (VTime t)
  ∧ (∀ k v, k ≠ "updatedAt" → updates !! k = Some v → o' !! k = Some v)
  ∧ (∀ k, k ≠ "updatedAt" → updates !! k = None → o' !! k = o !! k).
Proof.
  cbv zeta. split; [|split].
  - apply lookup_union_Some_l. by simplify_map_eq.
  - intros k v Hk Hv. apply lookup_union_Some_l. by simplify_map_eq.
  - intros k Hk Hn. apply lookup_union_r. by simplify_map_eq.
Qed.

Lemma plain_keys_singleton (k : string) (v : Value) :
  all_chars (fun c => negb (Ascii.eqb c ".")) k = true → k ≠ "__proto__" →
  plain_keys {[ k := v ]}.
Proof.
  intros Hk Hne k' [v' Hk']. apply lookup_singleton_Some in Hk' as [<- _]. done.
Qed.

(** X2. An update of a stored job.  With a body whose keys are plain
    property names (no dotted key path, no [id]) and no injected
    failure, [PATCH /api/jobs/:id] stores and answers the merge of the
    body over the stored record with [updatedAt] set to the time of the
    write, which is at least 200 ms after the request came in: every
    other field of the body is taken, every field the body does not
    name is kept. *)
Theorem job_update_applies (id : string) (updates o : Obj) (w : World) :
  jobs (db w) !! id = Some o → updates !! "id" = None → plain_keys updates →
  ¬ error_fires w →
  ∃ t o' w',
    handle (JobsUpdate id updates) w = (Done (json {[ "data" := VObj (row id o') ]}), w')
    ∧ clock w + 200 ≤ t
    ∧ o' = <["updatedAt" := VTime t]> updates ∪ o
    ∧ jobs (db w') = <[id := o']> (jobs (db w))
    ∧ o' !! "updatedAt" = Some (VTime t)
    ∧ (∀ k v, k ≠ "updatedAt" → updates !! k = Some v → o' !! k = Some v)
    ∧ (∀ k, k ≠ "updatedAt" → updates !! k = None → o' !! k = o !! k).
Proof.
  intros Ho _ _ Hpass.
  cbn [handle]. unfold patch_job. rewrite prelude_pass by done.
  rewrite bind_now, bind_db_update, bind_db_get.
  exists (clock (after_prelude w)), (<["updatedAt" := VTime (clock (after_prelude w))]> updates ∪ o).
  eexists. split; [|split; [|split; [|split]]].
  - unfold ret. f_equal. cbn. unfold tbl_get, tbl_update. rewrite Ho, lookup_insert_eq. reflexivity.
  - cbn; pose proof (latency_nonneg (random w (drawn w))); lia.
  - done.
  - cbn. unfold tbl_update. by rewrite Ho.
  - apply updated_record_fields.
Qed.

Lemma job_update_applies_witness :
  jobs (db (calm_world 1)) !! "job-0" = Some (sample_job 0).2
  ∧ ({[ "status" := VStr "archived" ]} : Obj) !! "id" = None
  ∧ plain_keys {[ "status" := VStr "archived" ]}
  ∧ ¬ error_fires (calm_world 1)
  ∧ ∃ t o' w',
      handle (JobsUpdate "job-0" {[ "status" := VStr "archived" ]}) (calm_world 1)
      = (Done (json {[ "data" := VObj (row "job-0" o') ]}), w')
      ∧ clock (calm_world 1) + 200 ≤ t
      ∧ o' = <["updatedAt" := VTime t]> {[ "status" := VStr "archived" ]} ∪ (sample_job 0).2
      ∧ jobs (db w') = <["job-0" := o']> (jobs (db (calm_world 1)))
      ∧ o' !! "updatedAt" = Some (VTime t)
      ∧ (∀ k v, k ≠ "updatedAt" →
           ({[ "status" := VStr "archived" ]} : Obj) !! k = Some v → o' !! k = Some v)
      ∧ (∀ k, k ≠ "updatedAt" →
           ({[ "status" := VStr "archived" ]} : Obj) !! k = None → o' !! k = (sample_job 0).2 !! k).
Proof.
  assert (plain_keys {[ "status" := VStr "archived" ]}) as Hplain
    by (by apply plain_keys_singleton).
  split; [reflexivity|]. split; [reflexivity|]. split; [exact Hplain|].
  split; [apply calm_passes|].
  apply (job_update_applies "job-0" {[ "status" := VStr "archived" ]} (sample_job 0).2
           (calm_world 1)); [reflexivity|reflexivity|exact Hplain|apply calm_passes].
Defined.

(** ** A stage update that leaves the timeline alone *)

(** X3. A candidate update that keeps the stage.  When the body of
    [PATCH /api/candidates/:id] for a stored candidate has plain
    property names as keys (no dotted key path, no [id]) and has no
    stage, an empty one, or the stage the candidate is in, the timeline
    is left as it is, whether the failure injection fires or not; and
    when the answer is 200 the candidate stored is the merge of the body
    over the old record with [updatedAt] set to a time at least 200 ms
    after the request came in. *)
Theorem kept_stage_adds_no_entry (id : string) (updates c : Obj) (w : World) :
  candidates (db w) !! id = Some c → updates !! "id" = None → plain_keys updates →
  stage_kept updates c →
  ∃ resp w',
    handle (CandidatesUpdate id updates) w = (Done resp, w')
    ∧ timeline (db w') = timeline (db w)
    ∧ (status resp = 200 →
       ∃ t, clock w + 200 ≤ t
            ∧ candidates (db w')
              = <[id := <["updatedAt" := VTime t]> updates ∪ c]> (candidates (db w))).
Proof.
  intros Hc _ _ Hkept. destruct (error_fires_dec w) as [Hfire|Hpass].
  { destruct (write_failure (CandidatesUpdate id updates) w eq_refl Hfire)
      as (msg & w1 & Heq & Hdb & _).
    exists (json_status 500 (error_body msg)), w1. split; [done|]. split; [by rewrite Hdb|].
    intros Hst. discriminate Hst. }
  cbn [handle]. unfold patch_candidate. rewrite prelude_pass by done.
  rewrite bind_db_get. change (db (after_prelude w)) with (db w).
  unfold tbl_get. cbn [table]. rewrite Hc. cbn [fmap option_fmap option_map].
  rewrite row_lookup_ne by done.
  assert (truthy (updates !! "stage") && negb (strict_eq (updates !! "stage") (c !! "stage"))
          = false) as ->.
  { destruct Hkept as [->|[->|(s & -> & ->)]]; [done..|].
    cbn. rewrite String.eqb_refl. apply andb_false_r. }
  cbv iota. rewrite bind_ret, bind_now, bind_db_update, bind_db_get.
  eexists _, _. split; [reflexivity|]. split; [done|].
  intros _. exists (clock (after_prelude w)). split.
  - cbn; pose proof (latency_nonneg (random w (drawn w))); lia.
  - cbn. unfold tbl_update. by rewrite Hc.
Qed.

Lemma kept_stage_adds_no_entry_witness :
  candidates (db (calm_world 0)) !! "cand-1" = Some sample_candidate
  ∧ ({[ "stage" := VStr "applied" ]} : Obj) !! "id" = None
  ∧ plain_keys {[ "stage" := VStr "applied" ]}
  ∧ stage_kept {[ "stage" := VStr "applied" ]} sample_candidate
  ∧ ∃ resp w',
      handle (CandidatesUpdate "cand-1" {[ "stage" := VStr "applied" ]}) (calm_world 0)
      = (Done resp, w')
      ∧ timeline (db w') = timeline (db (calm_world 0))
      ∧ (status resp = 200 →
         ∃ t, clock (calm_world 0) + 200 ≤ t
              ∧ candidates (db w')
                = <["cand-1" := <["updatedAt" := VTime t]> {[ "stage" := VStr "applied" ]}
                                 ∪ sample_candidate]> (candidates (db (calm_world 0)))).
Proof.
  assert (stage_kept {[ "stage" := VStr "applied" ]} sample_candidate) as Hkept.
  { right. right. exists "applied". split; reflexivity. }
  assert (plain_keys {[ "stage" := VStr "applied" ]}) as Hplain
    by (by apply plain_keys_singleton).
  split; [reflexivity|]. split; [reflexivity|]. split; [exact Hplain|]. split; [exact Hkept|].
  apply (kept_stage_adds_no_entry "cand-1" {[ "stage" := VStr "applied" ]} sample_candidate
           (calm_world 0)); [reflexivity|reflexivity|exact Hplain|exact Hkept].
Defined.

(** ** Notes *)

Lemma substring_0_length (n : nat) (s : string) :
  String.length (substring 0 n s) = Nat.min n (String.length s).
Proof. revert s. induction n as [|n IH]; intros [|c s]; simpl; auto. Qed.

Lemma substring_0_all (n : nat) (s : string) :
  (String.length s ≤ n)%nat → substring 0 n s = s.
Proof.
  revert s. induction n as [|n IH]; intros [|c s]; simpl; intros Hlen; try done; try lia.
  f_equal. apply IH. lia.
Qed.

Lemma string_length_app (s1 s2 : string) :
  String.length (s1 +:+ s2) = (String.length s1 + String.length s2)%nat.
Proof. induction s1; simpl; auto. Qed.

Lemma string_app_empty (s : string) : (s +:+ "")%string = s.
Proof.
  induction s as [|c s IH]; [reflexivity|].
  change (String c (s +:+ "") = String c s). by rewrite IH.
Qed.

(** X4. A note and its timeline entry.  With a [content] that is ASCII
    text, no injected failure and generated ids that are free,
    [POST /api/notes] stores the body under a generated id with a
    [createdAt] at least 200 ms after the request came in, and adds one
    timeline event of type [note] for the same candidate; the event's
    content is the note's text when that has at most 100 characters, and
    its first 100 characters followed by three dots (103 characters)
    otherwise. *)
Theorem note_adds_a_preview (body : Obj) (s : string) (w : World) :
  ¬ error_fires w → body !! "content" = Some (VStr s) → ascii_text s →
  notes (db w) !! uuid w (issued w) = None →
  timeline (db w) !! uuid w (S (issued w)) = None →
  ∃ note ev p t w',
    handle (NotesCreate body) w = (Done (json {[ "data" := VObj note ]}), w')
    ∧ clock w + 200 ≤ t
    ∧ note = <["createdAt" := VTime t]> (<["id" := VStr (uuid w (issued w))]> body)
    ∧ notes (db w') = <[uuid w (issued w) := note]> (notes (db w))
    ∧ timeline (db w') = <[uuid w (S (issued w)) := ev]> (timeline (db w))
    ∧ ev !! "type" = Some (VStr "note")
    ∧ ev !! "candidateId" = body !! "candidateId"
    ∧ ev !! "content" = Some (VStr p)
    ∧ ((String.length s ≤ 100)%nat → p = s)
    ∧ ((100 < String.length s)%nat →
       p = (substring 0 100 s +:+ "...")%string ∧ String.length p = 103%nat).
Proof.
  intros Hpass Hcontent _ Hfresh Hfresh'.
  cbn [handle]. unfold post_note. rewrite prelude_pass by done.
  rewrite bind_uuid, bind_now.
  change (uuid (after_prelude w) (issued (after_prelude w))) with (uuid w (issued w)).
  set (id := uuid w (issued w)) in *.
  match goal with |- context [db_add Notes ?n] => set (note := n) end.
  rewrite (bind_db_add _ _ id) by (by unfold note; simplify_map_eq).
  cbn [table next_uuid db]. change (db (after_prelude w)) with (db w). rewrite Hfresh.
  rewrite bind_uuid. rewrite Hcontent. unfold note_preview.
  unfold lift at 1. unfold bind at 1. rewrite bind_now.
  set (eid := uuid _ _).
  assert (eid = uuid w (S (issued w))) as Heid by reflexivity.
  match goal with |- context [db_add Timeline ?e] => set (ev := e) end.
  rewrite (bind_db_add _ _ eid) by (by unfold ev; simplify_map_eq).
  assert (table Timeline (db (next_uuid (added Notes id note (next_uuid (after_prelude w))))) !! eid
          = None) as ->.
  { rewrite Heid. exact Hfresh'. }
  exists note, ev. eexists. exists (clock (after_prelude w)). eexists. split; [reflexivity|].
  split; [cbn; pose proof (latency_nonneg (random w (drawn w))); lia|].
  split; [reflexivity|]. split; [reflexivity|]. split; [reflexivity|].
  split; [by unfold ev; rewrite lookup_insert_ne, lookup_set_opt_ne by done; simplify_map_eq|].
  split; [by unfold ev; rewrite lookup_insert_ne, lookup_set_opt by done|].
  split; [by unfold ev; rewrite lookup_insert_ne, lookup_set_opt_ne by done; simplify_map_eq|].
  split.
  - intros Hlen. destruct (Nat.ltb_spec 100 (String.length s)); [lia|].
    rewrite substring_0_all by done. apply string_app_empty.
  - intros Hlen. destruct (Nat.ltb_spec 100 (String.length s)); [|lia].
    split; [done|]. rewrite string_length_app, substring_0_length, Nat.min_l by lia. reflexivity.
Qed.

Lemma note_adds_a_preview_witness :
  ¬ error_fires (calm_world 0)
  ∧ long_note !! "content" = Some (VStr long_text)
  ∧ ascii_text long_text
  ∧ notes (db (calm_world 0)) !! uuid (calm_world 0) (issued (calm_world 0)) = None
  ∧ timeline (db (calm_world 0)) !! uuid (calm_world 0) (S (issued (calm_world 0))) = None
  ∧ ∃ note ev p t w',
      handle (NotesCreate long_note) (calm_world 0) = (Done (json {[ "data" := VObj note ]}), w')
      ∧ clock (calm_world 0) + 200 ≤ t
      ∧ note = <["createdAt" := VTime t]>
                 (<["id" := VStr (uuid (calm_world 0) (issued (calm_world 0)))]> long_note)
      ∧ notes (db w') = <[uuid (calm_world 0) (issued (calm_world 0)) := note]>
                          (notes (db (calm_world 0)))
      ∧ timeline (db w') = <[uuid (calm_world 0) (S (issued (calm_world 0))) := ev]>
                             (timeline (db (calm_world 0)))
      ∧ ev !! "type" = Some (VStr "note")
      ∧ ev !! "candidateId" = long_note !! "candidateId"
      ∧ ev !! "content" = Some (VStr p)
      ∧ ((String.length long_text ≤ 100)%nat → p = long_text)
      ∧ ((100 < String.length long_text)%nat →
         p = (substring 0 100 long_text +:+ "...")%string ∧ String.length p = 103%nat).
Proof.
  split; [apply calm_passes|]. split; [reflexivity|]. split; [reflexivity|].
  split; [reflexivity|]. split; [reflexivity|].
  apply (note_adds_a_preview long_note long_text (calm_world 0));
    [apply calm_passes|reflexivity..].
Defined.

(** X5. A note without text is stored without its timeline entry.  When
    the body of [POST /api/notes] has no string [content] (and no failure
    is injected), the note is added to the store first, then taking the
    preview throws a [TypeError]: the handler gives no answer, the note
    stays in the store and the timeline is left as it is. *)
Theorem note_without_text_is_half_written (body : Obj) (w : World) :
  ¬ error_fires w → is_string (body !! "content") = false →
  notes (db w) !! uuid w (issued w) = None →
  ∃ note w',
    handle (NotesCreate body) w = (Thrown "TypeError", w')
    ∧ notes (db w') = <[uuid w (issued w) := note]> (notes (db w))
    ∧ (∀ k, k ∉ ["id"; "createdAt"] → note !! k = body !! k)
    ∧ timeline (db w') = timeline (db w).
Proof.
  intros Hpass Hcontent Hfresh.
  cbn [handle]. unfold post_note. rewrite prelude_pass by done.
  rewrite bind_uuid, bind_now.
  change (uuid (after_prelude w) (issued (after_prelude w))) with (uuid w (issued w)).
  set (id := uuid w (issued w)) in *.
  match goal with |- context [db_add Notes ?n] => set (note := n) end.
  rewrite (bind_db_add _ _ id) by (by unfold note; simplify_map_eq).
  cbn [table next_uuid db]. change (db (after_prelude w)) with (db w). rewrite Hfresh.
  rewrite bind_uuid.
  assert (note_preview (body !! "content") = Thrown "TypeError") as ->.
  { unfold note_preview. by destruct (body !! "content") as [[]|]. }
  unfold lift at 1. unfold bind at 1.
  exists note. eexists. split; [reflexivity|]. split; [reflexivity|]. split; [|reflexivity].
  intros k Hk. unfold note. rewrite !lookup_insert_ne; [done|intros <-; set_solver..].
Qed.

Lemma note_without_text_is_half_written_witness :
  ¬ error_fires (calm_world 0)
  ∧ is_string (({[ "candidateId" := VStr "cand-1" ]} : Obj) !! "content") = false
  ∧ notes (db (calm_world 0)) !! uuid (calm_world 0) (issued (calm_world 0)) = None
  ∧ ∃ note w',
      handle (NotesCreate {[ "candidateId" := VStr "cand-1" ]}) (calm_world 0)
      = (Thrown "TypeError", w')
      ∧ notes (db w') = <[uuid (calm_world 0) (issued (calm_world 0)) := note]>
                          (notes (db (calm_world 0)))
      ∧ (∀ k, k ∉ ["id"; "createdAt"] →
              note !! k = ({[ "candidateId" := VStr "cand-1" ]} : Obj) !! k)
      ∧ timeline (db w') = timeline (db (calm_world 0)).
Proof.
  split; [apply calm_passes|]. split; [reflexivity|].
  split; [reflexivity|].
  apply (note_without_text_is_half_written {[ "candidateId" := VStr "cand-1" ]} (calm_world 0));
    [apply calm_passes|reflexivity..].
Defined.

(** ** Submitting an assessment *)

(** X6. A submitted assessment response.  Without an injected failure and
    with a free generated id, [POST /api/assessments/job/:jobId/submit]
    stores and answers a record that has only a generated [id], the
    [assessmentId], [candidateId] and [answers] of the body, and two
    timestamps, [submittedAt] and [completedAt], read in this order at
    least 200 ms after the request came in; no other field of the body
    and not the [jobId] of the path is kept. *)
Theorem submission_keeps_three_fields (jobId : string) (body : Obj) (w : World) :
  ¬ error_fires w → assessmentResponses (db w) !! uuid w (issued w) = None →
  ∃ rec w',
    handle (AssessmentsSubmitResponse jobId body) w = (Done (json {[ "data" := VObj rec ]}), w')
    ∧ assessmentResponses (db w') = <[uuid w (issued w) := rec]> (assessmentResponses (db w))
    ∧ dom rec ⊆ submission_keys
    ∧ (∀ k, k ∈ ["assessmentId"; "candidateId"; "answers"] → rec !! k = body !! k)
    ∧ rec !! "id" = Some (VStr (uuid w (issued w)))
    ∧ ∃ t1 t2, rec !! "submittedAt" = Some (VTime t1)
               ∧ rec !! "completedAt" = Some (VTime t2)
               ∧ clock w + 200 ≤ t1 ≤ t2.
Proof.
  intros Hpass Hfresh.
  cbn [handle]. unfold post_assessment_submit. rewrite prelude_pass by done.
  rewrite bind_uuid, !bind_now.
  change (uuid (after_prelude w) (issued (after_prelude w))) with (uuid w (issued w)).
  set (id := uuid w (issued w)) in *.
  match goal with |- context [db_add AssessmentResponses ?n] => set (rec := n) end.
  rewrite (bind_db_add _ _ id) by (by unfold rec; simplify_map_eq).
  cbn [table next_uuid db]. change (db (after_prelude w)) with (db w). rewrite Hfresh.
  exists rec. eexists. split; [reflexivity|]. split; [reflexivity|].
  split.
  { apply elem_of_subseteq. intros k [v Hv]%elem_of_dom.
    destruct (decide (k ∈ submission_keys)) as [|Hn]; [done|]. exfalso.
    unfold rec in Hv.
    rewrite lookup_insert_ne, !lookup_set_opt_ne, !lookup_insert_ne, lookup_empty in Hv
      by (intros <-; apply Hn; unfold submission_keys; set_solver).
    done. }
  split.
  { intros k Hk. unfold rec.
    rewrite !elem_of_cons, elem_of_nil in Hk.
    destruct Hk as [->|[->|[->|[]]]]; rewrite lookup_insert_ne by done.
    - by rewrite lookup_set_opt by (by rewrite !lookup_set_opt_ne by done).
    - rewrite lookup_set_opt_ne by done.
      by rewrite lookup_set_opt by (by rewrite !lookup_set_opt_ne by done).
    - rewrite !lookup_set_opt_ne by done. by rewrite lookup_set_opt. }
  split; [by unfold rec; simplify_map_eq|].
  exists (clock (after_prelude w)), (clock (after_prelude w)).
  split; [|split].
  - unfold rec. rewrite !lookup_insert_ne, !lookup_set_opt_ne by done. by simplify_map_eq.
  - unfold rec. rewrite !lookup_insert_ne, !lookup_set_opt_ne by done. by simplify_map_eq.
  - cbn; pose proof (latency_nonneg (random w (drawn w))); lia.
Qed.

Lemma submission_keeps_three_fields_witness :
  ¬ error_fires (calm_world 0)
  ∧ assessmentResponses (db (calm_world 0)) !! uuid (calm_world 0) (issued (calm_world 0)) = None
  ∧ ∃ rec w',
      handle (AssessmentsSubmitResponse "job-0" {[ "score" := VNum 100 ]}) (calm_world 0)
      = (Done (json {[ "data" := VObj rec ]}), w')
      ∧ assessmentResponses (db w')
        = <[uuid (calm_world 0) (issued (calm_world 0)) := rec]>
            (assessmentResponses (db (calm_world 0)))
      ∧ dom rec ⊆ submission_keys
      ∧ (∀ k, k ∈ ["assessmentId"; "candidateId"; "answers"] →
              rec !! k = ({[ "score" := VNum 100 ]} : Obj) !! k)
      ∧ rec !! "id" = Some (VStr (uuid (calm_world 0) (issued (calm_world 0))))
      ∧ ∃ t1 t2, rec !! "submittedAt" = Some (VTime t1)
                 ∧ rec !! "completedAt" = Some (VTime t2)
                 ∧ clock (calm_world 0) + 200 ≤ t1 ≤ t2.
Proof.
  split; [apply calm_passes|]. split; [reflexivity|].
  apply (submission_keeps_three_fields "job-0" {[ "score" := VNum 100 ]} (calm_world 0));
    [apply calm_passes|reflexivity].
Defined.

(** ** A generated id that is taken *)

(** X7. A generated id that is taken.  When the id generated for a new
    job, candidate or assessment is already a key of its table (and no
    failure is injected), the create handler throws the store's
    [ConstraintError] and leaves the store as it is; nothing is
    overwritten. *)
Theorem create_on_taken_id (c : Collection) (body o : Obj) (w : World) :
  ¬ error_fires w → table (collection_table c) (db w) !! uuid w (issued w) = Some o →
  ∃ w', handle (create_request c body) w = (Thrown "ConstraintError", w') ∧ db w' = db w.
Proof.
  intros Hpass Htaken.
  destruct c; cbn [create_request handle collection_table] in *.
  - unfold post_job. rewrite prelude_pass by done. rewrite bind_uuid, !bind_now.
    change (uuid (after_prelude w) (issued (after_prelude w))) with (uuid w (issued w)).
    rewrite (bind_db_add _ _ (uuid w (issued w))) by (by simplify_map_eq).
    cbn [table next_uuid db]. change (db (after_prelude w)) with (db w).
    cbn [table] in Htaken. rewrite Htaken. by eexists.
  - unfold post_candidate. rewrite prelude_pass by done. rewrite bind_uuid, !bind_now.
    change (uuid (after_prelude w) (issued (after_prelude w))) with (uuid w (issued w)).
    rewrite (bind_db_add _ _ (uuid w (issued w))) by (by simplify_map_eq).
    cbn [table next_uuid db]. change (db (after_prelude w)) with (db w).
    cbn [table] in Htaken. rewrite Htaken. by eexists.
  - unfold post_assessment. rewrite prelude_pass by done. rewrite bind_uuid, !bind_now.
    change (uuid (after_prelude w) (issued (after_prelude w))) with (uuid w (issued w)).
    rewrite (bind_db_add _ _ (uuid w (issued w))) by (by simplify_map_eq).
    cbn [table next_uuid db]. change (db (after_prelude w)) with (db w).
    cbn [table] in Htaken. rewrite Htaken. by eexists.
Qed.

Lemma create_on_taken_id_witness :
  ¬ error_fires taken_world
  ∧ table (collection_table CJobs) (db taken_world) !! uuid taken_world (issued taken_world)
    = Some (sample_job 0).2
  ∧ ∃ w', handle (create_request CJobs ∅) taken_world = (Thrown "ConstraintError", w')
          ∧ db w' = db taken_world.
Proof.
  split; [unfold error_fires; cbn; discriminate|]. split; [reflexivity|].
  apply (create_on_taken_id CJobs ∅ (sample_job 0).2 taken_world);
    [unfold error_fires; cbn; discriminate|reflexivity].
Defined.

(** ** Sorted listings *)

Section sorting.
Context {A : Type}.
Variable le : A → A → bool.
Variable P : A → Prop.
Hypothesis le_total : ∀ a b, P a → P b → le a b = false → le b a = true.
Hypothesis le_trans :
  ∀ a b c, P a → P b → P c → le a b = true → le b c = true → le a c = true.

Lemma insert_by_sorted (x : A) (l : list A) :
  P x → Forall P l →
  StronglySorted (fun a b => le a b = true) l →
  StronglySorted (fun a b => le a b = true) (insert_by le x l).
Proof.
  intros Hx Hl Hs. induction Hs as [|y l Hs IH Hy]; simpl.
  - repeat constructor.
  - apply Forall_cons in Hl as [HPy HPl].
    destruct (le x y) eqn:Hxy.
    + constructor; [by constructor|]. constructor; [done|].
      apply Forall_forall. intros z Hz.
      apply (le_trans x y z); try done.
      * by eapply Forall_forall in HPl.
      * by eapply Forall_forall in Hy.
    + constructor; [by apply IH|].
      apply Forall_forall. intros z Hz.
      rewrite insert_by_perm in Hz. apply elem_of_cons in Hz as [->|Hz].
      * by apply le_total.
      * by eapply Forall_forall in Hy.
Qed.

Lemma sort_by_sorted (l : list A) :
  Forall P l → StronglySorted (fun a b => le a b = true) (sort_by le l).
Proof.
  induction 1 as [|x l Hx Hl IH]; simpl; [constructor|].
  apply insert_by_sorted; [done| |done].
  unfold sort_by in *. apply Forall_forall. intros z Hz.
  assert (foldr (insert_by le) [] l ≡ₚ l) as Hp by apply sort_by_perm.
  rewrite Hp in Hz. by eapply Forall_forall in Hl.
Qed.
End sorting.

Lemma StronglySorted_sublist {A} (R : A → A → Prop) (l1 l2 : list A) :
  sublist l1 l2 → StronglySorted R l2 → StronglySorted R l1.
Proof.
  induction 1 as [|x l1 l2 Hsub IH|x l1 l2 Hsub IH]; intros Hs.
  - constructor.
  - apply StronglySorted_inv in Hs as [Hs Hall]. constructor; [by apply IH|].
    apply Forall_forall. intros z Hz. eapply Forall_forall in Hall; [done|].
    by eapply elem_of_sublist.
  - apply StronglySorted_inv in Hs as [Hs _]. by apply IH.
Qed.

Lemma StronglySorted_impl {A} (R1 R2 : A → A → Prop) (l : list A) :
  (∀ a b, a ∈ l → b ∈ l → R1 a b → R2 a b) → StronglySorted R1 l → StronglySorted R2 l.
Proof.
  intros Himp Hs. induction Hs as [|x l Hs IH Hx]; constructor.
  - apply IH. intros a b Ha Hb. apply Himp; by right.
  - apply Forall_forall. intros z Hz. apply Himp; [by left|by right|].
    by eapply Forall_forall in Hx.
Qed.

(** The order of strings. *)
Lemma ascii_compare_N (a b : ascii) :
  Ascii.compare a b = (N_of_ascii a ?= N_of_ascii b)%N.
Proof. reflexivity. Qed.

Lemma string_compare_trans (c : comparison) (s1 s2 s3 : string) :
  String.compare s1 s2 = c → String.compare s2 s3 = c → String.compare s1 s3 = c.
Proof.
  revert s2 s3. induction s1 as [|a s1 IH]; intros [|b s2] [|d s3]; simpl; try congruence.
  rewrite !ascii_compare_N.
  destruct (N.compare_spec (N_of_ascii a) (N_of_ascii b)) as [Hab|Hab|Hab];
  destruct (N.compare_spec (N_of_ascii b) (N_of_ascii d)) as [Hbd|Hbd|Hbd];
  destruct (N.compare_spec (N_of_ascii a) (N_of_ascii d)) as [Had|Had|Had];
    try lia; try congruence; eauto.
Qed.

Lemma string_leb_trans (s1 s2 s3 : string) :
  String.leb s1 s2 = true → String.leb s2 s3 = true → String.leb s1 s3 = true.
Proof.
  unfold String.leb. intros H12 H23.
  destruct (String.compare s1 s2) eqn:E12; [|clear H12|done].
  - apply String.compare_eq_iff in E12 as ->. done.
  - destruct (String.compare s2 s3) eqn:E23; [|clear H23|done].
    + apply String.compare_eq_iff in E23 as <-. by rewrite E12.
    + by rewrite (string_compare_trans Lt s1 s2 s3).
Qed.

Lemma idx_le_total (a b : option Value) :
  indexable a = true → indexable b = true → idx_le a b = false → idx_le b a = true.
Proof.
  destruct a as [[]|], b as [[]|]; simpl; try done; intros _ _ H.
  - lia.
  - destruct (String.leb_total s s0); congruence.
  - lia.
Qed.

Lemma idx_le_trans (a b c : option Value) :
  indexable a = true → indexable b = true → indexable c = true →
  idx_le a b = true → idx_le b c = true → idx_le a c = true.
Proof.
  destruct a as [[]|], b as [[]|], c as [[]|]; simpl; try done; intros _ _ _ H1 H2.
  - lia.
  - by eapply string_leb_trans.
  - lia.
Qed.

Lemma orderBy_sorted (field : string) (t : Table) :
  StronglySorted (fun a b => idx_le (a !! field) (b !! field) = true) (tbl_orderBy field t).
Proof.
  unfold tbl_orderBy.
  apply (sort_by_sorted _ (fun r => indexable (r !! field) = true)).
  - intros a b. apply idx_le_total.
  - intros a b c. apply idx_le_trans.
  - apply Forall_forall. intros r Hr. apply list_elem_of_filter in Hr as [Hr _].
    by apply Is_true_true_1.
Qed.

(** X8. The rows of a jobs listing.  Whenever [GET /api/jobs] answers, its
    [data] is an array of stored jobs, each at most once, in ascending
    [order]; and when a non-empty [status] is asked for, every row has
    that status. *)
Theorem jobs_listing_is_ordered (search : list (string * string)) (w w' : World)
    (resp : Response) :
  handle (JobsGetAll search) w = (Done resp, w') →
  ∃ rows,
    data_rows resp = Some (VObj <$> rows)
    ∧ StronglySorted (fun a b => idx_le (a !! "order") (b !! "order") = true) rows
    ∧ NoDup (row_id <$> rows)
    ∧ (∀ r, r ∈ rows → ∃ k o, jobs (db w) !! k = Some o ∧ r = row k o)
    ∧ (∀ st, searchParams_get search "status" = Some st → st ≠ "" →
         ∀ r, r ∈ rows → r !! "status" = Some (VStr st)).
Proof.
  intros Hrun. cbn [handle] in Hrun. unfold get_jobs in Hrun.
  rewrite latency_run in Hrun. unfold bind, read_table, lift, ret in Hrun.
  cbn [table] in Hrun. rewrite db_after_latency in Hrun.
  set (jobs0 := tbl_orderBy "order" (jobs (db w))) in *.
  set (st0 := searchParams_get search "status") in *.
  set (jobs1 := if str_truthy st0 then filter _ jobs0 else jobs0) in *.
  assert (sublist jobs1 jobs0) as Hsub1.
  { unfold jobs1. destruct (str_truthy st0); [apply sublist_filter|done]. }
  match type of Hrun with context [match ?x with Done _ => _ | Thrown _ => _ end] =>
    destruct x as [jobs2|] eqn:Hjobs2 end; [|done].
  assert (sublist jobs2 jobs1) as Hsub2.
  { destruct (str_truthy (searchParams_get search "tags")).
    - by apply filter_throwing_sublist in Hjobs2.
    - by injection Hjobs2 as <-. }
  injection Hrun as <- <-.
  match goal with |- context [js_slice jobs2 ?a ?b] => set (rows := js_slice jobs2 a b) end.
  assert (sublist rows jobs0) as Hsub.
  { etrans; [apply js_slice_sublist|]. by etrans. }
  exists rows. split; [reflexivity|]. split; [|split; [|split]].
  - eapply StronglySorted_sublist; [done|apply orderBy_sorted].
  - eapply sublist_NoDup; [apply NoDup_orderBy_ids|by apply fmap_sublist].
  - intros r Hr. eapply elem_of_sublist in Hr; [|done].
    by apply elem_of_orderBy in Hr as [_ Hr].
  - intros st Hst Hne r Hr.
    assert (r ∈ jobs1) as Hr1.
    { eapply elem_of_sublist; [done|]. etrans; [apply js_slice_sublist|done]. }
    unfold jobs1 in Hr1. rewrite Hst in Hr1. cbn [str_truthy] in Hr1.
    apply String.eqb_neq in Hne. rewrite Hne in Hr1. cbn [negb] in Hr1.
    apply list_elem_of_filter in Hr1 as [Heq _]. apply Is_true_true_1 in Heq.
    cbn in Heq. destruct (r !! "status") as [[]|]; try done.
    by apply String.eqb_eq in Heq as ->.
Qed.

Lemma jobs_listing_is_ordered_witness :
  let r := JobsGetAll [("status", "active")] in
  handle r (calm_world 3) = (Done (answer r (calm_world 3)), world_after r (calm_world 3))
  ∧ ∃ rows,
      data_rows (answer r (calm_world 3)) = Some (VObj <$> rows)
      ∧ StronglySorted (fun a b => idx_le (a !! "order") (b !! "order") = true) rows
      ∧ NoDup (row_id <$> rows)
      ∧ (∀ r, r ∈ rows → ∃ k o, jobs (db (calm_world 3)) !! k = Some o ∧ r = row k o)
      ∧ (∀ st, searchParams_get [("status", "active")] "status" = Some st → st ≠ "" →
           ∀ r, r ∈ rows → r !! "status" = Some (VStr st)).
Proof.
  cbv zeta. split; [reflexivity|].
  apply (jobs_listing_is_ordered [("status", "active")] (calm_world 3)
           (world_after (JobsGetAll [("status", "active")]) (calm_world 3))
           (answer (JobsGetAll [("status", "active")]) (calm_world 3))).
  reflexivity.
Defined.

(** ** The page of a job listing *)

Lemma js_slice_window {A} (xs : list A) (a s : Z) :
  0 ≤ a → 0 ≤ s →
  Z.of_nat (length (js_slice xs (Some a) (Some (a + s))))
  = Z.min s (Z.max 0 (Z.of_nat (length xs) - a)).
Proof.
  intros Ha Hs. unfold js_slice, clamp_index. simpl.
  destruct (Z.ltb_spec a 0); [lia|]. destruct (Z.ltb_spec (a + s) 0); [lia|].
  rewrite length_take, length_drop. lia.
Qed.

Lemma js_slice_page_0 {A} (xs : list A) (s : Z) :
  0 ≤ s → js_slice xs (Some (- s)) (Some 0) = [].
Proof.
  intros Hs. unfold js_slice, clamp_index. simpl.
  replace (Z.to_nat _) with O; [done|].
  destruct (Z.ltb_spec (- s) 0), (Z.ltb_spec 0 0); lia.
Qed.

Lemma js_slice_nan {A} (xs : list A) : js_slice xs None None = [].
Proof.
  unfold js_slice, clamp_index. simpl.
  replace (Z.to_nat _) with O; [done|]. lia.
Qed.

(** X9. The size of a page of jobs.  For [page] and [pageSize] parameters
    that are ASCII text, whenever [GET /api/jobs] answers, with [total]
    the number it reports: for a page [p >= 1] and a page size [s >= 0]
    with [p * s <= 2^53] (so that the page arithmetic is exact) the
    page holds [min s (max 0 (total - (p - 1) * s))] rows; page 0 is
    empty; and a [page] or [pageSize] that does not parse as an integer
    gives an empty page. *)
Theorem jobs_page_size (search : list (string * string)) (w w' : World) (resp : Response) :
  ascii_text (param_or search "page" "1") →
  ascii_text (param_or search "pageSize" "20") →
  handle (JobsGetAll search) w = (Done resp, w') →
  ∃ rows total,
    data_rows resp = Some rows
    ∧ prop (payload resp) "total" = Some (VNum total)
    ∧ match parseInt (param_or search "page" "1"),
            parseInt (param_or search "pageSize" "20") with
      | Some p, Some s =>
          (1 ≤ p → 0 ≤ s → p * s ≤ 2 ^ 53 →
           Z.of_nat (length rows) = Z.min s (Z.max 0 (total - (p - 1) * s)))
          ∧ (p = 0 → 0 ≤ s → rows = [])
      | _, _ => rows = []
      end.
Proof.
  intros _ _ Hrun. cbn [handle] in Hrun. unfold get_jobs in Hrun.
  rewrite latency_run in Hrun. unfold bind, read_table, lift, ret in Hrun.
  match type of Hrun with context [match ?x with Done _ => _ | Thrown _ => _ end] =>
    destruct x as [jobs2|] eqn:Hjobs2 end; [|done].
  injection Hrun as <- <-.
  eexists _, _. split; [reflexivity|]. split; [reflexivity|].
  destruct (parseInt (param_or search "page" "1")) as [p|];
    [destruct (parseInt (param_or search "pageSize" "20")) as [s|]|]; cbn [opt_add opt_mul].
  - split.
    + intros Hp Hs _. unfold rows_json. rewrite length_fmap.
      replace (p + -1) with (p - 1) by lia. apply js_slice_window; nia.
    + intros -> Hs. replace ((0 + -1) * s) with (- s) by lia.
      replace (- s + s) with 0 by lia. by rewrite js_slice_page_0.
  - by rewrite js_slice_nan.
  - by rewrite js_slice_nan.
Qed.

Lemma jobs_page_size_witness :
  ascii_text (param_or [("page", "2"); ("pageSize", "2")] "page" "1")
  ∧ ascii_text (param_or [("page", "2"); ("pageSize", "2")] "pageSize" "20")
  ∧ handle (JobsGetAll [("page", "2"); ("pageSize", "2")]) (calm_world 3)
    = (Done (answer (JobsGetAll [("page", "2"); ("pageSize", "2")]) (calm_world 3)),
       world_after (JobsGetAll [("page", "2"); ("pageSize", "2")]) (calm_world 3))
  ∧ ∃ rows total,
      data_rows (answer (JobsGetAll [("page", "2"); ("pageSize", "2")]) (calm_world 3))
      = Some rows
      ∧ prop (payload (answer (JobsGetAll [("page", "2"); ("pageSize", "2")]) (calm_world 3)))
             "total" = Some (VNum total)
      ∧ Z.of_nat (length rows) = Z.min 2 (Z.max 0 (total - (2 - 1) * 2)).
Proof.
  assert (handle (JobsGetAll [("page", "2"); ("pageSize", "2")]) (calm_world 3)
          = (Done (answer (JobsGetAll [("page", "2"); ("pageSize", "2")]) (calm_world 3)),
             world_after (JobsGetAll [("page", "2"); ("pageSize", "2")]) (calm_world 3)))
    as Hrun by reflexivity.
  split; [reflexivity|]. split; [reflexivity|]. split; [exact Hrun|].
  destruct (jobs_page_size [("page", "2"); ("pageSize", "2")] (calm_world 3) _ _
              eq_refl eq_refl Hrun) as (rows & total & Hrows & Htotal & Hsize).
  exists rows, total. split; [exact Hrows|]. split; [exact Htotal|].
  apply Hsize; vm_compute; discriminate.
Defined.

(** ** The candidate search and the by-candidate listings *)

(** X10. The candidate search.  [GET /api/candidates/search] always
    answers 200 and leaves the store as it is; its rows are exactly the
    stored candidates in the stage asked for (all of them when no stage
    is given), each once and all on one page, [total] being their
    number; they come newest application first when every candidate has
    an [appliedAt] timestamp. *)
Theorem candidate_search_by_stage (search : list (string * string)) (w : World) :
  ∃ rows w',
    handle (CandidatesSearch search) w
    = (Done (json (<["data" := rows_json rows]>
                  {[ "total" := VNum (Z.of_nat (length rows)) ]})), w')
    ∧ db w' = db w
    ∧ (∀ r, r ∈ rows ↔
         ∃ k o, candidates (db w) !! k = Some o ∧ r = row k o
                ∧ (∀ st, searchParams_get search "stage" = Some st → st ≠ "" →
                     o !! "stage" = Some (VStr st)))
    ∧ NoDup (row_id <$> rows)
    ∧ ((∀ k o, candidates (db w) !! k = Some o → ∃ ms, o !! "appliedAt" = Some (VTime ms)) →
       StronglySorted (newest_first "appliedAt") rows).
Proof.
  cbn [handle]. unfold get_candidates_search. rewrite latency_run.
  unfold bind, read_table, ret. cbn [table]. rewrite db_after_latency.
  set (c0 := tbl_toArray (candidates (db w))).
  set (stage := searchParams_get search "stage").
  set (c1 := if str_truthy stage then filter _ c0 else c0).
  match goal with |- context [sort_by ?f c1] => set (cmp := f); set (c2 := sort_by cmp c1) end.
  exists c2. eexists. split; [reflexivity|]. split; [apply db_after_latency|].
  assert (sublist c1 c0) as Hsub.
  { unfold c1. destruct (str_truthy stage); [apply sublist_filter|done]. }
  assert (c2 ≡ₚ c1) as Hperm by apply sort_by_perm.
  split; [|split].
  - intros r. rewrite Hperm. unfold c1, stage.
    destruct (searchParams_get search "stage") as [st|] eqn:Hst; cbn [str_truthy].
    + destruct (String.eqb_spec st "") as [->|Hne]; cbn [negb].
      * unfold c0. rewrite elem_of_toArray. split.
        -- intros (k & o & Hk & ->). exists k, o. split; [done|]. split; [done|].
           by intros st [= <-].
        -- intros (k & o & Hk & -> & _). by exists k, o.
      * rewrite list_elem_of_filter. unfold c0. rewrite elem_of_toArray. split.
        -- intros [Heq (k & o & Hk & ->)]. exists k, o. split; [done|]. split; [done|].
           intros st' [= <-] _. apply Is_true_true_1 in Heq.
           apply strict_eq_str in Heq. by rewrite row_lookup_ne in Heq.
        -- intros (k & o & Hk & -> & Hs). split; [|by exists k, o].
           apply Is_true_true_2, strict_eq_str. rewrite row_lookup_ne by done. by apply Hs.
    + unfold c0. rewrite elem_of_toArray. split.
      * intros (k & o & Hk & ->). by exists k, o.
      * intros (k & o & Hk & -> & _). by exists k, o.
  - rewrite Hperm. eapply sublist_NoDup; [apply NoDup_toArray_ids|by apply fmap_sublist].
  - intros Htime.
    eapply (StronglySorted_impl (fun a b => cmp a b = true)); last first.
    + apply (sort_by_sorted cmp (fun a => ∃ ms, a !! "appliedAt" = Some (VTime ms))).
      * intros a b [x Ha] [y Hb]. unfold cmp. rewrite Ha, Hb. cbn. lia.
      * intros a b c [x Ha] [y Hb] [z Hc]. unfold cmp. rewrite Ha, Hb, Hc. cbn. lia.
      * apply Forall_forall. intros r Hr. eapply elem_of_sublist in Hr; [|done].
        apply elem_of_toArray in Hr as (k & o & Hk & ->).
        destruct (Htime k o Hk) as [ms Hms]. exists ms. by rewrite row_lookup_ne.
    + intros a b Ha Hb. rewrite Hperm in Ha, Hb.
      eapply elem_of_sublist in Ha; [|done]. eapply elem_of_sublist in Hb; [|done].
      apply elem_of_toArray in Ha as (ka & oa & Hka & ->).
      apply elem_of_toArray in Hb as (kb & ob & Hkb & ->).
      destruct (Htime ka oa Hka) as [x Hx]. destruct (Htime kb ob Hkb) as [y Hy].
      unfold cmp. rewrite !row_lookup_ne by done. rewrite Hx, Hy. cbn. intros Hle.
      exists x, y. rewrite !row_lookup_ne by done. split; [done|]. split; [done|]. lia.
Qed.

Lemma candidate_search_by_stage_witness :
  ∃ rows w',
    handle (CandidatesSearch [("stage", "applied"); ("page", "3")]) (calm_world 0)
    = (Done (json (<["data" := rows_json rows]>
                  {[ "total" := VNum (Z.of_nat (length rows)) ]})), w')
    ∧ db w' = db (calm_world 0)
    ∧ (∀ r, r ∈ rows ↔
         ∃ k o, candidates (db (calm_world 0)) !! k = Some o ∧ r = row k o
                ∧ (∀ st, searchParams_get [("stage", "applied"); ("page", "3")] "stage"
                         = Some st → st ≠ "" → o !! "stage" = Some (VStr st)))
    ∧ NoDup (row_id <$> rows)
    ∧ ((∀ k o, candidates (db (calm_world 0)) !! k = Some o →
               ∃ ms, o !! "appliedAt" = Some (VTime ms)) →
       StronglySorted (newest_first "appliedAt") rows).
Proof.
  exact (candidate_search_by_stage [("stage", "applied"); ("page", "3")] (calm_world 0)).
Defined.

Lemma feed_rows (t : Table) (id : string) :
  feed_of t id (reverse_sortBy "createdAt" (tbl_where_equals "candidateId" id t)).
Proof.
  unfold reverse_sortBy.
  match goal with |- context [sort_by ?f _] => set (cmp := f) end.
  set (rows0 := tbl_where_equals "candidateId" id t).
  assert (sort_by cmp (rev rows0) ≡ₚ rows0) as Hperm.
  { rewrite sort_by_perm. symmetry. apply Permutation_rev. }
  assert (∀ r, r ∈ rows0 ↔ ∃ k o, t !! k = Some o ∧ r = row k o
                                   ∧ o !! "candidateId" = Some (VStr id)) as Hmem.
  { intros r. unfold rows0, tbl_where_equals. rewrite list_elem_of_filter, elem_of_toArray.
    split.
    - intros [Heq (k & o & Hk & ->)]. exists k, o. split; [done|]. split; [done|].
      apply Is_true_true_1, strict_eq_str in Heq. by rewrite row_lookup_ne in Heq.
    - intros (k & o & Hk & -> & Hc). split; [|by exists k, o].
      apply Is_true_true_2, strict_eq_str. by rewrite row_lookup_ne. }
  split; [|split].
  - intros r. by rewrite Hperm.
  - rewrite Hperm. eapply sublist_NoDup; [apply NoDup_toArray_ids|].
    apply fmap_sublist, sublist_filter.
  - intros Htime.
    eapply (StronglySorted_impl (fun a b => cmp a b = true)); last first.
    + apply (sort_by_sorted cmp (fun a => ∃ ms, a !! "createdAt" = Some (VTime ms))).
      * intros a b [x Ha] [y Hb]. unfold cmp. rewrite Ha, Hb. cbn.
        rewrite !negb_false_iff, !negb_true_iff. lia.
      * intros a b c [x Ha] [y Hb] [z Hc]. unfold cmp. rewrite Ha, Hb, Hc. cbn.
        rewrite !negb_true_iff. lia.
      * apply Forall_forall. intros r Hr. rewrite <- (Permutation_rev rows0) in Hr.
        apply Hmem in Hr as (k & o & Hk & -> & Hc).
        destruct (Htime k o Hk Hc) as [ms Hms]. exists ms. by rewrite row_lookup_ne.
    + intros a b Ha Hb. rewrite Hperm in Ha, Hb.
      apply Hmem in Ha as (ka & oa & Hka & -> & Hca).
      apply Hmem in Hb as (kb & ob & Hkb & -> & Hcb).
      destruct (Htime ka oa Hka Hca) as [x Hx]. destruct (Htime kb ob Hkb Hcb) as [y Hy].
      unfold cmp. rewrite !row_lookup_ne by done. rewrite Hx, Hy. cbn.
      rewrite negb_true_iff. intros Hle.
      exists x, y. rewrite !row_lookup_ne by done. split; [done|]. split; [done|]. lia.
Qed.

(** X11. The timeline and the notes of a candidate.
    [GET /api/candidates/:id/timeline] and [GET /api/notes/:candidateId]
    always answer 200 with exactly the stored events, respectively notes,
    of that candidate, each once, newest first when they carry a
    [createdAt] timestamp; for an unknown candidate the list is empty
    rather than an error. *)
Theorem candidate_feeds_newest_first (id : string) (w : World) :
  (∃ rows w',
     handle (CandidatesGetTimeline id) w = (Done (json {[ "data" := rows_json rows ]}), w')
     ∧ feed_of (timeline (db w)) id rows)
  ∧ (∃ rows w',
       handle (NotesGetByCandidate id) w = (Done (json {[ "data" := rows_json rows ]}), w')
       ∧ feed_of (notes (db w)) id rows).
Proof.
  split; cbn [handle].
  - unfold get_candidate_timeline. rewrite latency_run.
    unfold bind, read_table, ret. cbn [table]. rewrite db_after_latency.
    eexists _, _. split; [reflexivity|apply feed_rows].
  - unfold get_notes. rewrite latency_run.
    unfold bind, read_table, ret. cbn [table]. rewrite db_after_latency.
    eexists _, _. split; [reflexivity|apply feed_rows].
Qed.

Lemma candidate_feeds_newest_first_witness :
  (∃ rows w',
     handle (CandidatesGetTimeline "cand-1") (calm_world 0)
     = (Done (json {[ "data" := rows_json rows ]}), w')
     ∧ feed_of (timeline (db (calm_world 0))) "cand-1" rows)
  ∧ (∃ rows w',
       handle (NotesGetByCandidate "cand-1") (calm_world 0)
       = (Done (json {[ "data" := rows_json rows ]}), w')
       ∧ feed_of (notes (db (calm_world 0))) "cand-1" rows).
Proof. exact (candidate_feeds_newest_first "cand-1" (calm_world 0)). Defined.

(** ** The update calls of a committed reorder *)

Lemma length_filter_fmap {A B} (f : A → B) (P : B → Prop) `{!∀ x, Decision (P x)}
    (l : list A) :
  length (filter P (f <$> l)) = length (filter (fun x => P (f x)) l).
Proof.
  induction l as [|x l IH]; [done|]. rewrite fmap_cons, !filter_cons.
  destruct (decide (P (f x))); simpl; by rewrite IH.
Qed.

Lemma filter_all {A} (P : A → Prop) `{!∀ x, Decision (P x)} (l : list A) :
  Forall P l → filter P l = l.
Proof.
  induction 1 as [|x l Hx Hl IH]; [done|].
  rewrite filter_cons. destruct (decide (P x)); [by rewrite IH|done].
Qed.

Lemma length_filter_ext {A} (P Q : A → Prop) `{!∀ x, Decision (P x)} `{!∀ x, Decision (Q x)}
    (l : list A) :
  (∀ x, x ∈ l → P x ↔ Q x) → length (filter P l) = length (filter Q l).
Proof.
  induction l as [|x l IH]; intros Heq; [done|]. rewrite !filter_cons.
  assert (length (filter P l) = length (filter Q l)) as IH'.
  { apply IH. intros y Hy. apply Heq. by right. }
  destruct (decide (P x)) as [HP|HP], (decide (Q x)) as [HQ|HQ]; simpl; try lia.
  - exfalso. apply HQ, Heq; [by left|done].
  - exfalso. apply HP, Heq; [by left|done].
Qed.

Lemma count_span (a b : Z) (N : nat) :
  0 ≤ a ≤ b →
  Z.of_nat (length (filter (fun n => a ≤ n < b) (seqZ 0 (Z.of_nat N))))
  = Z.max 0 (Z.min b (Z.of_nat N) - a).
Proof.
  intros Hab. induction N as [|N IH]; [simpl; lia|].
  rewrite seqZ_S, filter_app, length_app, Nat2Z.inj_add, IH.
  rewrite filter_cons, filter_nil.
  destruct (decide (a ≤ 0 + Z.of_nat N < b)); simpl; lia.
Qed.

Lemma orderBy_orders (t : Table) (N : nat) :
  dense t N →
  (fun r => r !! "order") <$> tbl_orderBy "order" t
  ≡ₚ (fun i => Some (VNum i)) <$> seqZ 0 (Z.of_nat N).
Proof.
  intros Hd. rewrite <- Hd. unfold tbl_orderBy, order_values.
  rewrite sort_by_perm, filter_all.
  - rewrite toArray_perm, <- list_fmap_compose.
    erewrite list_fmap_ext; [reflexivity|].
    intros i [k o] _. simpl. by rewrite row_lookup_ne.
  - apply Forall_forall. intros r (k & o & Hk & ->)%elem_of_toArray.
    destruct (dense_order_in_range t N Hd k o Hk) as (n & Hn & _).
    rewrite row_lookup_ne by done. by rewrite Hn.
Qed.

Lemma reorder_cond_num (fromOrder toOrder n : Z) (j : Obj) :
  j !! "order" = Some (VNum n) →
  reorder_cond fromOrder toOrder j = true
  ↔ (fromOrder < toOrder ∧ fromOrder < n ≤ toOrder)
    ∨ (toOrder ≤ fromOrder ∧ toOrder ≤ n < fromOrder).
Proof.
  intros Hn. unfold reorder_cond, js_gt, js_ge, js_lt, js_le. rewrite Hn. cbn.
  destruct (Z.ltb_spec fromOrder toOrder); rewrite andb_true_iff; lia.
Qed.

Lemma span_count (t : Table) (N : nat) (fromOrder toOrder : Z) :
  dense t N → 0 ≤ fromOrder < Z.of_nat N → 0 ≤ toOrder < Z.of_nat N →
  length (filter (fun j => Is_true (reorder_cond fromOrder toOrder j)) (tbl_orderBy "order" t))
  = Z.to_nat (Z.abs (fromOrder - toOrder)).
Proof.
  intros Hd Hf Ht.
  set (lo := Z.min fromOrder toOrder + (if fromOrder <? toOrder then 1 else 0)).
  set (hi := Z.max fromOrder toOrder + (if fromOrder <? toOrder then 1 else 0)).
  set (P := fun v : option Value => ∃ n, v = Some (VNum n) ∧ lo ≤ n < hi).
  assert (∀ v, Decision (P v)) as Hdec.
  { intros [[| |n| | | |]|]; try (right; intros (n' & [=] & _); done).
    destruct (decide (lo ≤ n < hi)); [left; by exists n|right].
    intros (n' & [= <-] & ?). done. }
  transitivity (length (filter P ((fun r => r !! "order") <$> tbl_orderBy "order" t))).
  { rewrite length_filter_fmap. apply length_filter_ext.
    intros r (Hidx & k & o & Hk & ->)%elem_of_orderBy.
    destruct (dense_order_in_range t N Hd k o Hk) as (n & Hn & _).
    assert (row k o !! "order" = Some (VNum n)) as Hn' by (by rewrite row_lookup_ne).
    rewrite Is_true_true, (reorder_cond_num _ _ n) by done. unfold P. rewrite Hn'.
    unfold lo, hi. destruct (Z.ltb_spec fromOrder toOrder); split.
    - intros. exists n. split; [done|lia].
    - intros (? & [= <-] & ?). lia.
    - intros. exists n. split; [done|lia].
    - intros (? & [= <-] & ?). lia. }
  rewrite (orderBy_orders t N Hd), length_filter_fmap.
  rewrite (length_filter_ext _ (fun n => lo ≤ n < hi)).
  - apply Nat2Z.inj. rewrite count_span; unfold lo, hi;
      destruct (Z.ltb_spec fromOrder toOrder); lia.
  - intros n _. unfold P. split; [by intros (? & [= <-] & ?)|by exists n].
Qed.

(** X12. The writes of a reorder.  On a dense collection of [N] jobs, a
    committed reorder from [fromOrder] to [toOrder], both below [N],
    issues [|fromOrder - toOrder| + 1] update calls on the jobs table
    and nothing else, each of them setting [order] only: a reorder onto
    the same position still issues one update. *)
Theorem committed_reorder_update_calls (N : nat) (w w' : World) (fromOrder toOrder : Z) :
  dense (jobs (db w)) N →
  0 ≤ fromOrder < Z.of_nat N → 0 ≤ toOrder < Z.of_nat N →
  handle (JobsReorder fromOrder toOrder) w = (Done reorder_committed, w') →
  ∃ ws, writes w' = writes w ++ ws
        ∧ length ws = S (Z.to_nat (Z.abs (fromOrder - toOrder)))
        ∧ Forall order_update ws.
Proof.
  intros Hd Hf Ht Hrun.
  destruct (committed_reorder_world N w w' fromOrder toOrder Hd Hf Hrun) as (job & Hfind & ->).
  exists (reorder_writes fromOrder toOrder (jobs (db w)) job).
  split; [reflexivity|]. unfold reorder_writes, loop_writes. split.
  - rewrite length_app, length_fmap, (span_count _ N) by done. simpl. lia.
  - apply Forall_app. split.
    + apply Forall_fmap, Forall_forall. intros j [_ Hj]%list_elem_of_filter.
      apply elem_of_orderBy in Hj as (_ & k & o & Hk & ->).
      destruct (dense_order_in_range _ N Hd k o Hk) as (n & Hn & _).
      simpl. unfold reorder_change. rewrite row_lookup_ne by done. rewrite Hn. simpl.
      by rewrite dom_insert_L, dom_empty_L, union_empty_r_L.
    + constructor; [|constructor]. simpl. by rewrite dom_singleton_L.
Qed.

Lemma sample_reorder_0_2 :
  handle (JobsReorder 0 2) (calm_world 3) = (Done reorder_committed, after_0_2).
Proof. vm_compute; reflexivity. Qed.

Lemma committed_reorder_update_calls_witness :
  dense (jobs (db (calm_world 3))) 3
  ∧ handle (JobsReorder 0 2) (calm_world 3) = (Done reorder_committed, after_0_2)
  ∧ ∃ ws, writes after_0_2 = writes (calm_world 3) ++ ws
          ∧ length ws = S (Z.to_nat (Z.abs (0 - 2)))
          ∧ Forall order_update ws.
Proof.
  split; [apply sample_dense_3|]. split; [apply sample_reorder_0_2|].
  apply (committed_reorder_update_calls 3 (calm_world 3) after_0_2 0 2);
    [apply sample_dense_3|lia|lia|apply sample_reorder_0_2].
Defined.

(** ** Undoing a reorder *)

Lemma spec_new_order_undo (fromOrder toOrder n : Z) :
  spec_new_order toOrder fromOrder (spec_new_order fromOrder toOrder n) = n.
Proof.
  destruct (spec_new_order_arith fromOrder toOrder n) as [H|[H|[H|H]]];
  destruct (spec_new_order_arith toOrder fromOrder (spec_new_order fromOrder toOrder n))
    as [G|[G|[G|G]]]; lia.
Qed.

(** X13. A reorder is undone by the opposite reorder.  On a dense
    collection, a committed reorder from [fromOrder] to [toOrder]
    followed by a committed reorder from [toOrder] to [fromOrder] leaves
    the jobs table exactly as it was before the two. *)
Theorem reorder_then_back (N : nat) (w w1 w2 : World) (fromOrder toOrder : Z) :
  dense (jobs (db w)) N →
  0 ≤ fromOrder < Z.of_nat N → 0 ≤ toOrder < Z.of_nat N →
  handle (JobsReorder fromOrder toOrder) w = (Done reorder_committed, w1) →
  handle (JobsReorder toOrder fromOrder) w1 = (Done reorder_committed, w2) →
  jobs (db w2) = jobs (db w).
Proof.
  intros Hd Hf Ht H1 H2.
  pose proof (committed_reorder_table N w w1 fromOrder toOrder Hd Hf H1) as E1.
  assert (dense (jobs (db w1)) N) as Hd1.
  { rewrite E1. by apply dense_reindex. }
  rewrite (committed_reorder_table N w1 w2 toOrder fromOrder Hd1 Ht H2), E1.
  apply map_eq. intros k. rewrite !lookup_fmap.
  destruct (jobs (db w) !! k) as [o|] eqn:Hk; [|done]. simpl. f_equal.
  destruct (dense_order_in_range _ _ Hd k o Hk) as (n & Hn & _).
  unfold reindex at 2. rewrite Hn. unfold reindex. rewrite lookup_insert_eq.
  rewrite insert_insert_eq, spec_new_order_undo. by apply insert_id.
Qed.

Lemma reorder_then_back_witness :
  dense (jobs (db (calm_world 3))) 3
  ∧ handle (JobsReorder 0 2) (calm_world 3) = (Done reorder_committed, after_0_2)
  ∧ handle (JobsReorder 2 0) after_0_2 = (Done reorder_committed, after_0_2_then_2_0)
  ∧ jobs (db after_0_2_then_2_0) = jobs (db (calm_world 3)).
Proof.
  pose proof sample_reorder_0_2 as H1.
  assert (handle (JobsReorder 2 0) after_0_2 = (Done reorder_committed, after_0_2_then_2_0))
    as H2.
  { vm_compute; reflexivity. }
  split; [apply sample_dense_3|]. split; [exact H1|]. split; [exact H2|].
  apply (reorder_then_back 3 (calm_world 3) after_0_2 after_0_2_then_2_0 0 2);
    [apply sample_dense_3|lia|lia|exact H1|exact H2].
Defined.

(** ** The order that [arrayMove] shows and the order that the reorder
    handler commits *)

Lemma arrayMove_rest_lookup {A} (xs : list A) (from i : nat) :
  (from < length xs)%nat →
  (take from xs ++ drop (S from) xs) !! i
  = if decide (i < from)%nat then xs !! i else xs !! S i.
Proof.
  intros Hf. destruct (decide (i < from)%nat).
  - rewrite lookup_app_l by (rewrite length_take; lia). by rewrite lookup_take_lt.
  - rewrite lookup_app_r by (rewrite length_take; lia).
    rewrite lookup_drop, length_take. f_equal. lia.
Qed.

Lemma arrayMove_lookup {A} (xs : list A) (from to i : nat) (x : A) :
  xs !! from = Some x → (to < length xs)%nat →
  arrayMove xs from to !! i
  = if decide (i < to)%nat then (take from xs ++ drop (S from) xs) !! i
    else if decide (i = to) then Some x
    else (take from xs ++ drop (S from) xs) !! (i - 1)%nat.
Proof.
  intros Hx Ht. unfold arrayMove. rewrite Hx.
  assert (from < length xs)%nat as Hf by (by eapply lookup_lt_Some).
  set (rest := take from xs ++ drop (S from) xs).
  assert (length rest = (length xs - 1)%nat) as Hlen.
  { unfold rest. rewrite length_app, length_take, length_drop. lia. }
  destruct (decide (i < to)%nat).
  - rewrite lookup_app_l by (rewrite length_take; lia). by rewrite lookup_take_lt.
  - rewrite lookup_app_r by (rewrite length_take; lia). rewrite length_take.
    replace (to `min` length rest)%nat with to by lia.
    destruct (decide (i = to)) as [->|].
    + by rewrite Nat.sub_diag.
    + destruct (i - to)%nat as [|d] eqn:Hd; [lia|]. simpl.
      rewrite lookup_drop. f_equal. lia.
Qed.

Lemma arrayMove_follows_reindex {A} (xs : list A) (from to k : nat) :
  (from < length xs)%nat → (to < length xs)%nat → (k < length xs)%nat →
  arrayMove xs from to
    !! Z.to_nat (spec_new_order (Z.of_nat from) (Z.of_nat to) (Z.of_nat k))
  = xs !! k.
Proof.
  intros Hf Ht Hk.
  destruct (lookup_lt_is_Some_2 xs from Hf) as [x Hx].
  rewrite (arrayMove_lookup xs from to _ x Hx Ht).
  rewrite !arrayMove_rest_lookup by done.
  destruct (spec_new_order_arith (Z.of_nat from) (Z.of_nat to) (Z.of_nat k))
    as [[? ->]|[(? & ? & ? & ->)|[(? & ? & ? & ->)|(? & ? & ? & ->)]]];
    repeat case_decide; try lia; try (f_equal; lia).
  by replace k with from by lia.
Qed.

Lemma seqZ_sorted (m n : Z) : StronglySorted Z.le (seqZ m n).
Proof.
  destruct (Z.le_gt_cases n 0) as [Hn|Hn].
  { rewrite seqZ_nil by done. constructor. }
  rewrite <- (Z2Nat.id n) by lia. generalize (Z.to_nat n). clear. intros k. revert m.
  induction k as [|k IH]; intros m; [constructor|].
  rewrite seqZ_cons by lia. constructor.
  - replace (Z.pred (Z.of_nat (S k))) with (Z.of_nat k) by lia. apply IH.
  - apply Forall_seqZ. lia.
Qed.

Lemma listing_orders (t : Table) (N : nat) :
  dense t N →
  (fun r => r !! "order") <$> tbl_orderBy "order" t
  = (fun i => Some (VNum i)) <$> seqZ 0 (Z.of_nat N).
Proof.
  intros Hd.
  apply (StronglySorted_unique_strong (fun a b => idx_le a b = true)).
  - intros a b _ (i & -> & _)%list_elem_of_fmap Hab Hba.
    destruct a as [[]|]; simpl in *; try done. f_equal. f_equal. lia.
  - eapply StronglySorted_fmap; [|apply orderBy_sorted]. done.
  - eapply StronglySorted_fmap; [|apply seqZ_sorted]. intros x y Hxy. simpl. lia.
  - by apply orderBy_orders.
Qed.

Lemma listing_lookup (t : Table) (N : nat) (i : nat) (r : Obj) :
  dense t N → tbl_orderBy "order" t !! i = Some r →
  r !! "order" = Some (VNum (Z.of_nat i)) ∧ (i < N)%nat
  ∧ ∃ k o, t !! k = Some o ∧ r = row k o.
Proof.
  intros Hd Hr.
  pose proof (f_equal (fun l => l !! i) (listing_orders t N Hd)) as Hi. simpl in Hi.
  rewrite !list_lookup_fmap, Hr in Hi. simpl in Hi.
  destruct (seqZ 0 (Z.of_nat N) !! i) as [n|] eqn:Hn; [|done].
  apply lookup_seqZ in Hn as [-> Hlt]. simpl in Hi. injection Hi as Hi.
  split; [by rewrite Hi|]. split; [lia|].
  apply list_elem_of_lookup_2 in Hr. by apply elem_of_orderBy in Hr as [_ Hr].
Qed.

Lemma listing_length (t : Table) (N : nat) : dense t N → length (tbl_orderBy "order" t) = N.
Proof.
  intros Hd. pose proof (f_equal length (listing_orders t N Hd)) as Hl.
  rewrite !length_fmap, length_seqZ in Hl. lia.
Qed.

Lemma arrayMove_length {A} (xs : list A) (from to : nat) :
  (to < length xs)%nat → length (arrayMove xs from to) = length xs.
Proof.
  intros Ht. unfold arrayMove. destruct (xs !! from) as [x|] eqn:Hx; [|done].
  apply lookup_lt_Some in Hx.
  rewrite length_app, length_take. simpl.
  rewrite length_drop, !length_app, length_take, length_drop. lia.
Qed.

(** What the reorder handler commits is the order that [arrayMove]
    shows: the handler itself, which the reorder request of the client
    does not reach ([answered_by]). *)
Lemma committed_listing_ids (N : nat) (w w' : World) (fromOrder toOrder : Z) :
  dense (jobs (db w)) N →
  0 ≤ fromOrder < Z.of_nat N → 0 ≤ toOrder < Z.of_nat N →
  handle (JobsReorder fromOrder toOrder) w = (Done reorder_committed, w') →
  card_ids (arrayMove (listing w) (Z.to_nat fromOrder) (Z.to_nat toOrder))
  = card_ids (listing w').
Proof.
  intros Hd Hf Ht Hrun.
  pose proof (committed_reorder_table N w w' fromOrder toOrder Hd Hf Hrun) as Htab.
  assert (dense (jobs (db w')) N) as Hd'.
  { rewrite Htab. by apply dense_reindex. }
  unfold card_ids, listing.
  pose proof (listing_length _ N Hd) as Hlen. pose proof (listing_length _ N Hd') as Hlen'.
  apply (list_eq_same_length _ _ N).
  { by rewrite length_fmap. }
  { rewrite length_fmap, arrayMove_length; [done|]. lia. }
  intros i x y Hi Hx Hy.
  rewrite list_lookup_fmap in Hy.
  destruct (tbl_orderBy "order" (jobs (db w')) !! i) as [r'|] eqn:Hr'; [|done].
  injection Hy as <-.
  destruct (listing_lookup _ N i r' Hd' Hr') as (Hord' & _ & k & o' & Hk' & ->).
  rewrite Htab, lookup_fmap in Hk'.
  destruct (jobs (db w) !! k) as [o|] eqn:Hk; [|done]. injection Hk' as <-.
  destruct (dense_order_in_range _ N Hd k o Hk) as (n & Hn & Hrange).
  rewrite row_lookup_ne in Hord' by done.
  unfold reindex in Hord'. rewrite Hn, lookup_insert_eq in Hord'.
  injection Hord' as Hi'.
  assert (i = Z.to_nat (spec_new_order (Z.of_nat (Z.to_nat fromOrder))
                          (Z.of_nat (Z.to_nat toOrder)) (Z.of_nat (Z.to_nat n)))) as Hidx.
  { rewrite !Z2Nat.id by lia. lia. }
  rewrite list_lookup_fmap, Hidx, arrayMove_follows_reindex in Hx by lia.
  destruct (tbl_orderBy "order" (jobs (db w)) !! Z.to_nat n) as [r|] eqn:Hr; [|done].
  injection Hx as <-.
  destruct (listing_lookup _ N _ r Hd Hr) as (Hord & _ & k2 & o2 & Hk2 & ->).
  rewrite row_lookup_ne in Hord by done. rewrite Z2Nat.id in Hord by lia.
  assert (k2 = k) as ->.
  { eapply (dense_order_unique _ N Hd); [done..|]. by rewrite Hord, Hn. }
  unfold row. by rewrite !lookup_insert_eq.
Qed.

(** ** Mutations that go through *)

Lemma fetchApi_success (req : Request) (s s2 : Client) (data : Value) :
  fetchApi req s = (Done data, s2) →
  ∃ resp w',
    handle (answered_by req) (backend s) = (Done resp, w')
    ∧ 200 ≤ status resp < 300
    ∧ data = payload resp
    ∧ s2 = mkClient (cache s) (toasts s) (invalidations s) w' (S (fetches s)).
Proof.
  unfold fetchApi. destruct (handle (answered_by req) (backend s)) as [[resp|e] w']; [|done].
  destruct (Z.leb_spec 200 (status resp)), (Z.ltb_spec (status resp) 300); simpl; try done.
  intros [= <- <-]. exists resp, w'. split; [done|]. split; [lia|done].
Qed.

Lemma mutate_success {V} (m : Mutation V) (v : V) (s s1 s' : Client) (context : option Obj)
    (data : Value) :
  retry m = O → onMutate m v s = (Done context, s1) →
  mutate m v s = (Succeeded data, s') →
  ∃ resp w',
    handle (answered_by (mutationFn m v)) (backend s1) = (Done resp, w')
    ∧ 200 ≤ status resp < 300
    ∧ data = payload resp
    ∧ s' = onSuccess m v (mkClient (cache s1) (toasts s1) (invalidations s1) w' (S (fetches s1))).
Proof.
  intros Hretry Hmut Hrun. unfold mutate in Hrun. rewrite Hmut, Hretry in Hrun.
  unfold attempt in Hrun.
  destruct (fetchApi (mutationFn m v) s1) as [[d|e] s2] eqn:Hfetch; [|done].
  injection Hrun as <- <-.
  destruct (fetchApi_success _ _ _ _ Hfetch) as (resp & w' & ? & ? & ? & ->).
  by exists resp, w'.
Qed.

Lemma write_success (r : Request) (w w' : World) (resp : Response) :
  is_write r = true → handle r w = (Done resp, w') → 200 ≤ status resp < 300 →
  ¬ error_fires w.
Proof.
  intros Hw Hrun Hst Hfire.
  destruct (write_failure r w Hw Hfire) as (msg & w1 & Heq & _).
  rewrite Heq in Hrun. injection Hrun as <- <-. simpl in Hst. lia.
Qed.

(** ** A drag on the jobs page *)

Lemma findIndex_Some {A} (p : A → bool) (xs : list A) (i : nat) :
  findIndex p xs = Some i → ∃ x, xs !! i = Some x ∧ p x = true.
Proof.
  revert i. induction xs as [|y xs IH]; intros i; simpl; [done|].
  destruct (p y) eqn:Hy.
  - intros [= <-]. by exists y.
  - destruct (findIndex p xs) as [j|]; [|done]. intros [= <-]. by apply IH.
Qed.

(** The job update handler on an id that is not stored. *)
Lemma patch_job_missing (id : string) (updates : Obj) (w : World) :
  jobs (db w) !! id = None →
  ∃ resp w', handle (JobsUpdate id updates) w = (Done resp, w') ∧ db w' = db w
             ∧ (resp = json ∅ ∨ status resp = 500).
Proof.
  intros Hnone. destruct (error_fires_dec w) as [Hfire|Hpass].
  - destruct (write_failure (JobsUpdate id updates) w eq_refl Hfire)
      as (msg & w1 & Heq & Hdb & _).
    exists (json_status 500 (error_body msg)), w1. split; [done|]. split; [done|by right].
  - cbn [handle]. unfold patch_job. rewrite prelude_pass by done.
    rewrite bind_now, bind_db_update, bind_db_get.
    eexists _, _. split; [reflexivity|]. split.
    + cbn. unfold tbl_update. rewrite Hnone. by destruct (db w).
    + left. unfold ret. cbn. unfold tbl_get, tbl_update. rewrite Hnone.
      rewrite Hnone. reflexivity.
Qed.

(** X14. A drag on the jobs page is shown but not stored.  The reorder
    request [PATCH /api/jobs/reorder] is answered by the job update
    handler, with the id [reorder]; when no job has that id, a drag of
    one card onto another leaves the store exactly as it was, whether
    the request is answered 200 (with an empty object) or refused with
    500.  The cached page shows the cards with the dragged one moved
    ([arrayMove]), which is another order of ids than before, and the
    [jobs] queries are invalidated once. *)
Theorem drag_is_shown_but_not_stored (activeTab active over : string) (cards : list Obj)
    (s s' : Client) (outcome : Settled) :
  jobs (db (backend s)) !! "reorder" = None →
  handleDragEnd activeTab cards active (Some over) s = Some (Some outcome, s') →
  ∃ from to,
    findIndex (fun j => strict_eq (j !! "id") (Some (VStr active))) cards = Some from
    ∧ findIndex (fun j => strict_eq (j !! "id") (Some (VStr over))) cards = Some to
    ∧ (cache s' !! ["jobs"; activeTab]) ≫= (.!! "data")
      = Some (rows_json (arrayMove cards from to))
    ∧ card_ids (arrayMove cards from to) ≠ card_ids cards
    ∧ db (backend s') = db (backend s)
    ∧ invalidations s' = invalidations s ++ [["jobs"]]
    ∧ (outcome = Succeeded (VObj ∅) ∨ outcome = Failed "HTTP 500").
Proof.
  intros Hnone Hrun. unfold handleDragEnd in Hrun.
  destruct (String.eqb_spec active over) as [->|Hne]; [done|]. cbn [negb] in Hrun.
  destruct (findIndex (fun j => strict_eq (j !! "id") (Some (VStr active))) cards)
    as [from|] eqn:Hfrom; [|done].
  destruct (findIndex (fun j => strict_eq (j !! "id") (Some (VStr over))) cards)
    as [to|] eqn:Hto; [|done].
  cbn [mbind option_bind] in Hrun.
  destruct (findIndex_Some _ _ _ Hfrom) as (rf & Hrf & Hidf%strict_eq_str).
  destruct (findIndex_Some _ _ _ Hto) as (rt & Hrt & Hidt%strict_eq_str).
  rewrite Hrf, Hrt in Hrun. cbn [mbind option_bind] in Hrun.
  destruct (order_of rf) as [fromOrder|]; [|done].
  destruct (order_of rt) as [toOrder|]; [|done]. cbn [mbind option_bind] in Hrun.
  match type of Hrun with context [mutate reorderMutation ?v ?c] =>
    set (s1 := c) in *; destruct (mutate reorderMutation v s1) as [settled s2] eqn:Hmut end.
  injection Hrun as -> ->.
  exists from, to. split; [done|]. split; [done|].
  assert (cache s1 !! ["jobs"; activeTab] ≫= (.!! "data")
          = Some (rows_json (arrayMove cards from to))
          ∧ invalidations s1 = invalidations s ∧ backend s1 = backend s) as (Hc1 & Hi1 & Hb1).
  { unfold s1, setQueryData. cbn [snd cache with_cache invalidations backend].
    rewrite lookup_insert_eq. cbn [mbind option_bind]. by rewrite lookup_insert_eq. }
  assert (card_ids (arrayMove cards from to) ≠ card_ids cards) as Hmoved.
  { intros Heq. apply (f_equal (fun l => l !! to)) in Heq. unfold card_ids in Heq.
    rewrite !list_lookup_fmap in Heq.
    rewrite (arrayMove_lookup cards from to to rf Hrf) in Heq by (by eapply lookup_lt_Some).
    rewrite decide_False, decide_True in Heq by (lia || done).
    rewrite Hrt in Heq. cbn in Heq. rewrite Hidf, Hidt in Heq. congruence. }
  clearbody s1.
  unfold mutate in Hmut. cbn [onMutate reorderMutation no_onMutate retry] in Hmut.
  unfold attempt, fetchApi in Hmut.
  cbn [mutationFn reorderMutation fst snd answered_by] in Hmut.
  destruct (patch_job_missing "reorder"
              (<["fromOrder" := VNum fromOrder]> {[ "toOrder" := VNum toOrder ]}) (backend s1))
    as (resp & w' & Hhandle & Hdb & Hresp).
  { by rewrite Hb1. }
  rewrite Hhandle in Hmut. rewrite Hb1 in Hdb.
  destruct Hresp as [->|Hst].
  - cbn in Hmut. injection Hmut as <- <-.
    cbn [onSuccess reorderMutation invalidateQueries cache invalidations backend].
    rewrite Hi1. repeat split; try done. by left.
  - rewrite Hst in Hmut. cbn in Hmut. injection Hmut as <- <-.
    cbn [onError reorderMutation invalidateQueries toast cache invalidations backend].
    rewrite Hi1. repeat split; try done. by right.
Qed.

Lemma drag_is_shown_but_not_stored_witness :
  jobs (db (backend (calm_client 3))) !! "reorder" = None
  ∧ (∃ s', handleDragEnd "active" (listing (backend (calm_client 3))) "job-0" (Some "job-2")
             (calm_client 3)
           = Some (Some (Succeeded (VObj ∅)), s'))
  ∧ ∃ from to,
      findIndex (fun j => strict_eq (j !! "id") (Some (VStr "job-0")))
        (listing (backend (calm_client 3))) = Some from
      ∧ findIndex (fun j => strict_eq (j !! "id") (Some (VStr "job-2")))
          (listing (backend (calm_client 3))) = Some to
      ∧ (cache (client_after
                  (handleDragEnd "active" (listing (backend (calm_client 3))) "job-0"
                     (Some "job-2") (calm_client 3)) (calm_client 3))
           !! ["jobs"; "active"]) ≫= (.!! "data")
        = Some (rows_json (arrayMove (listing (backend (calm_client 3))) from to))
      ∧ card_ids (arrayMove (listing (backend (calm_client 3))) from to)
        ≠ card_ids (listing (backend (calm_client 3)))
      ∧ db (backend (client_after
                       (handleDragEnd "active" (listing (backend (calm_client 3))) "job-0"
                          (Some "job-2") (calm_client 3)) (calm_client 3)))
        = db (backend (calm_client 3))
      ∧ invalidations (client_after
                         (handleDragEnd "active" (listing (backend (calm_client 3))) "job-0"
                            (Some "job-2") (calm_client 3)) (calm_client 3))
        = invalidations (calm_client 3) ++ [["jobs"]]
      ∧ (Succeeded (VObj ∅) = Succeeded (VObj ∅) ∨ Succeeded (VObj ∅) = Failed "HTTP 500").
Proof.
  assert (handleDragEnd "active" (listing (backend (calm_client 3))) "job-0" (Some "job-2")
            (calm_client 3)
          = Some (Some (Succeeded (VObj ∅)),
                  client_after (handleDragEnd "active" (listing (backend (calm_client 3)))
                                  "job-0" (Some "job-2") (calm_client 3)) (calm_client 3)))
    as Hrun by (vm_compute; reflexivity).
  split; [reflexivity|]. split; [eexists; exact Hrun|].
  exact (drag_is_shown_but_not_stored "active" "job-0" "job-2" _ (calm_client 3) _ _
           eq_refl Hrun).
Defined.

(** ** The update and create handlers when they answer 2xx *)

Lemma patch_job_run (id : string) (updates : Obj) (w : World) :
  ¬ error_fires w →
  handle (JobsUpdate id updates) w
  = (Done (json (data_of (tbl_get (tbl_update (jobs (db w)) id
                                     (<["updatedAt" := VTime (clock (after_prelude w))]> updates))
                            id))),
     updated Jobs id (<["updatedAt" := VTime (clock (after_prelude w))]> updates)
             (after_prelude w)).
Proof.
  intros Hpass. cbn [handle]. unfold patch_job. rewrite prelude_pass by done.
  by rewrite bind_now, bind_db_update, bind_db_get.
Qed.

Lemma patch_candidate_success (id : string) (updates : Obj) (w w' : World) (resp : Response) :
  handle (CandidatesUpdate id updates) w = (Done resp, w') → 200 ≤ status resp < 300 →
  ∃ c, candidates (db w) !! id = Some c
       ∧ candidates (db w')
         = <[id := <["updatedAt" := VTime (clock w')]> updates ∪ c]> (candidates (db w))
       ∧ status resp = 200.
Proof.
  intros Hrun Hst.
  pose proof (write_success (CandidatesUpdate id updates) _ _ _ eq_refl Hrun Hst) as Hpass.
  cbn [handle] in Hrun. unfold patch_candidate in Hrun. rewrite prelude_pass in Hrun by done.
  rewrite bind_db_get in Hrun. change (db (after_prelude w)) with (db w) in Hrun.
  unfold tbl_get in Hrun. cbn [table] in Hrun.
  destruct (candidates (db w) !! id) as [c|] eqn:Hc; cbn [fmap option_fmap option_map] in Hrun.
  2: { injection Hrun as <- <-. simpl in Hst. lia. }
  exists c. split; [done|].
  destruct (truthy (updates !! "stage") && negb (strict_eq (updates !! "stage") (row id c !! "stage"))).
  - rewrite bind_assoc, bind_uuid, bind_assoc, bind_now in Hrun.
    set (eid := uuid (after_prelude w) (issued (after_prelude w))) in *.
    match type of Hrun with context [db_add Timeline ?e] => set (ev := e) in * end.
    rewrite (bind_db_add _ _ eid) in Hrun by (by unfold ev; simplify_map_eq).
    destruct (table Timeline _ !! eid) eqn:Hfresh; [discriminate Hrun|].
    rewrite bind_now, bind_db_update, bind_db_get in Hrun.
    injection Hrun as <- <-. split; [|done]. cbn. unfold tbl_update. by rewrite Hc.
  - rewrite bind_ret, bind_now, bind_db_update, bind_db_get in Hrun.
    injection Hrun as <- <-. split; [|done]. cbn. unfold tbl_update. by rewrite Hc.
Qed.

Lemma post_job_success (body : Obj) (w w' : World) (resp : Response) :
  handle (JobsCreate body) w = (Done resp, w') → 200 ≤ status resp < 300 →
  ∃ id job,
    jobs (db w) !! id = None
    ∧ jobs (db w') = <[id := job]> (jobs (db w))
    ∧ (∀ k, k ∉ ["id"; "createdAt"; "updatedAt"] → job !! k = body !! k).
Proof.
  intros Hrun Hst.
  pose proof (write_success (JobsCreate body) _ _ _ eq_refl Hrun Hst) as Hpass.
  cbn [handle] in Hrun. unfold post_job in Hrun. rewrite prelude_pass in Hrun by done.
  rewrite bind_uuid, !bind_now in Hrun.
  set (id := uuid (after_prelude w) (issued (after_prelude w))) in *.
  match type of Hrun with context [db_add Jobs ?j] => set (job := j) in * end.
  rewrite (bind_db_add _ _ id) in Hrun by (by unfold job; simplify_map_eq).
  destruct (table Jobs _ !! id) eqn:Hfresh; [discriminate Hrun|].
  injection Hrun as <- <-. exists id, job. split; [done|]. split; [done|].
  intros k Hk. unfold job. rewrite !lookup_insert_ne; [done|intros <-; clear -Hk; set_solver..].
Qed.

(** ** Archiving from the jobs page *)

Lemma filter_throwing_total {A} (b : A → bool) (p : A → Outcome bool) (xs : list A) :
  (∀ x, x ∈ xs → p x = Done (b x)) →
  filter_throwing p xs = Done (filter (fun x => Is_true (b x)) xs).
Proof.
  induction xs as [|x xs IH]; intros Hp; [done|]. simpl.
  rewrite (Hp x) by (by left). rewrite IH by (intros y Hy; apply Hp; by right).
  destruct (b x) eqn:Hb.
  - rewrite filter_cons_True; [done|]. by apply Is_true_true_2.
  - rewrite filter_cons_False; [done|]. by apply Is_true_false_2.
Qed.

(** X15. Archiving from a tab.  When the archive mutation succeeds, the
    card of the job is gone from the cached page of the active tab, the
    other cards staying in place, the [jobs] queries are invalidated
    once, and the stored job, if there is one, has the new status. *)
Theorem archived_card_leaves_the_tab (activeTab id newStatus : string) (s s' : Client)
    (data : Value) (page : Obj) (cards : list Value) :
  cache s !! ["jobs"; activeTab] = Some page → page !! "data" = Some (VArr cards) →
  Forall (fun c => c ≠ VNull) cards →
  mutate (archiveMutation activeTab) (id, newStatus) s = (Succeeded data, s') →
  cache s'
  = <[["jobs"; activeTab] :=
        <["data" := VArr (filter (fun c => Is_true (negb (strict_eq (prop c "id")
                                                             (Some (VStr id))))) cards)]> page]>
      (cache s)
  ∧ invalidations s' = invalidations s ++ [["jobs"]]
  ∧ (∀ o, jobs (db (backend s)) !! id = Some o →
       ∃ o', jobs (db (backend s')) !! id = Some o' ∧ o' !! "status" = Some (VStr newStatus)).
Proof.
  intros Hpage Hdata Hcards Hrun.
  set (kept := filter (fun c => Is_true (negb (strict_eq (prop c "id") (Some (VStr id))))) cards).
  set (s1 := with_cache (<[["jobs"; activeTab] := <["data" := VArr kept]> page]> (cache s)) s).
  assert (onMutate (archiveMutation activeTab) (id, newStatus) s = (Done (Some page), s1))
    as Hmut.
  { cbn [onMutate archiveMutation]. unfold cancelQueries, getQueryData, setQueryData.
    rewrite Hpage. unfold without_job. cbn [mbind option_bind fst]. rewrite Hdata.
    rewrite (filter_throwing_total
               (fun c => negb (strict_eq (prop c "id") (Some (VStr id))))).
    - done.
    - intros c Hc. eapply Forall_forall in Hcards; [|done]. by destruct c. }
  destruct (mutate_success (archiveMutation activeTab) _ _ _ _ _ _ eq_refl Hmut Hrun)
    as (resp & w' & Hhandle & Hst & _ & ->).
  cbn [mutationFn archiveMutation fst snd answered_by] in Hhandle.
  pose proof (write_success (JobsUpdate id {[ "status" := VStr newStatus ]}) _ _ _
                eq_refl Hhandle Hst) as Hpass.
  rewrite patch_job_run in Hhandle by done. injection Hhandle as _ <-.
  split; [done|]. split; [done|].
  intros o Ho. cbn. unfold tbl_update. change (db (after_prelude (backend s))) with (db (backend s)).
  rewrite Ho, lookup_insert_eq. eexists. split; [done|].
  apply updated_record_fields; [done|]. by rewrite lookup_singleton_eq.
Qed.

Lemma archived_card_leaves_the_tab_witness :
  let r := mutate (archiveMutation "active") ("job-1", "archived") paged_client in
  cache paged_client !! ["jobs"; "active"] = Some sample_jobs_page
  ∧ sample_jobs_page !! "data" = Some (VArr (VObj <$> sample_cards))
  ∧ Forall (fun c => c ≠ VNull) (VObj <$> sample_cards)
  ∧ r = (Succeeded (settled_data r.1), r.2)
  ∧ cache r.2
    = <[["jobs"; "active"] :=
          <["data" := VArr (filter (fun c => Is_true (negb (strict_eq (prop c "id")
                                                               (Some (VStr "job-1")))))
                                   (VObj <$> sample_cards))]> sample_jobs_page]>
        (cache paged_client)
  ∧ invalidations r.2 = invalidations paged_client ++ [["jobs"]]
  ∧ (∀ o, jobs (db (backend paged_client)) !! "job-1" = Some o →
       ∃ o', jobs (db (backend r.2)) !! "job-1" = Some o'
             ∧ o' !! "status" = Some (VStr "archived")).
Proof.
  cbv zeta.
  assert (Forall (fun c => c ≠ VNull) (VObj <$> sample_cards)) as Hcards.
  { apply Forall_fmap, Forall_forall. intros c _. discriminate. }
  assert (mutate (archiveMutation "active") ("job-1", "archived") paged_client
          = (Succeeded (settled_data
                          (mutate (archiveMutation "active") ("job-1", "archived")
                                  paged_client).1),
             (mutate (archiveMutation "active") ("job-1", "archived") paged_client).2))
    as Hrun by (vm_compute; reflexivity).
  split; [reflexivity|]. split; [reflexivity|]. split; [exact Hcards|]. split; [exact Hrun|].
  apply (archived_card_leaves_the_tab "active" "job-1" "archived" paged_client _ _
           sample_jobs_page (VObj <$> sample_cards)
           eq_refl eq_refl Hcards Hrun).
Defined.

(** ** Moving a candidate to another stage *)

(** X16. A stage change on the candidate page.  When the stage mutation
    succeeds, the stored candidate and the cached candidate both have
    the new stage, and the candidate, its timeline and the candidate
    lists are invalidated, in that order. *)
Theorem stage_move_reaches_cache_and_store (id newStage : string) (s s' : Client)
    (data : Value) :
  mutate (stageMutation id) newStage s = (Succeeded data, s') →
  (∃ c', candidates (db (backend s')) !! id = Some c'
         ∧ c' !! "stage" = Some (VStr newStage))
  ∧ (∃ page cand, cache s' !! ["candidate"; id] = Some page
                  ∧ page !! "data" = Some (VObj cand)
                  ∧ cand !! "stage" = Some (VStr newStage))
  ∧ invalidations s'
    = invalidations s ++ [["candidate"; id]; ["candidate-timeline"; id]; ["candidates"]].
Proof.
  intros Hrun.
  destruct (onMutate (stageMutation id) newStage s) as [context s1] eqn:Hmut.
  cbn [onMutate stageMutation] in Hmut. unfold cancelQueries, getQueryData, setQueryData in Hmut.
  injection Hmut as <- <-.
  match type of Hrun with context [mutate ?m] =>
    destruct (mutate_success m newStage s _ s' _ data eq_refl eq_refl Hrun)
      as (resp & w' & Hhandle & Hst & _ & ->) end.
  cbn [mutationFn stageMutation answered_by] in Hhandle.
  destruct (patch_candidate_success _ _ _ _ _ Hhandle Hst) as (c & Hc & Hcands & _).
  split; [|split].
  - cbn. rewrite Hcands, lookup_insert_eq. eexists. split; [done|].
    apply updated_record_fields; [done|]. by rewrite lookup_singleton_eq.
  - cbn. rewrite lookup_insert_eq. eexists _, _. split; [done|].
    rewrite lookup_insert_eq. split; [done|]. by rewrite lookup_insert_eq.
  - cbn. by rewrite <- !app_assoc.
Qed.

Lemma stage_move_reaches_cache_and_store_witness :
  let r := mutate (stageMutation "cand-1") "screen" (calm_client 0) in
  r = (Succeeded (settled_data r.1), r.2)
  ∧ (∃ c', candidates (db (backend r.2)) !! "cand-1" = Some c'
           ∧ c' !! "stage" = Some (VStr "screen"))
  ∧ (∃ page cand, cache r.2 !! ["candidate"; "cand-1"] = Some page
                  ∧ page !! "data" = Some (VObj cand)
                  ∧ cand !! "stage" = Some (VStr "screen"))
  ∧ invalidations r.2
    = invalidations (calm_client 0)
      ++ [["candidate"; "cand-1"]; ["candidate-timeline"; "cand-1"]; ["candidates"]].
Proof.
  cbv zeta.
  assert (mutate (stageMutation "cand-1") "screen" (calm_client 0)
          = (Succeeded (settled_data (mutate (stageMutation "cand-1") "screen"
                                             (calm_client 0)).1),
             (mutate (stageMutation "cand-1") "screen" (calm_client 0)).2))
    as Hrun by (vm_compute; reflexivity).
  split; [exact Hrun|].
  exact (stage_move_reaches_cache_and_store "cand-1" "screen" (calm_client 0) _ _ Hrun).
Defined.

(** ** A card dropped on the board *)

(** X17. A card dropped on the board.  The droppable elements of the board
    are the cards, so the id under a drop is a candidate id, and
    [handleDragEnd] sends it as the new stage: when card [active] is
    dropped on another card [over] and the request succeeds, the stage
    stored for the candidate is the id [over], and the timeline gains
    one event recording the move from the old stage to [over]. *)
Theorem board_drop_names_the_stage (cards : list Obj) (active over stage : string)
    (card c : Obj) (s s' : Client) (data : Value) :
  List.find (fun x => strict_eq (x !! "id") (Some (VStr active))) cards = Some card →
  card !! "stage" = Some (VStr stage) →
  candidates (db (backend s)) !! active = Some c → c !! "stage" = Some (VStr stage) →
  active ≠ over → stage ≠ over → over ≠ "" →
  CandidateKanbanBoard.handleDragEnd cards active (Some over) s = (Some (Succeeded data), s') →
  (∃ c', candidates (db (backend s')) !! active = Some c'
         ∧ c' !! "stage" = Some (VStr over))
  ∧ ∃ eid, timeline (db (backend s)) !! eid = None
           ∧ timeline (db (backend s'))
             = <[eid := stage_change_event eid active stage over (clock (backend s'))]>
                 (timeline (db (backend s))).
Proof.
  intros Hfind Hcard Hc Hstage Hne Hne' Hover Hrun.
  unfold CandidateKanbanBoard.handleDragEnd in Hrun.
  apply String.eqb_neq in Hne. rewrite Hne in Hrun. cbv zeta in Hrun.
  rewrite Hfind, Hcard in Hrun.
  assert (strict_eq (Some (VStr stage)) (Some (VStr over)) = false) as Hdiff.
  { simpl. by apply String.eqb_neq. }
  rewrite Hdiff in Hrun. cbn [negb] in Hrun.
  destruct (mutate updateStageMutation (active, over) s) as [settled s2] eqn:Hmutate.
  injection Hrun as -> ->.
  destruct (onMutate updateStageMutation (active, over) s) as [[context|e] s1] eqn:Hmut.
  2: { unfold mutate in Hmutate. by rewrite Hmut in Hmutate. }
  assert (backend s1 = backend s) as Hback.
  { cbn [onMutate updateStageMutation] in Hmut.
    unfold cancelQueries, getQueryData, setQueryData in Hmut.
    destruct (with_stage _ _ _ _); [|done]. by injection Hmut as _ <-. }
  destruct (mutate_success updateStageMutation _ _ _ _ _ _ eq_refl Hmut Hmutate)
    as (resp & w' & Hhandle & Hst & _ & ->).
  cbn [mutationFn updateStageMutation fst snd answered_by] in Hhandle. rewrite Hback in Hhandle.
  destruct (patch_candidate_success _ _ _ _ _ Hhandle Hst) as (_ & _ & _ & Hst200).
  destruct (stage_move_run active stage over c (backend s) w' resp Hc Hstage Hne' Hover
              Hhandle Hst200) as (eid & Hfresh & Htl & Hstore & _).
  split; [exact Hstore|]. by exists eid.
Qed.

Lemma board_drop_names_the_stage_witness :
  let r := CandidateKanbanBoard.handleDragEnd board_cards "cand-1" (Some "cand-2")
             (calm_client 0) in
  List.find (fun x => strict_eq (x !! "id") (Some (VStr "cand-1"))) board_cards
  = Some (row "cand-1" sample_candidate)
  ∧ row "cand-1" sample_candidate !! "stage" = Some (VStr "applied")
  ∧ candidates (db (backend (calm_client 0))) !! "cand-1" = Some sample_candidate
  ∧ sample_candidate !! "stage" = Some (VStr "applied")
  ∧ "cand-1" ≠ "cand-2" ∧ "applied" ≠ "cand-2" ∧ "cand-2" ≠ ""
  ∧ r = (Some (Succeeded (settled_data (default (Failed "") r.1))), r.2)
  ∧ (∃ c', candidates (db (backend r.2)) !! "cand-1" = Some c'
           ∧ c' !! "stage" = Some (VStr "cand-2"))
  ∧ ∃ eid, timeline (db (backend (calm_client 0))) !! eid = None
           ∧ timeline (db (backend r.2))
             = <[eid := stage_change_event eid "cand-1" "applied" "cand-2" (clock (backend r.2))]>
                 (timeline (db (backend (calm_client 0)))).
Proof.
  cbv zeta.
  assert (CandidateKanbanBoard.handleDragEnd board_cards "cand-1" (Some "cand-2") (calm_client 0)
          = (Some (Succeeded (settled_data
                     (default (Failed "")
                        (CandidateKanbanBoard.handleDragEnd board_cards "cand-1" (Some "cand-2")
                           (calm_client 0)).1))),
             (CandidateKanbanBoard.handleDragEnd board_cards "cand-1" (Some "cand-2")
                (calm_client 0)).2))
    as Hrun by (vm_compute; reflexivity).
  assert ("cand-1" ≠ "cand-2") as H1 by discriminate.
  assert ("applied" ≠ "cand-2") as H2 by discriminate.
  assert ("cand-2" ≠ "") as H3 by discriminate.
  split; [reflexivity|]. split; [reflexivity|]. split; [reflexivity|]. split; [reflexivity|].
  split; [exact H1|]. split; [exact H2|]. split; [exact H3|]. split; [exact Hrun|].
  exact (board_drop_names_the_stage board_cards "cand-1" "cand-2" "applied"
           (row "cand-1" sample_candidate) sample_candidate (calm_client 0) _ _
           eq_refl eq_refl eq_refl eq_refl H1 H2 H3 Hrun).
Defined.

(** ** Creating and editing a job from the dialog *)

Lemma maxOrder_numbers (cards : list Obj) (ns : list Z) :
  (fun j => j !! "order") <$> cards = (fun n => Some (VNum n)) <$> ns →
  maxOrder cards = Some (foldr Z.max 0 ns).
Proof.
  revert ns. induction cards as [|j cards IH]; intros [|n ns] Heq; try done.
  simpl in Heq. injection Heq as Hj Heq. simpl. by rewrite Hj, (IH ns Heq).
Qed.

Lemma max_of_seqZ (a : Z) (N : nat) :
  foldr Z.max a (seqZ 0 (Z.of_nat N)) = Z.max a (Z.of_nat N - 1) ∨ (N = O ∧ foldr Z.max a (seqZ 0 (Z.of_nat N)) = a).
Proof.
  revert a. induction N as [|N IH]; intros a; [by right|]. left.
  rewrite seqZ_S, foldr_app. simpl.
  destruct (IH (Z.max (0 + Z.of_nat N) a)) as [->| [-> ->]]; lia.
Qed.

Lemma maxOrder_dense (w : World) (N : nat) :
  dense (jobs (db w)) N → maxOrder (listing w) = Some (Z.max 0 (Z.of_nat N - 1)).
Proof.
  intros Hd. unfold listing. rewrite (maxOrder_numbers _ _ (listing_orders _ N Hd)).
  f_equal. destruct (max_of_seqZ 0 N) as [->|[-> ->]]; [done|]. simpl. lia.
Qed.

Lemma dense_insert (t : Table) (N : nat) (k : string) (o : Obj) :
  dense t N → t !! k = None → o !! "order" = Some (VNum (Z.of_nat N)) →
  dense (<[k := o]> t) (S N).
Proof.
  intros Hd Hk Ho. unfold dense, order_values in *.
  rewrite map_to_list_insert by done. rewrite fmap_cons. simpl.
  rewrite Hd, Ho, seqZ_S, fmap_app. simpl. apply Permutation_cons_append.
Qed.

(** X18. The order of a new job.  When the page shows every job of a dense
    collection of [N] jobs, the form submits the order [max 1 N]
    ([maxOrder] is the greatest order shown or 0, plus one).  After a
    successful create the collection is dense again when it had at
    least one job; the first job of an empty collection gets order 1,
    not 0. *)
Theorem new_job_goes_last (N : nat) (data : JobFormValues) (s s' : Client) (d : Value) :
  dense (jobs (db (backend s))) N →
  handleCreateOrUpdate None
    (JobFormDialog_handleSubmit None (maxOrder (listing (backend s))) data) s
  = Some (Succeeded d, s') →
  JobFormDialog_handleSubmit None (maxOrder (listing (backend s))) data !! "order"
  = Some (VNum (Z.max 1 (Z.of_nat N)))
  ∧ ((1 ≤ N)%nat → dense (jobs (db (backend s'))) (S N))
  ∧ (N = O → ∃ id job, jobs (db (backend s')) = {[ id := job ]}
                       ∧ job !! "order" = Some (VNum 1)).
Proof.
  intros Hd Hrun.
  set (body := JobFormDialog_handleSubmit None (maxOrder (listing (backend s))) data) in *.
  assert (body !! "order" = Some (VNum (Z.max 1 (Z.of_nat N)))) as Horder.
  { unfold body, JobFormDialog_handleSubmit. rewrite lookup_insert_eq.
    rewrite (maxOrder_dense _ N Hd). unfold submitted_order, opt_add, num_json.
    cbn [mbind option_bind]. do 2 f_equal. lia. }
  split; [exact Horder|].
  unfold handleCreateOrUpdate in Hrun. injection Hrun as Hrun.
  destruct (mutate_success createJobMutation body s s s' None d eq_refl eq_refl Hrun)
    as (resp & w' & Hhandle & Hst & _ & ->).
  cbn [mutationFn createJobMutation answered_by] in Hhandle.
  destruct (post_job_success _ _ _ _ Hhandle Hst) as (id & job & Hfresh & Hjobs & Hfields).
  assert (job !! "order" = Some (VNum (Z.max 1 (Z.of_nat N)))) as Hjob.
  { rewrite Hfields; [done|]. rewrite !elem_of_cons, elem_of_nil.
    by intros [?|[?|[?|[]]]]. }
  change (backend (onSuccess createJobMutation body _)) with w'.
  split.
  - intros HN. rewrite Hjobs. apply dense_insert; try done.
    rewrite Hjob. do 2 f_equal. lia.
  - intros ->. exists id, job. split; [|by rewrite Hjob].
    rewrite Hjobs. assert (jobs (db (backend s)) = ∅) as ->; [|done].
    apply map_to_list_empty_iff. unfold dense, order_values in Hd. simpl in Hd.
    apply Permutation_nil_r in Hd. by apply fmap_nil_inv in Hd.
Qed.

Lemma new_job_goes_last_witness :
  let body := JobFormDialog_handleSubmit None (maxOrder (listing (backend (calm_client 3))))
                edited_values in
  let r := handleCreateOrUpdate None body (calm_client 3) in
  dense (jobs (db (backend (calm_client 3)))) 3
  ∧ r = Some (Succeeded (settled_data (default (Failed "") (fst <$> r))),
              client_after r (calm_client 3))
  ∧ body !! "order" = Some (VNum (Z.max 1 (Z.of_nat 3)))
  ∧ ((1 ≤ 3)%nat → dense (jobs (db (backend (client_after r (calm_client 3))))) 4)
  ∧ (3%nat = O → ∃ id job, jobs (db (backend (client_after r (calm_client 3)))) = {[ id := job ]}
                           ∧ job !! "order" = Some (VNum 1)).
Proof.
  cbv zeta.
  match goal with |- _ ∧ ?r = ?v ∧ _ => assert (r = v) as Hrun by (vm_compute; reflexivity) end.
  split; [apply sample_dense_3|]. split; [exact Hrun|].
  exact (new_job_goes_last 3 edited_values (calm_client 3) _ _ sample_dense_3 Hrun).
Defined.

(** X19. Saving the edit form.  The form always submits the status
    [active]: after a successful edit with a title in ASCII the stored
    job is active, whatever its status was, has the title of the form
    and the slug generated from it, and keeps its order. *)
Theorem edit_makes_the_job_active (id : string) (o : Obj) (maxOrder : option Z)
    (data : JobFormValues) (s s' : Client) (d : Value) :
  jobs (db (backend s)) !! id = Some o → ascii_text (form_title data) →
  handleCreateOrUpdate (Some (row id o))
    (JobFormDialog_handleSubmit (Some (row id o)) maxOrder data) s
  = Some (Succeeded d, s') →
  ∃ o', jobs (db (backend s')) !! id = Some o'
        ∧ o' !! "status" = Some (VStr "active")
        ∧ o' !! "title" = Some (VStr (form_title data))
        ∧ o' !! "slug" = Some (VStr (generateSlug (form_title data)))
        ∧ (∀ n, o !! "order" = Some (VNum n) → o' !! "order" = Some (VNum n)).
Proof.
  intros Ho _ Hrun.
  set (body := JobFormDialog_handleSubmit (Some (row id o)) maxOrder data) in *.
  unfold handleCreateOrUpdate, row in Hrun. rewrite lookup_insert_eq in Hrun.
  fold (row id o) in Hrun. injection Hrun as Hrun.
  destruct (mutate_success updateJobMutation (id, body) s s s' None d eq_refl eq_refl Hrun)
    as (resp & w' & Hhandle & Hst & _ & ->).
  cbn [mutationFn updateJobMutation fst snd answered_by] in Hhandle.
  pose proof (write_success (JobsUpdate id body) _ _ _ eq_refl Hhandle Hst) as Hpass.
  rewrite patch_job_run in Hhandle by done. injection Hhandle as _ <-.
  cbn. unfold tbl_update. change (db (after_prelude (backend s))) with (db (backend s)).
  rewrite Ho, lookup_insert_eq. eexists. split; [done|].
  pose proof (updated_record_fields body o (clock (after_prelude (backend s))))
    as (_ & Hset & _). cbv zeta in Hset.
  split; [|split; [|split]].
  - apply Hset; [done|]. unfold body, JobFormDialog_handleSubmit. by simplify_map_eq.
  - apply Hset; [done|]. unfold body, JobFormDialog_handleSubmit, form_obj. by simplify_map_eq.
  - apply Hset; [done|]. unfold body, JobFormDialog_handleSubmit. by simplify_map_eq.
  - intros n Hn. apply Hset; [done|]. unfold body, JobFormDialog_handleSubmit.
    rewrite lookup_insert_eq. unfold submitted_order. cbn [mbind option_bind].
    rewrite row_lookup_ne by done. by rewrite Hn.
Qed.

Lemma edit_makes_the_job_active_witness :
  let s := mkClient ∅ [] [] archive_world 0 in
  let r := handleCreateOrUpdate (Some (row "job-a" archived_job))
             (JobFormDialog_handleSubmit (Some (row "job-a" archived_job)) (Some 0)
                edited_values) s in
  jobs (db (backend s)) !! "job-a" = Some archived_job
  ∧ ascii_text (form_title edited_values)
  ∧ archived_job !! "status" = Some (VStr "archived")
  ∧ r = Some (Succeeded (settled_data (default (Failed "") (fst <$> r))), client_after r s)
  ∧ ∃ o', jobs (db (backend (client_after r s))) !! "job-a" = Some o'
          ∧ o' !! "status" = Some (VStr "active")
          ∧ o' !! "title" = Some (VStr (form_title edited_values))
          ∧ o' !! "slug" = Some (VStr (generateSlug (form_title edited_values)))
          ∧ (∀ n, archived_job !! "order" = Some (VNum n) → o' !! "order" = Some (VNum n)).
Proof.
  cbv zeta.
  match goal with |- _ ∧ _ ∧ _ ∧ ?r = ?v ∧ _ =>
    assert (r = v) as Hrun by (vm_compute; reflexivity) end.
  split; [reflexivity|]. split; [reflexivity|]. split; [reflexivity|]. split; [exact Hrun|].
  exact (edit_makes_the_job_active "job-a" archived_job (Some 0) edited_values
           (mkClient ∅ [] [] archive_world 0) _ _ eq_refl eq_refl Hrun).
Defined.

(** ** A note that the server refused *)

(** X20. A note that the server refused.  The note mutation calls [fetch]
    and returns the parsed body without looking at the status, so when
    the failure injection fires on a note with text (in ASCII, not
    blank), the mutation still succeeds with the error body: nothing is
    stored, the toast says the note was saved, and the notes and the
    timeline of the candidate are invalidated. *)
Theorem refused_note_is_reported_as_saved (candidateId content : string) (s : Client) :
  error_fires (backend s) → ascii_text content → trim content ≠ "" →
  ∃ s',
    NotesSection.handleSubmit candidateId content s
    = Some (Succeeded (VObj (error_body "Failed to create note. Please try again.")), s')
    ∧ db (backend s') = db (backend s)
    ∧ toasts s'
      = toasts s ++ [mkToast "Note added" "Your note has been saved successfully" false]
    ∧ invalidations s'
      = invalidations s ++ [["notes"; candidateId]; ["timeline"; candidateId]].
Proof.
  intros Hfire _ Hcontent. unfold NotesSection.handleSubmit.
  apply String.eqb_neq in Hcontent. rewrite Hcontent. cbn [negb].
  unfold mutate_via. cbn [onMutate NotesSection.addNoteMutation no_onMutate mutationFn].
  unfold fetch_json. cbn [handle answered_by]. unfold post_note.
  match goal with
  | |- context [bind shouldSimulateError (fun fail => if fail then ret ?r else ?k)] =>
      destruct (inject_failure r k (backend s) Hfire) as (w' & Hrun & Hdb & _)
  end.
  rewrite Hrun. eexists. split; [reflexivity|]. cbn. split; [done|].
  split; [done|]. by rewrite <- app_assoc.
Qed.

Lemma refused_note_is_reported_as_saved_witness :
  error_fires (backend failing_client)
  ∧ ascii_text "Call back on Monday" ∧ trim "Call back on Monday" ≠ ""
  ∧ ∃ s',
      NotesSection.handleSubmit "cand-1" "Call back on Monday" failing_client
      = Some (Succeeded (VObj (error_body "Failed to create note. Please try again.")), s')
      ∧ db (backend s') = db (backend failing_client)
      ∧ toasts s'
        = toasts failing_client
          ++ [mkToast "Note added" "Your note has been saved successfully" false]
      ∧ invalidations s'
        = invalidations failing_client ++ [["notes"; "cand-1"]; ["timeline"; "cand-1"]].
Proof.
  assert (error_fires (backend failing_client)) as Hfire by reflexivity.
  assert (trim "Call back on Monday" ≠ "") as Hcontent by discriminate.
  split; [exact Hfire|]. split; [reflexivity|]. split; [exact Hcontent|].
  exact (refused_note_is_reported_as_saved "cand-1" "Call back on Monday" failing_client
           Hfire eq_refl Hcontent).
Defined.

(** ** The slug of a job title *)

Lemma all_chars_impl (p q : ascii → bool) (s : string) :
  (∀ c, p c = true → q c = true) → all_chars p s = true → all_chars q s = true.
Proof.
  intros Hpq. induction s as [|c s IH]; simpl; [done|].
  rewrite !andb_true_iff. intros [Hc Hs]. split; [by apply Hpq|by apply IH].
Qed.

Lemma all_chars_and (p q : ascii → bool) (s : string) :
  all_chars p s = true → all_chars q s = true → all_chars (fun c => p c && q c) s = true.
Proof.
  induction s as [|c s IH]; simpl; [done|].
  rewrite !andb_true_iff. intros [? ?] [? ?]. by auto.
Qed.

Lemma lower_ascii_not_upper (c : ascii) : is_upper (lower_ascii c) = false.
Proof. destruct c as [[] [] [] [] [] [] [] []]; reflexivity. Qed.

Lemma lower_ascii_fixed (c : ascii) : is_upper c = false → lower_ascii c = c.
Proof. destruct c as [[] [] [] [] [] [] [] []]; vm_compute; congruence. Qed.

Lemma toLowerCase_no_upper (s : string) :
  all_chars (fun c => negb (is_upper c)) (toLowerCase s) = true.
Proof. induction s as [|c s IH]; simpl; [done|]. by rewrite lower_ascii_not_upper, IH. Qed.

Lemma trim_start_all (p : ascii → bool) (s : string) :
  all_chars p s = true → all_chars p (trim_start s) = true.
Proof.
  induction s as [|c s IH]; simpl; [done|]. intros Hs.
  destruct (is_space c); [|done]. apply IH. by apply andb_true_iff in Hs as [_ ?].
Qed.

Lemma trim_end_all (p : ascii → bool) (s : string) :
  all_chars p s = true → all_chars p (trim_end s) = true.
Proof.
  induction s as [|c s IH]; simpl; [done|]. intros [Hc Hs]%andb_true_iff.
  specialize (IH Hs). destruct (trim_end s) as [|d r].
  - destruct (is_space c); simpl; [done|]. by rewrite Hc.
  - change (all_chars p (String c (String d r)) = true). simpl in *. by rewrite Hc, IH.
Qed.

Lemma remove_matching_all (p q : ascii → bool) (s : string) :
  all_chars q s = true →
  all_chars (fun c => negb (p c) && q c) (remove_matching p s) = true.
Proof.
  induction s as [|c s IH]; simpl; [done|]. intros [Hc Hs]%andb_true_iff.
  destruct (p c) eqn:Hp; simpl; [by apply IH|]. by rewrite Hp, Hc, IH.
Qed.

Lemma slug_input_char (c : ascii) :
  negb (not_slug_input c) && negb (is_upper c) = true →
  is_separator c = false → (is_slug_char c && negb (Ascii.eqb c "-")) = true.
Proof. destruct c as [[] [] [] [] [] [] [] []]; vm_compute; congruence. Qed.

Lemma collapse_runs_all (b : bool) (s : string) :
  all_chars (fun c => negb (not_slug_input c) && negb (is_upper c)) s = true →
  all_chars is_slug_char (collapse_runs is_separator b s) = true.
Proof.
  revert b. induction s as [|c s IH]; intros b; simpl; [done|].
  intros [Hc Hs]%andb_true_iff.
  destruct (is_separator c) eqn:Hsep.
  - destruct b; simpl; by apply IH.
  - simpl. rewrite IH by done.
    apply slug_input_char in Hc; [|done]. by apply andb_true_iff in Hc as [-> _].
Qed.

Lemma collapse_runs_in_run (s : string) :
  starts_with_hyphen (collapse_runs is_separator true s) = false.
Proof.
  induction s as [|c s IH]; simpl; [done|].
  destruct (is_separator c) eqn:Hsep; [done|]. simpl.
  destruct (Ascii.eqb_spec c "-") as [->|]; [discriminate Hsep|done].
Qed.

Lemma collapse_runs_no_double (b : bool) (s : string) :
  no_double_hyphen (collapse_runs is_separator b s) = true.
Proof.
  revert b. induction s as [|c s IH]; intros b; simpl; [done|].
  destruct (is_separator c) eqn:Hsep.
  - destruct b; [apply IH|]. simpl. by rewrite collapse_runs_in_run, IH.
  - simpl. rewrite IH.
    destruct (Ascii.eqb_spec c "-") as [->|]; [discriminate Hsep|done].
Qed.

Lemma strip_leading_all (p : ascii → bool) (s : string) :
  all_chars p s = true → all_chars p (strip_leading_hyphens s) = true.
Proof.
  induction s as [|c s IH]; [done|]. intros Hs.
  destruct (Ascii.eqb_spec c "-") as [->|Hne].
  - simpl. apply IH. by apply andb_true_iff in Hs as [_ ?].
  - replace (strip_leading_hyphens (String c s)) with (String c s); [done|].
    simpl. destruct c as [[] [] [] [] [] [] [] []]; try done.
Qed.

Lemma strip_leading_no_double (s : string) :
  no_double_hyphen s = true → no_double_hyphen (strip_leading_hyphens s) = true.
Proof.
  induction s as [|c s IH]; [done|]. intros Hs.
  destruct (Ascii.eqb_spec c "-") as [->|Hne].
  - simpl. apply IH. simpl in Hs. by apply andb_true_iff in Hs as [_ ?].
  - replace (strip_leading_hyphens (String c s)) with (String c s); [done|].
    simpl. destruct c as [[] [] [] [] [] [] [] []]; try done.
Qed.

Lemma strip_leading_start (s : string) :
  starts_with_hyphen (strip_leading_hyphens s) = false.
Proof.
  induction s as [|c s IH]; [done|].
  destruct (Ascii.eqb_spec c "-") as [->|Hne]; [exact IH|].
  replace (strip_leading_hyphens (String c s)) with (String c s).
  - simpl. by apply Ascii.eqb_neq.
  - simpl. destruct c as [[] [] [] [] [] [] [] []]; try done.
Qed.

Lemma strip_trailing_cons (c : ascii) (s : string) :
  strip_trailing_hyphens (String c s)
  = match strip_trailing_hyphens s with
    | EmptyString => if Ascii.eqb c "-" then EmptyString else String c EmptyString
    | r' => String c r'
    end.
Proof. reflexivity. Qed.

Lemma strip_trailing_all (p : ascii → bool) (s : string) :
  all_chars p s = true → all_chars p (strip_trailing_hyphens s) = true.
Proof.
  induction s as [|c s IH]; [done|]. intros [Hc Hs]%andb_true_iff.
  rewrite strip_trailing_cons. specialize (IH Hs).
  destruct (strip_trailing_hyphens s) as [|d r].
  - destruct (Ascii.eqb c "-"); simpl; [done|]. by rewrite Hc.
  - simpl in *. by rewrite Hc, IH.
Qed.

Lemma strip_trailing_start (s : string) :
  starts_with_hyphen s = false → starts_with_hyphen (strip_trailing_hyphens s) = false.
Proof.
  destruct s as [|c s]; [done|]. simpl (starts_with_hyphen (String c s)). intros Hc.
  rewrite strip_trailing_cons. destruct (strip_trailing_hyphens s); [|done].
  by rewrite Hc.
Qed.

Lemma strip_trailing_head (s : string) :
  starts_with_hyphen (strip_trailing_hyphens s) = true → starts_with_hyphen s = true.
Proof.
  destruct s as [|c s]; [done|]. rewrite strip_trailing_cons.
  destruct (strip_trailing_hyphens s); [|done].
  destruct (Ascii.eqb c "-") eqn:Hc; [done|]. simpl. by rewrite Hc.
Qed.

Lemma strip_trailing_no_double (s : string) :
  no_double_hyphen s = true → no_double_hyphen (strip_trailing_hyphens s) = true.
Proof.
  induction s as [|c s IH]; [done|]. simpl (no_double_hyphen (String c s)).
  intros [Hc Hs]%andb_true_iff. rewrite strip_trailing_cons. specialize (IH Hs).
  pose proof (strip_trailing_head s) as Hhead.
  destruct (strip_trailing_hyphens s) as [|d r] eqn:Hstrip.
  - destruct (Ascii.eqb c "-"); simpl; [done|]. by rewrite andb_false_r.
  - change (negb (Ascii.eqb c "-" && starts_with_hyphen (String d r))
            && no_double_hyphen (String d r) = true).
    rewrite IH, andb_true_r.
    destruct (Ascii.eqb c "-"); [|done]. simpl in *.
    destruct (Ascii.eqb d "-"); [|done]. by rewrite Hhead in Hc.
Qed.

Lemma strip_trailing_end (s : string) : ends_with_hyphen (strip_trailing_hyphens s) = false.
Proof.
  induction s as [|c s IH]; [done|]. rewrite strip_trailing_cons.
  destruct (strip_trailing_hyphens s) as [|d r].
  - destruct (Ascii.eqb c "-") eqn:Hc; [done|]. simpl. exact Hc.
  - exact IH.
Qed.

Lemma generateSlug_clean (title : string) : clean_slug (generateSlug title) = true.
Proof.
  unfold clean_slug, generateSlug.
  set (s1 := remove_matching not_slug_input (trim (toLowerCase title))).
  assert (all_chars (fun c => negb (not_slug_input c) && negb (is_upper c)) s1 = true) as H1.
  { apply remove_matching_all. unfold trim.
    apply trim_end_all, trim_start_all, toLowerCase_no_upper. }
  set (s2 := collapse_runs is_separator false s1).
  assert (all_chars is_slug_char s2 = true) as H2 by (by apply collapse_runs_all).
  assert (no_double_hyphen s2 = true) as H2' by apply collapse_runs_no_double.
  rewrite strip_trailing_all by (by apply strip_leading_all).
  rewrite strip_trailing_no_double by (by apply strip_leading_no_double).
  rewrite strip_trailing_start by apply strip_leading_start.
  by rewrite strip_trailing_end.
Qed.

(** A clean slug is its own slug. *)
Lemma slug_char_facts (c : ascii) :
  is_slug_char c = true →
  lower_ascii c = c ∧ is_space c = false ∧ not_slug_input c = false
  ∧ is_separator c = Ascii.eqb c "-".
Proof. destruct c as [[] [] [] [] [] [] [] []]; vm_compute; try congruence; auto. Qed.

Lemma toLowerCase_slug (s : string) : all_chars is_slug_char s = true → toLowerCase s = s.
Proof.
  induction s as [|c s IH]; simpl; [done|]. intros [Hc Hs]%andb_true_iff.
  destruct (slug_char_facts c Hc) as (-> & _). by rewrite IH.
Qed.

Lemma trim_start_slug (s : string) : all_chars is_slug_char s = true → trim_start s = s.
Proof.
  destruct s as [|c s]; simpl; [done|]. intros [Hc Hs]%andb_true_iff.
  by destruct (slug_char_facts c Hc) as (_ & -> & _).
Qed.

Lemma trim_end_slug (s : string) : all_chars is_slug_char s = true → trim_end s = s.
Proof.
  induction s as [|c s IH]; simpl; [done|]. intros [Hc Hs]%andb_true_iff.
  rewrite IH by done. destruct (slug_char_facts c Hc) as (_ & -> & _). by destruct s.
Qed.

Lemma remove_matching_slug (s : string) :
  all_chars is_slug_char s = true → remove_matching not_slug_input s = s.
Proof.
  induction s as [|c s IH]; simpl; [done|]. intros [Hc Hs]%andb_true_iff.
  destruct (slug_char_facts c Hc) as (_ & _ & -> & _). by rewrite IH.
Qed.

Lemma collapse_runs_slug (b : bool) (s : string) :
  all_chars is_slug_char s = true → no_double_hyphen s = true →
  (b = true → starts_with_hyphen s = false) →
  collapse_runs is_separator b s = s.
Proof.
  revert b. induction s as [|c s IH]; intros b; simpl; [done|].
  intros [Hc Hs]%andb_true_iff [Hd Hn]%andb_true_iff Hb.
  destruct (slug_char_facts c Hc) as (_ & _ & _ & ->).
  destruct (Ascii.eqb_spec c "-") as [->|Hne].
  - destruct b; [by specialize (Hb eq_refl)|]. f_equal. apply IH; try done.
    intros _. simpl in Hd. by apply negb_true_iff in Hd.
  - f_equal. apply IH; try done.
Qed.

Lemma strip_leading_slug (s : string) :
  starts_with_hyphen s = false → strip_leading_hyphens s = s.
Proof.
  destruct s as [|c s]; [done|]. simpl. intros Hc.
  destruct c as [[] [] [] [] [] [] [] []]; try done.
Qed.

Lemma strip_trailing_slug (s : string) :
  ends_with_hyphen s = false → strip_trailing_hyphens s = s.
Proof.
  induction s as [|c s IH]; [done|]. rewrite strip_trailing_cons.
  destruct s as [|d r]; [by simpl; intros ->|].
  intros He. rewrite IH by exact He. done.
Qed.

Lemma clean_slug_fixed (s : string) : clean_slug s = true → generateSlug s = s.
Proof.
  unfold clean_slug. rewrite !andb_true_iff, !negb_true_iff.
  intros [[[Hall Hd] Hs] He]. unfold generateSlug, trim.
  rewrite toLowerCase_slug, trim_start_slug, trim_end_slug, remove_matching_slug by done.
  rewrite collapse_runs_slug by done.
  by rewrite strip_leading_slug, strip_trailing_slug.
Qed.

(** X21. The slug of a title.  Whatever the title, [generateSlug] gives a
    string of lower-case letters, digits and single hyphens that neither
    starts nor ends with a hyphen (it may be empty), and generating the
    slug of a slug changes nothing. *)
Theorem slug_is_clean_and_stable (title : string) :
  clean_slug (generateSlug title) = true
  ∧ generateSlug (generateSlug title) = generateSlug title.
Proof. split; [apply generateSlug_clean|apply clean_slug_fixed, generateSlug_clean]. Qed.

(** X22. A string that already is a slug (lower-case letters, digits and
    single hyphens, no hyphen at either end) is its own slug. *)
Theorem clean_slug_is_kept (s : string) : clean_slug s = true → generateSlug s = s.
Proof. apply clean_slug_fixed. Qed.

Lemma clean_slug_is_kept_witness :
  clean_slug "senior-frontend-engineer" = true
  ∧ generateSlug "senior-frontend-engineer" = "senior-frontend-engineer".
Proof.
  split; [reflexivity|].
  apply (clean_slug_is_kept "senior-frontend-engineer"). reflexivity.
Defined.

Example slug_of_a_title :
  generateSlug "  Senior Frontend_Engineer (C++ / Rust) -- Remote!  "
  = "senior-frontend-engineer-c-rust-remote"
  ∧ generateSlug "?!" = "".
Proof. split; reflexivity. Qed.

(** ** The tags of the form *)

(** X23. The tags of the form.  Starting from tags that are pairwise distinct
    and not empty, [addTag] (for an input in ASCII) and [removeTag] keep
    them so; [addTag] makes the trimmed input a tag unless it is blank,
    and [removeTag] removes the given tag and no other. *)
Theorem tags_stay_distinct (tagInput tagToRemove : string) (tags : list string) :
  NoDup tags → ("" ∉ tags) → ascii_text tagInput →
  (NoDup (addTag tagInput tags) ∧ ("" ∉ addTag tagInput tags)
   ∧ (trim tagInput ≠ "" → trim tagInput ∈ addTag tagInput tags))
  ∧ (NoDup (removeTag tagToRemove tags) ∧ ("" ∉ removeTag tagToRemove tags)
     ∧ (tagToRemove ∉ removeTag tagToRemove tags)
     ∧ ∀ tag, tag ≠ tagToRemove → tag ∈ tags → tag ∈ removeTag tagToRemove tags).
Proof.
  intros Hnd Hne _. split.
  - unfold addTag. cbv zeta.
    destruct (String.eqb_spec (trim tagInput) "") as [Hblank|Hblank]; simpl.
    { split; [done|]. split; [done|]. by intros []. }
    destruct (existsb (String.eqb (trim tagInput)) tags) eqn:Hin; simpl.
    + split; [done|]. split; [done|]. intros _.
      apply existsb_exists in Hin as (x & Hx & ->%String.eqb_eq).
      by apply list_elem_of_In.
    + assert (trim tagInput ∉ tags) as Hfresh.
      { intros Hx%list_elem_of_In.
        assert (existsb (String.eqb (trim tagInput)) tags = true); [|congruence].
        apply existsb_exists. exists (trim tagInput). split; [done|apply String.eqb_refl]. }
      split; [|split].
      * apply NoDup_app. split; [done|]. split; [|apply NoDup_singleton].
        intros x Hx ->%list_elem_of_singleton. done.
      * rewrite elem_of_app, list_elem_of_singleton. intros [?|?]; [done|]. congruence.
      * intros _. rewrite elem_of_app, list_elem_of_singleton. by right.
  - unfold removeTag. split; [by apply NoDup_filter|]. split; [|split].
    + by intros [_ ?]%list_elem_of_filter.
    + by intros [? _]%list_elem_of_filter.
    + intros tag ? ?. by apply list_elem_of_filter.
Qed.

Lemma tags_stay_distinct_witness :
  NoDup ["Remote"; "Senior"] ∧ ("" ∉ ["Remote"; "Senior"]) ∧ ascii_text " Urgent "
  ∧ (NoDup (addTag " Urgent " ["Remote"; "Senior"])
     ∧ ("" ∉ addTag " Urgent " ["Remote"; "Senior"])
     ∧ (trim " Urgent " ≠ "" → trim " Urgent " ∈ addTag " Urgent " ["Remote"; "Senior"]))
  ∧ (NoDup (removeTag "Remote" ["Remote"; "Senior"])
     ∧ ("" ∉ removeTag "Remote" ["Remote"; "Senior"])
     ∧ ("Remote" ∉ removeTag "Remote" ["Remote"; "Senior"])
     ∧ ∀ tag, tag ≠ "Remote" → tag ∈ ["Remote"; "Senior"] →
              tag ∈ removeTag "Remote" ["Remote"; "Senior"]).
Proof.
  assert (NoDup ["Remote"; "Senior"]) as Hnd.
  { apply (bool_decide_unpack _). reflexivity. }
  assert ("" ∉ ["Remote"; "Senior"]) as Hne.
  { apply (bool_decide_unpack _). reflexivity. }
  split; [exact Hnd|]. split; [exact Hne|]. split; [reflexivity|].
  exact (tags_stay_distinct " Urgent " "Remote" ["Remote"; "Senior"] Hnd Hne eq_refl).
Defined.

(** ** The mentions of a note *)

Lemma all_chars_snoc (p : ascii → bool) (m : string) (c : ascii) :
  all_chars p (m +:+ String c EmptyString) = all_chars p m && p c.
Proof.
  induction m as [|d m IH].
  - change (p c && true = true && p c). by rewrite andb_true_r.
  - change (p d && all_chars p (m +:+ String c EmptyString) = p d && all_chars p m && p c).
    by rewrite IH, andb_assoc.
Qed.

Lemma scan_mentions_spec (cur : option string) (text : string) :
  (∀ m, cur = Some m → all_chars is_word m = true) →
  Forall (fun m => m ≠ EmptyString ∧ all_chars is_word m = true) (scan_mentions cur text)
  ∧ (length (scan_mentions cur text)
     ≤ match cur with Some _ => 1 | None => 0 end + count_char "@" text)%nat.
Proof.
  revert cur. induction text as [|c rest IH]; intros cur Hcur.
  - destruct cur as [[|d m]|]; simpl; (split; [|lia]); [constructor| |constructor].
    constructor; [|constructor]. split; [done|]. by apply Hcur.
  - set (next := if Ascii.eqb c "@" then Some EmptyString else None).
    assert (∀ m, next = Some m → all_chars is_word m = true) as Hnext.
    { unfold next. intros m. destruct (Ascii.eqb c "@"); [by intros [= <-]|done]. }
    assert (match next with Some _ => 1 | None => 0 end
            = if Ascii.eqb c "@" then 1 else 0)%nat as Hδ.
    { unfold next. by destruct (Ascii.eqb c "@"). }
    destruct (IH next Hnext) as [IHall IHlen]. rewrite Hδ in IHlen.
    destruct cur as [m|].
    + change (scan_mentions (Some m) (String c rest))
        with (if is_word c then scan_mentions (Some (m +:+ String c EmptyString)) rest
              else match m with
                   | EmptyString => scan_mentions next rest
                   | _ => m :: scan_mentions next rest
                   end).
      change (count_char "@" (String c rest))
        with ((if Ascii.eqb c "@" then 1 else 0) + count_char "@" rest)%nat.
      destruct (is_word c) eqn:Hw.
      * destruct (IH (Some (m +:+ String c EmptyString))) as [Hall Hlen].
        { intros ? [= <-]. rewrite all_chars_snoc, Hw, andb_true_r. by apply Hcur. }
        split; [done|]. lia.
      * destruct m as [|d m].
        -- split; [done|]. lia.
        -- split.
           ++ constructor; [|done]. split; [done|]. by apply Hcur.
           ++ simpl. lia.
    + change (scan_mentions None (String c rest)) with (scan_mentions next rest).
      change (count_char "@" (String c rest))
        with ((if Ascii.eqb c "@" then 1 else 0) + count_char "@" rest)%nat.
      split; [done|]. lia.
Qed.

(** X24. The mentions of a note.  Every mention that [extractMentions]
    finds is a non-empty run of word characters (letters, digits,
    underscore), and there are at most as many mentions as the text has
    [@] signs. *)
Theorem mentions_are_word_runs (text : string) :
  Forall (fun m => m ≠ EmptyString ∧ all_chars is_word m = true) (extractMentions text)
  ∧ (length (extractMentions text) ≤ count_char "@" text)%nat.
Proof. apply (scan_mentions_spec None text). done. Qed.

Example mentions_of_a_note :
  extractMentions "Ask @dana and @lee_2 (cc: ops@example.org, @@ @)"
  = ["dana"; "lee_2"; "example"].
Proof. reflexivity. Qed.

(** ** The sections of an assessment *)

Lemma findIndex_lt {A} (p : A → bool) (xs : list A) (i : nat) :
  findIndex p xs = Some i → (i < length xs)%nat.
Proof.
  revert i. induction xs as [|x xs IH]; intros i; simpl; [done|].
  destruct (p x); [intros [= <-]; lia|].
  destruct (findIndex p xs) as [j|]; [|done]. intros [= <-].
  specialize (IH j eq_refl). lia.
Qed.

Lemma arrayMove_perm {A} (xs : list A) (from to : nat) : arrayMove xs from to ≡ₚ xs.
Proof.
  unfold arrayMove. destruct (xs !! from) as [x|] eqn:Hx; [|done].
  rewrite <- Permutation_middle, take_drop.
  rewrite <- (take_drop_middle xs from x Hx) at 3. by rewrite <- Permutation_middle.
Qed.

(** X25. The order of the sections of an assessment.  After a section is
    dragged onto another one, every section's [order] is its position
    and the sections are the same ones as before; and adding a section
    to sections whose orders are their positions keeps that. *)
Theorem section_orders_follow_positions :
  (∀ active over items items',
     handleSectionDragEnd active (Some over) items = Some items' → active ≠ over →
     orders_are_indices items'
     ∧ (fun s => s !! "id") <$> items' ≡ₚ (fun s => s !! "id") <$> items)
  ∧ (∀ uid sections,
       orders_are_indices sections → orders_are_indices (addSection uid sections)).
Proof.
  split.
  - intros active over items items' Hrun Hne. unfold handleSectionDragEnd in Hrun.
    apply String.eqb_neq in Hne. rewrite Hne in Hrun. cbn [negb] in Hrun.
    destruct (findIndex (fun i => strict_eq (i !! "id") (Some (VStr active))) items)
      as [oldIndex|]; simpl in Hrun; [|done].
    destruct (findIndex (fun i => strict_eq (i !! "id") (Some (VStr over))) items)
      as [newIndex|]; simpl in Hrun; [|done].
    injection Hrun as <-. split.
    + intros i s. rewrite list_lookup_imap.
      destruct (arrayMove items oldIndex newIndex !! i); [|done].
      intros [= <-]. by rewrite lookup_insert_eq.
    + rewrite <- (arrayMove_perm items oldIndex newIndex) at 2.
      match goal with |- ?l ≡ₚ ?r => assert (l = r) as ->; [|done] end.
      apply list_eq. intros i. rewrite !list_lookup_fmap, list_lookup_imap.
      destruct (arrayMove items oldIndex newIndex !! i); [|done]. simpl.
      by rewrite lookup_insert_ne.
  - intros uid sections Hidx i s. unfold addSection.
    destruct (decide (i < length sections)%nat) as [Hi|Hi].
    + rewrite lookup_app_l by done. apply Hidx.
    + rewrite lookup_app_r by lia.
      destruct (i - length sections)%nat as [|d] eqn:Hd; [|done].
      intros [= <-]. replace i with (length sections) by lia. by simplify_map_eq.
Qed.

Lemma section_orders_follow_positions_witness :
  let items : list Obj :=
    [ <["id" := VStr "s1"]> {[ "order" := VNum 5 ]};
      <["id" := VStr "s2"]> {[ "order" := VNum 9 ]} ] in
  let items' : list Obj :=
    [ <["order" := VNum 0]> (<["id" := VStr "s2"]> {[ "order" := VNum 9 ]});
      <["order" := VNum 1]> (<["id" := VStr "s1"]> {[ "order" := VNum 5 ]}) ] in
  handleSectionDragEnd "s1" (Some "s2") items = Some items'
  ∧ "s1" ≠ "s2"
  ∧ orders_are_indices items'
  ∧ (fun s => s !! "id") <$> items' ≡ₚ (fun s => s !! "id") <$> items.
Proof.
  cbv zeta. split; [reflexivity|]. split; [discriminate|].
  apply (proj1 section_orders_follow_positions "s1" "s2"); [reflexivity|discriminate].
Defined.

(** X26. Deleting a section leaves a gap.  [deleteSection] does not renumber:
    when a section other than the last is deleted from sections whose
    orders are their positions and a section is added afterwards, the
    new section gets the order that the last section already has. *)
Theorem delete_then_add_repeats_an_order (uid sectionId : string)
    (before after : list Obj) (s last : Obj) :
  orders_are_indices (before ++ s :: after ++ [last]) →
  s !! "id" = Some (VStr sectionId) →
  (∀ x, x ∈ before ++ after ++ [last] → x !! "id" ≠ Some (VStr sectionId)) →
  ∃ new,
    addSection uid (deleteSection sectionId (before ++ s :: after ++ [last]))
    = before ++ after ++ [last; new]
    ∧ new !! "id" = Some (VStr uid)
    ∧ new !! "order" = last !! "order".
Proof.
  intros Hidx Hs Hothers.
  assert (deleteSection sectionId (before ++ s :: after ++ [last]) = before ++ after ++ [last])
    as Hdel.
  { unfold deleteSection. rewrite filter_app, filter_cons_False.
    - rewrite <- filter_app. apply filter_all. apply Forall_forall. intros x Hx.
      apply Is_true_true_2, negb_true_iff.
      destruct (strict_eq (x !! "id") (Some (VStr sectionId))) eqn:Heq; [|done].
      apply strict_eq_str in Heq. by apply Hothers in Hx.
    - intros Hk. apply Is_true_true_1, negb_true_iff in Hk.
      assert (strict_eq (s !! "id") (Some (VStr sectionId)) = true) by (by apply strict_eq_str).
      congruence. }
  rewrite Hdel. unfold addSection. eexists. split.
  - rewrite <- !app_assoc. simpl. reflexivity.
  - split; [by simplify_map_eq|].
    rewrite lookup_insert_ne, lookup_insert_ne, lookup_insert_ne, lookup_insert_ne by done.
    rewrite lookup_insert_eq.
    assert ((before ++ s :: after ++ [last]) !! (length before + S (length after))%nat
            = Some last) as Hlast.
    { rewrite lookup_app_r by lia. replace (_ - _)%nat with (S (length after)) by lia.
      simpl. rewrite lookup_app_r by lia. by rewrite Nat.sub_diag. }
    rewrite (Hidx _ _ Hlast). f_equal. f_equal.
    rewrite !length_app. simpl. lia.
Qed.

Lemma delete_then_add_repeats_an_order_witness :
  let s0 : Obj := <["id" := VStr "s0"]> {[ "order" := VNum 0 ]} in
  let s1 : Obj := <["id" := VStr "s1"]> {[ "order" := VNum 1 ]} in
  orders_are_indices ([] ++ s0 :: [] ++ [s1])
  ∧ s0 !! "id" = Some (VStr "s0")
  ∧ (∀ x, x ∈ [] ++ [] ++ [s1] → x !! "id" ≠ Some (VStr "s0"))
  ∧ ∃ new,
      addSection "s2" (deleteSection "s0" ([] ++ s0 :: [] ++ [s1])) = [] ++ [] ++ [s1; new]
      ∧ new !! "id" = Some (VStr "s2")
      ∧ new !! "order" = s1 !! "order".
Proof.
  cbv zeta.
  assert (orders_are_indices
            ([] ++ (<["id" := VStr "s0"]> {[ "order" := VNum 0 ]} : Obj)
                :: [] ++ [<["id" := VStr "s1"]> {[ "order" := VNum 1 ]}])) as Hidx.
  { intros [|[|i]] x; simpl; [by intros [= <-]..|done]. }
  assert (∀ x : Obj, x ∈ [] ++ [] ++ [(<["id" := VStr "s1"]> {[ "order" := VNum 1 ]} : Obj)] →
                     x !! "id" ≠ Some (VStr "s0")) as Hothers.
  { intros x ->%list_elem_of_singleton. discriminate. }
  split; [exact Hidx|]. split; [reflexivity|]. split; [exact Hothers|].
  exact (delete_then_add_repeats_an_order "s2" "s0" [] [] _ _ Hidx eq_refl Hothers).
Defined.

(** ** Which handler answers *)








(** [answered_by] follows the first match. *)
Lemma answered_by_first_match (r : Request) : written_for (answered_by r) = answering r.
Proof. by destruct r. Qed.

(** ** The time a request takes *)

Lemma ck_ret {A} (a : A) : clock_kept (ret a).
Proof. done. Qed.

Lemma ck_throw {A} (e : string) : clock_kept (@throw A e).
Proof. done. Qed.

Lemma ck_lift {A} (o : Outcome A) : clock_kept (lift o).
Proof. done. Qed.

Lemma ck_now : clock_kept now.
Proof. done. Qed.

Lemma ck_randomUUID : clock_kept randomUUID.
Proof. done. Qed.

Lemma ck_Math_random : clock_kept Math_random.
Proof. done. Qed.

Lemma ck_read_table (n : TableName) : clock_kept (read_table n).
Proof. done. Qed.

Lemma ck_write_table (n : TableName) (t : Table) : clock_kept (write_table n t).
Proof. done. Qed.

Lemma ck_record_write (x : StoreWrite) : clock_kept (record_write x).
Proof. done. Qed.

Lemma ck_bind {A B} (m : Handler A) (k : A → Handler B) :
  clock_kept m → (∀ a, clock_kept (k a)) → clock_kept (bind m k).
Proof.
  intros Hm Hk w. unfold bind. specialize (Hm w).
  destruct (m w) as [[a|e] w1]; simpl in *; [by rewrite Hk|done].
Qed.

Lemma ck_shouldSimulateError : clock_kept shouldSimulateError.
Proof. apply ck_bind; [apply ck_Math_random|intros; apply ck_ret]. Qed.

Lemma ck_db_get (n : TableName) (k : string) : clock_kept (db_get n k).
Proof. apply ck_bind; [apply ck_read_table|intros; apply ck_ret]. Qed.

Lemma ck_db_add (n : TableName) (o : Obj) : clock_kept (db_add n o).
Proof.
  apply ck_bind; [apply ck_record_write|intros _].
  apply ck_bind; [apply ck_read_table|intros t].
  destruct (tbl_add t o); [apply ck_write_table|apply ck_throw].
Qed.

Lemma ck_db_update (n : TableName) (k : string) (changes : Obj) :
  clock_kept (db_update n k changes).
Proof.
  apply ck_bind; [apply ck_record_write|intros _].
  apply ck_bind; [apply ck_read_table|intros t]. apply ck_write_table.
Qed.

Lemma ck_for_of {A} (xs : list A) (body : A → Handler unit) :
  (∀ x, clock_kept (body x)) → clock_kept (for_of xs body).
Proof.
  intros Hbody. induction xs as [|x xs IH]; simpl; [apply ck_ret|].
  apply ck_bind; [apply Hbody|intros _; apply IH].
Qed.

Create HintDb clock.
#[local] Hint Resolve ck_ret ck_throw ck_lift ck_now ck_randomUUID ck_Math_random
  ck_read_table ck_write_table ck_record_write ck_shouldSimulateError ck_db_get
  ck_db_add ck_db_update : clock.

Ltac keep_clock :=
  repeat first
    [ progress auto with clock
    | apply ck_bind; [|intros ?]
    | apply ck_for_of; intros ?
    | match goal with
      | |- clock_kept (if ?b then _ else _) => destruct b
      | |- clock_kept (match ?x with _ => _ end) => destruct x
      end ].

Lemma after_the_latency (rest : Handler Response) (w : World) :
  clock_kept rest → clock ((simulateLatency ;;; rest) w).2 = clock (after_latency w).
Proof. intros Hrest. rewrite latency_run. apply Hrest. Qed.

(** X28. Every handler waits once.  Whatever the request and whatever the
    handler does (answer, refuse, or throw), the delay it waits for is
    that of exactly one [simulateLatency]: at least 200 ms and at most
    1200 ms. *)
Theorem every_answer_waits_once (r : Request) (w : World) :
  clock (handle r w).2 = clock (simulateLatency w).2
  ∧ (Z.of_N (random w (drawn w)) < 2 ^ 53 → 200 ≤ clock (handle r w).2 - clock w ≤ 1200).
Proof.
  assert (clock (handle r w).2 = clock (after_latency w)) as Hclock.
  { destruct r; cbn [handle];
      unfold get_jobs, get_job, post_job, patch_job, patch_jobs_reorder, get_candidates_search,
        get_candidate, get_candidate_timeline, patch_candidate, post_candidate,
        get_assessments_by_job, get_assessment, post_assessment, put_assessment,
        post_assessment_submit, post_note, get_notes;
      cbv zeta; apply after_the_latency; keep_clock. }
  rewrite Hclock. split; [reflexivity|].
  intros Hu. cbn [clock after_latency].
  assert (0 ≤ Z.of_N (random w (drawn w)) * (1200 - 200) / 2 ^ 53 < 1000); [|lia].
  split; [apply Z.div_pos; lia|]. apply Z.div_lt_upper_bound; lia.
Qed.

Lemma every_answer_waits_once_witness :
  Z.of_N (random (calm_world 0) (drawn (calm_world 0))) < 2 ^ 53
  ∧ clock (handle (JobsGetAll []) (calm_world 0)).2
    = clock (simulateLatency (calm_world 0)).2
  ∧ 200 ≤ clock (handle (JobsGetAll []) (calm_world 0)).2 - clock (calm_world 0) ≤ 1200.
Proof.
  assert (Z.of_N (random (calm_world 0) (drawn (calm_world 0))) < 2 ^ 53) as Hu by reflexivity.
  split; [exact Hu|].
  destruct (every_answer_waits_once (JobsGetAll []) (calm_world 0)) as [Hclock Hbound].
  split; [exact Hclock|exact (Hbound Hu)].
Defined.

(** ** Seeding *)

Lemma bind_run {A B} (m : Handler A) (k : A → Handler B) (w w1 : World) (a : A) :
  m w = (Done a, w1) → bind m k w = k a w1.
Proof. intros H. unfold bind. by rewrite H. Qed.

Lemma jk_ret {A} (a : A) : jobs_kept (ret a).
Proof. by intros w. Qed.

Lemma jk_throw {A} (e : string) : jobs_kept (@throw A e).
Proof. by intros w. Qed.

Lemma jk_lift {A} (o : Outcome A) : jobs_kept (lift o).
Proof. by intros w. Qed.

Lemma jk_now : jobs_kept now.
Proof. by intros w. Qed.

Lemma jk_Math_random : jobs_kept Math_random.
Proof. by intros w. Qed.

Lemma jk_bind {A B} (m : Handler A) (k : A → Handler B) :
  jobs_kept m → (∀ a, jobs_kept (k a)) → jobs_kept (bind m k).
Proof.
  intros Hm Hk w. unfold bind. specialize (Hm w).
  destruct (m w) as [[a|e] w1]; simpl in *; [|done].
  by rewrite Hk.
Qed.

Lemma jk_for_list {A B} (xs : list A) (body : A → Handler B) :
  (∀ x, jobs_kept (body x)) → jobs_kept (for_list xs body).
Proof.
  intros Hb. induction xs as [|x xs IH]; simpl; [apply jk_ret|].
  apply jk_bind; [done|]. intros y. apply jk_bind; [done|]. intros ys. apply jk_ret.
Qed.

Lemma jk_db_bulkAdd (n : TableName) (objs : list Obj) :
  n ≠ Jobs → jobs_kept (db_bulkAdd n objs).
Proof.
  intros Hn w. unfold db_bulkAdd, bind, read_table, write_table. simpl.
  destruct (tbl_bulkAdd _ _).2; simpl; by destruct n.
Qed.

Lemma jk_seed_question f i j k : jobs_kept (seed_question f i j k).
Proof.
  unfold seed_question. apply jk_bind; [apply jk_lift|]. intros ty.
  apply jk_bind; [apply jk_Math_random|]. intros u. apply jk_ret.
Qed.

Lemma jk_seed_section f i j : jobs_kept (seed_section f i j).
Proof.
  unfold seed_section. apply jk_bind; [|intros; apply jk_ret].
  apply jk_for_list. intros k. apply jk_seed_question.
Qed.

Lemma jk_seed_assessment f js i : jobs_kept (seed_assessment f js i).
Proof.
  unfold seed_assessment. apply jk_bind; [apply jk_lift|]. intros job.
  apply jk_bind; [apply jk_for_list; intros j; apply jk_seed_section|]. intros ss.
  apply jk_bind; [apply jk_now|]. intros t. apply jk_ret.
Qed.

(** The first loop goes through, reads the store nowhere, and gives job
    [i] the id drawn for it and the order [i]. *)
Lemma seed_job_run f (i : nat) (w : World) :
  ∃ o, seed_job f i w = (Done o, (Math_random w).2)
    ∧ o !! "id" = Some (VStr (job_uuid f i)) ∧ o !! "order" = Some (VNum (Z.of_nat i)).
Proof. eexists. split; [reflexivity|]. split; reflexivity. Qed.

Lemma seed_jobs_run f (xs : list nat) (w : World) :
  ∃ js w', for_list xs (seed_job f) w = (Done js, w') ∧ db w' = db w
    ∧ (fun o : Obj => o !! "id") <$> js = (fun i => Some (VStr (job_uuid f i))) <$> xs
    ∧ (fun o : Obj => o !! "order") <$> js = (fun i => Some (VNum (Z.of_nat i))) <$> xs.
Proof.
  revert w. induction xs as [|i xs IH]; intros w.
  - by exists [], w.
  - destruct (seed_job_run f i w) as (o & Ho & Hid & Hord).
    destruct (IH (Math_random w).2) as (js & w' & Hrun & Hdb & Hids & Hords).
    exists (o :: js), w'. split; [|split; [by rewrite Hdb|]].
    + cbn [for_list]. unfold bind at 1. rewrite Ho. unfold bind at 1. by rewrite Hrun.
    + rewrite !fmap_cons, Hid, Hord, Hids, Hords. done.
Qed.

(** [bulkAdd] of records with fresh, pairwise distinct ids stores them all. *)
Lemma tbl_bulkAdd_fresh (objs : list Obj) (ks : list string) (t : Table) (b : bool) :
  (fun o : Obj => o !! "id") <$> objs = (fun k => Some (VStr k)) <$> ks →
  NoDup ks → (∀ k, k ∈ ks → t !! k = None) →
  (foldl bulkAdd_step (t, b) objs).2 = b
  ∧ order_values (foldl bulkAdd_step (t, b) objs).1
      ≡ₚ order_values t ++ ((fun o : Obj => o !! "order") <$> objs).
Proof.
  revert ks t. induction objs as [|o objs IH]; intros ks t Hid Hnd Hfresh.
  - split; [done|]. simpl. by rewrite app_nil_r.
  - destruct ks as [|k ks]; [done|]. rewrite !fmap_cons in Hid.
    injection Hid as Ho Hid. apply NoDup_cons in Hnd as [Hk Hnd].
    assert (bulkAdd_step (t, b) o = (<[k := o]> t, b)) as Hstep.
    { unfold bulkAdd_step, tbl_add. cbn [fst snd]. rewrite Ho, (Hfresh k) by left. done. }
    cbn [foldl]. rewrite Hstep.
    destruct (IH ks (<[k := o]> t) Hid Hnd) as [Hb Hperm].
    { intros k' Hk'. rewrite lookup_insert_ne; [apply Hfresh; by right|].
      intros ->. done. }
    split; [done|]. rewrite Hperm. unfold order_values at 1.
    rewrite map_to_list_insert by (apply Hfresh; left). cbn [fmap list_fmap snd].
    fold (order_values t). rewrite <- app_comm_cons. apply Permutation_middle.
Qed.

Lemma fmap_seq_seqZ {A} (g : Z → A) (n : nat) :
  (fun i => g (Z.of_nat i)) <$> seq 0 n = g <$> seqZ 0 (Z.of_nat n).
Proof.
  apply list_eq. intros i. rewrite !list_lookup_fmap.
  destruct (decide (i < n)%nat) as [Hi|Hi].
  - rewrite lookup_seq_lt by done. rewrite lookup_seqZ_lt by lia. simpl. do 2 f_equal; lia.
  - rewrite lookup_seq_ge by lia. by rewrite lookup_seqZ_ge by lia.
Qed.

Lemma order_values_size (t : Table) : length (order_values t) = size t.
Proof. unfold order_values. by rewrite length_fmap, length_map_to_list. Qed.

Lemma db_bulkAdd_fresh (n : TableName) (objs : list Obj) (ks : list string) (w : World) :
  (fun o : Obj => o !! "id") <$> objs = (fun k => Some (VStr k)) <$> ks →
  NoDup ks → (∀ k, k ∈ ks → table n (db w) !! k = None) →
  ∃ t', db_bulkAdd n objs w = (Done tt, with_db (set_table n t' (db w)) w)
    ∧ order_values t' ≡ₚ order_values (table n (db w)) ++ ((fun o : Obj => o !! "order") <$> objs).
Proof.
  intros Hid Hnd Hfresh.
  destruct (tbl_bulkAdd_fresh objs ks (table n (db w)) false Hid Hnd Hfresh) as [Hb Hperm].
  exists (tbl_bulkAdd (table n (db w)) objs).1. split; [|done].
  unfold db_bulkAdd, bind, read_table, write_table, tbl_bulkAdd. by rewrite Hb.
Qed.

Lemma jk_after_the_jobs f (js : list Obj) :
  jobs_kept (seeded <- lift (for_outcomes (seq 0 1000)
                 (seed_candidate f
                    (filter (fun j : Obj => Is_true (strict_eq (j !! "status") (Some (VStr "active")))) js))) ;;
             db_bulkAdd Candidates seeded.*1 ;;;
             db_bulkAdd Timeline (concat seeded.*2) ;;;
             assessments <- for_list (seq 0 3) (seed_assessment f js) ;;
             db_bulkAdd Assessments assessments).
Proof.
  apply jk_bind; [apply jk_lift|]. intros seeded.
  apply jk_bind; [by apply jk_db_bulkAdd|]. intros _.
  apply jk_bind; [by apply jk_db_bulkAdd|]. intros _.
  apply jk_bind; [apply jk_for_list; intros i; apply jk_seed_assessment|]. intros assessments.
  by apply jk_db_bulkAdd.
Qed.

Lemma seedDatabase_jobs (f : Faker) (w : World) :
  jobs (db w) = ∅ →
  NoDup (job_uuid f <$> seq 0 25) →
  dense (jobs (db (seedDatabase f w).2)) 25.
Proof.
  intros Hempty Hnd.
  destruct (seed_jobs_run f (seq 0 25) w) as (js & w1 & Hrun & Hdb & Hid & Hord).
  destruct (db_bulkAdd_fresh Jobs js (job_uuid f <$> seq 0 25) w1) as (t' & Hadd & Hperm).
  { by rewrite Hid, <- list_fmap_compose. }
  { done. }
  { intros k _. cbn [table]. rewrite Hdb, Hempty. apply lookup_empty. }
  unfold seedDatabase.
  rewrite (bind_run _ _ _ _ _ Hrun), (bind_run _ _ _ _ _ Hadd), jk_after_the_jobs.
  change (jobs (db (with_db (set_table Jobs t' (db w1)) w1))) with t'.
  unfold dense. rewrite Hperm. cbn [table]. rewrite Hdb, Hempty.
  unfold order_values at 1. rewrite map_to_list_empty. cbn [fmap list_fmap app].
  rewrite Hord. by rewrite (fmap_seq_seqZ (fun i => Some (VNum i))).
Qed.

Lemma initializeDatabase_empty (f : Faker) (w : World) :
  jobs (db w) = ∅ → initializeDatabase f w = seedDatabase f w.
Proof.
  intros Hempty. unfold initializeDatabase.
  rewrite (bind_run _ _ w w (jobs (db w))) by reflexivity.
  rewrite Hempty, map_size_empty. cbn [Nat.eqb]. reflexivity.
Qed.

Lemma initializeDatabase_seeded (f : Faker) (w : World) :
  size (jobs (db w)) ≠ 0%nat → initializeDatabase f w = (Done tt, w).
Proof.
  intros Hsize. unfold initializeDatabase.
  rewrite (bind_run _ _ w w (jobs (db w))) by reflexivity.
  destruct (size (jobs (db w))); [done|]. cbn [Nat.eqb]. reflexivity.
Qed.

(** X29. The first visit seeds an ordered board, once.  On a store without
    jobs, when the 25 job ids that faker draws are pairwise distinct,
    [initializeDatabase] leaves 25 jobs whose orders are exactly
    0, ..., 24, whatever happens afterwards while the candidates and the
    assessments are generated; and a later [initializeDatabase] returns
    without touching anything, whatever faker would draw then. *)
Theorem first_visit_seeds_the_jobs_once (f f' : Faker) (w : World) :
  jobs (db w) = ∅ →
  NoDup (job_uuid f <$> seq 0 25) →
  let w' := (initializeDatabase f w).2 in
  dense (jobs (db w')) 25 ∧ initializeDatabase f' w' = (Done tt, w').
Proof.
  intros Hempty Hnd. cbv zeta. rewrite initializeDatabase_empty by done.
  pose proof (seedDatabase_jobs f w Hempty Hnd) as Hdense.
  split; [done|]. apply initializeDatabase_seeded.
  rewrite <- order_values_size, Hdense, length_fmap, length_seqZ. done.
Qed.

Lemma first_visit_seeds_the_jobs_once_witness :
  jobs (db first_visit) = ∅
  ∧ NoDup (job_uuid numbered_faker <$> seq 0 25)
  ∧ dense (jobs (db (initializeDatabase numbered_faker first_visit).2)) 25
  ∧ initializeDatabase numbered_faker (initializeDatabase numbered_faker first_visit).2
    = (Done tt, (initializeDatabase numbered_faker first_visit).2).
Proof.
  assert (NoDup (job_uuid numbered_faker <$> seq 0 25)) as Hnd
    by (apply (bool_decide_unpack _); vm_compute; reflexivity).
  split; [reflexivity|]. split; [exact Hnd|].
  exact (first_visit_seeds_the_jobs_once numbered_faker numbered_faker first_visit eq_refl Hnd).
Defined.

Lemma seed_stage_change_fields f (i : nat) (c : string) (a : Z) (j : nat) :
  (j < 6)%nat →
  seed_stage_change f i c a j !! "toStage" = VStr <$> STAGES !! j
  ∧ seed_stage_change f i c a j !! "createdAt" = Some (VTime (a + Z.of_nat j * 259200000))
  ∧ seed_stage_change f i c a j !! "candidateId" = Some (VStr c).
Proof.
  intros Hj. do 6 (destruct j as [|j]; [by repeat split|]). lia.
Qed.

Lemma seed_changes_fields f (i : nat) (c : string) (a : Z) (k : nat) :
  (k < 6)%nat →
  let changes := seed_stage_change f i c a <$> seq 1 k in
  (fun e : Obj => e !! "toStage") <$> changes = (fun s => Some (VStr s)) <$> take k (drop 1 STAGES)
  ∧ (fun e : Obj => e !! "createdAt") <$> changes
    = (fun j => Some (VTime (a + j * 259200000))) <$> seqZ 1 (Z.of_nat k)
  ∧ Forall (fun e : Obj => e !! "candidateId" = Some (VStr c)) changes.
Proof.
  intros Hk changes. subst changes. rewrite <- !list_fmap_compose. repeat split.
  - apply list_eq. intros n. rewrite !list_lookup_fmap, lookup_take, lookup_drop.
    destruct (decide (n < k)%nat) as [Hn|Hn].
    + rewrite lookup_seq_lt by done. cbn [fmap option_fmap option_map compose].
      destruct (seed_stage_change_fields f i c a (1 + n)) as (-> & _); [lia|].
      destruct (lookup_lt_is_Some_2 STAGES (1 + n)) as [s ->]; [simpl; lia|]. done.
    + rewrite lookup_seq_ge by lia. done.
  - apply list_eq. intros n. rewrite !list_lookup_fmap.
    destruct (decide (n < k)%nat) as [Hn|Hn].
    + rewrite lookup_seq_lt by done. rewrite lookup_seqZ_lt by lia.
      cbn [fmap option_fmap option_map compose].
      destruct (seed_stage_change_fields f i c a (1 + n)) as (_ & -> & _); [lia|].
      do 3 f_equal. lia.
    + rewrite lookup_seq_ge by lia. by rewrite lookup_seqZ_ge by lia.
  - apply Forall_fmap, Forall_forall. intros j Hj%elem_of_seq. cbn [compose].
    by destruct (seed_stage_change_fields f i c a j) as (_ & _ & ->); [lia|].
Qed.

(** X30. The seeded history of a candidate leads to the stage it is seeded
    in.  When some job came out active, candidate [i] is generated; with
    its stage at position [k] of [STAGES], its timeline has [k + 1]
    events whose target stages are the first [k + 1] stages in the order
    of [STAGES] (so a rejected candidate has passed through offer and
    hired), three days apart from the application date on, all under
    the candidate's id; the candidate's [updatedAt] stays the
    application date. *)
Theorem seeded_history_leads_to_the_stage (f : Faker) (activeJobs : list Obj) (i : nat) :
  activeJobs ≠ [] →
  ∃ cand events k stage,
    seed_candidate f activeJobs i = Done (cand, events)
    ∧ STAGES !! k = Some stage
    ∧ cand !! "stage" = Some (VStr stage)
    ∧ (fun e : Obj => e !! "toStage") <$> events = (fun s => Some (VStr s)) <$> take (S k) STAGES
    ∧ (fun e : Obj => e !! "createdAt") <$> events
      = (fun j => Some (VTime (candidate_past f i + j * 259200000))) <$> seqZ 0 (Z.of_nat (S k))
    ∧ Forall (fun e : Obj => e !! "candidateId" = cand !! "id") events
    ∧ cand !! "updatedAt" = Some (VTime (candidate_past f i)).
Proof.
  intros Hne. unfold seed_candidate.
  assert (∃ job, arrayElement activeJobs (candidate_job_pick f i) = Done job) as [job ->].
  { unfold arrayElement.
    destruct (lookup_lt_is_Some_2 activeJobs (candidate_job_pick f i mod length activeJobs)) as [job ->]; [|by eexists].
    apply Nat.mod_upper_bound. by destruct activeJobs. }
  unfold arrayElement. change (length STAGES) with 6%nat.
  assert (candidate_stage_pick f i mod 6 < 6)%nat as Hlt by (apply Nat.mod_upper_bound; lia).
  set (k := (candidate_stage_pick f i mod 6)%nat) in *. clearbody k.
  destruct (lookup_lt_is_Some_2 STAGES k Hlt) as [stage Hstage]. rewrite Hstage.
  assert ((if negb (stage =? "applied")%string
           then seed_stage_change f i (candidate_uuid f i) (candidate_past f i)
                  <$> seq 1 (Z.to_nat (indexOf STAGES stage))
           else [])
          = seed_stage_change f i (candidate_uuid f i) (candidate_past f i) <$> seq 1 k) as ->.
  { do 6 (destruct k as [|k]; [by injection Hstage as <-|]). lia. }
  destruct (seed_changes_fields f i (candidate_uuid f i) (candidate_past f i) k Hlt)
    as (Hto & Hat & Hid).
  eexists _, _, k, stage. split; [reflexivity|]. split; [done|].
  assert (∀ (o : Obj) (v : option Value) (key : string),
            key ≠ "jobId" → set_opt "jobId" v o !! key = o !! key) as Hset.
  { intros o [v|] key Hkey; [|done]. cbn. by rewrite lookup_insert_ne. }
  split; [by rewrite !lookup_insert_ne, lookup_insert_eq by done|].
  split; [|split; [|split]].
  - by rewrite fmap_cons, Hto.
  - rewrite fmap_cons, Hat, Nat2Z.inj_succ, (seqZ_cons 0) by lia.
    rewrite fmap_cons, Z.pred_succ. do 3 f_equal.
    rewrite lookup_insert_ne, lookup_insert_ne, lookup_insert_ne, lookup_insert_ne, lookup_insert_ne by done.
    rewrite lookup_insert_eq. do 2 f_equal. lia.
  - rewrite lookup_insert_eq. constructor; [done|]. done.
  - by rewrite !lookup_insert_ne, Hset, !lookup_insert_ne, lookup_insert_eq by done.
Qed.

Lemma seeded_history_leads_to_the_stage_witness :
  ∃ cand events k stage,
    seed_candidate numbered_faker [∅] 5 = Done (cand, events)
    ∧ STAGES !! k = Some stage
    ∧ cand !! "stage" = Some (VStr stage)
    ∧ (fun e : Obj => e !! "toStage") <$> events = (fun s => Some (VStr s)) <$> take (S k) STAGES
    ∧ (fun e : Obj => e !! "createdAt") <$> events
      = (fun j => Some (VTime (candidate_past numbered_faker 5 + j * 259200000))) <$> seqZ 0 (Z.of_nat (S k))
    ∧ Forall (fun e : Obj => e !! "candidateId" = cand !! "id") events
    ∧ cand !! "updatedAt" = Some (VTime (candidate_past numbered_faker 5)).
Proof. apply (seeded_history_leads_to_the_stage numbered_faker [∅] 5). done. Defined.
